(** * auto-scope: stage control, scan planning, tracking and mosaicking

    A shallow embedding of the core of [micro_camera_scope/main_control.py]
    and [micro_camera_scope/visual_servo_tracker.py].

    Conventions.
    - Python [int] is [Z]; Python [str] is [string]; [None] is [option].
    - Python [float] values (wall-clock seconds, sub-pixel keypoint
      coordinates, image moments) are the rationals they denote, in [Q];
      an operation on them is the exact operation.
    - A [try: ... except Exception] block is a computation in [option]
      ([None] = an exception was raised) followed by its handler.
    - Hardware and OpenCV collaborators (serial port, clock, ORB, matcher)
      are inputs of the step functions. *)

From Stdlib Require Import ZArith QArith Qround Bool Lia Lqa.
From Stdlib Require Import Ascii String DecimalString.
From Stdlib Require Import List Sorted.
Import ListNotations.

Local Open Scope Z_scope.

(** ** Python helpers *)

Module Py.

(** [str(n)] for an [int]. *)
Definition str_of_int (n : Z) : string := NilZero.string_of_int (Z.to_int n).

(** [f"{a}{b}\n"]. *)
Definition newline : string := String (ascii_of_nat 10) EmptyString.

(** Truthiness of an optional object reference. *)
Definition truthy {A} (o : option A) : bool :=
  match o with Some _ => true | None => false end.

(** [int(q)]: truncation toward zero. *)
Definition int_of (q : Q) : Z :=
  if Qle_bool 0 q then Qfloor q else Qceiling q.

(** [round(q)]: nearest integer, ties to the even neighbour. *)
Definition round (q : Q) : Z :=
  let f := Qfloor q in
  let r := (q - inject_Z f)%Q in
  match (r ?= 1 # 2)%Q with
  | Lt => f
  | Gt => f + 1
  | Eq => if Z.even f then f else f + 1
  end.

(** [seq[i]] for a list or tuple: negative indices count from the end,
    anything else out of range raises [IndexError]. *)
Definition index {A} (l : list A) (i : Z) : option A :=
  let n := Z.of_nat (length l) in
  if (0 <=? i) && (i <? n) then nth_error l (Z.to_nat i)
  else if (- n <=? i) && (i <? 0) then nth_error l (Z.to_nat (i + n))
  else None.

(** The bounds of [a[start:stop]] on an axis of length [len]: the first
    index selected and how many are. *)
Definition slice_bound (len i : Z) : Z :=
  if i <? 0 then Z.max 0 (i + len) else Z.min i len.

Definition slice (len start stop : Z) : Z * Z :=
  let a := slice_bound len start in
  let b := slice_bound len stop in
  (a, Z.max 0 (b - a)).

(** Sequencing of steps that may raise. *)
Definition bind {A B} (o : option A) (k : A -> option B) : option B :=
  match o with Some a => k a | None => None end.

(** [sorted(l, key=key)]: stable, ascending. *)
Fixpoint insert_by {A} (key : A -> Q) (x : A) (l : list A) : list A :=
  match l with
  | [] => [x]
  | y :: l' =>
      if Qle_bool (key x) (key y) then x :: l else y :: insert_by key x l'
  end.

Definition sorted_by {A} (key : A -> Q) (l : list A) : list A :=
  fold_right (insert_by key) [] l.

End Py.

Notation "'do' x <- e ;; k" := (Py.bind e (fun x => k))
  (at level 10, x pattern, e at level 100, k at level 200).

(** ** ServoController: position ledger and command dispatch *)

Module Servo.

Local Open Scope string_scope.

(** The serial port object: what has been written to the wire so far. *)
Record Serial := { written : list string }.

(** What the link does during one exchange: [write] raises; [write]
    succeeds and polling or reading the reply raises; or the whole
    exchange goes through. *)
Inductive LinkBehaviour :=
| WriteRaises (msg : string)
| ReadRaises (msg : string)
| LinkOk.

(** The fields of [MicroscopeStitcher] the dispatch code reads or writes. *)
Record Stage := {
  arduino : option Serial;
  arduino_connected : bool;
  set : bool;
  abs_x : Z;
  abs_y : Z;
  status_var : string;
  pos_label : string;
  last_motor_command_time : Q
}.

(** [self.MOTOR_COMMAND_INTERVAL = 3.0], in seconds. *)
Definition MOTOR_COMMAND_INTERVAL : Q := 3.

Definition with_status (s : Stage) (msg : string) : Stage :=
  {| arduino := arduino s; arduino_connected := arduino_connected s;
     set := set s; abs_x := abs_x s; abs_y := abs_y s;
     status_var := msg; pos_label := pos_label s;
     last_motor_command_time := last_motor_command_time s |}.

Definition with_port (s : Stage) (p : Serial) : Stage :=
  {| arduino := Some p; arduino_connected := arduino_connected s;
     set := set s; abs_x := abs_x s; abs_y := abs_y s;
     status_var := status_var s; pos_label := pos_label s;
     last_motor_command_time := last_motor_command_time s |}.

Definition with_position (s : Stage) (x y : Z) (label : string) : Stage :=
  {| arduino := arduino s; arduino_connected := arduino_connected s;
     set := set s; abs_x := x; abs_y := y;
     status_var := status_var s; pos_label := label;
     last_motor_command_time := last_motor_command_time s |}.

Definition with_home (s : Stage) (label : string) : Stage :=
  {| arduino := arduino s; arduino_connected := arduino_connected s;
     set := true; abs_x := 0; abs_y := 0;
     status_var := status_var s; pos_label := label;
     last_motor_command_time := last_motor_command_time s |}.

Definition with_command_time (s : Stage) (t : Q) : Stage :=
  {| arduino := arduino s; arduino_connected := arduino_connected s;
     set := set s; abs_x := abs_x s; abs_y := abs_y s;
     status_var := status_var s; pos_label := pos_label s;
     last_motor_command_time := t |}.

(** [self.arduino.write(data)]: appends to the wire. *)
Definition write (p : Serial) (data : string) : Serial :=
  {| written := written p ++ [data] |}.

(** The wire of a stage, empty when there is no port object. *)
Definition wire (s : Stage) : list string :=
  match arduino s with Some p => written p | None => [] end.

(** [f"{y_cmd}{x_cmd}\n"]. *)
Definition command_line (y_cmd x_cmd : string) : string :=
  y_cmd ++ x_cmd ++ Py.newline.

Definition position_text (x y : Z) : string :=
  "Position: (" ++ Py.str_of_int x ++ ", " ++ Py.str_of_int y ++ ")".

(** The prospective position of [send_step]. *)
Definition prospective_y (y : Z) (y_cmd : string) : Z :=
  if String.eqb y_cmd "U" then y + 1
  else if String.eqb y_cmd "D" then y - 1
  else y.

Definition prospective_x (x : Z) (x_cmd : string) : Z :=
  if String.eqb x_cmd "L" then x + 1
  else if String.eqb x_cmd "R" then x - 1
  else x.

(** The [try] block of [send_step]: write, poll for a reply, then commit
    the new position.  [inl] carries the state reached when an exception
    escapes the block, with the exception's text. *)
Definition send_step_try (s : Stage) (p : Serial) (y_cmd x_cmd : string)
    (new_abs_x new_abs_y : Z) (io : LinkBehaviour) : Stage * string + Stage :=
  match io with
  | WriteRaises e => inl (s, e)
  | ReadRaises e => inl (with_port s (write p (command_line y_cmd x_cmd)), e)
  | LinkOk =>
      let s1 := with_port s (write p (command_line y_cmd x_cmd)) in
      inr (with_position s1 new_abs_x new_abs_y
             (position_text new_abs_x new_abs_y))
  end.

(** [MicroscopeStitcher.send_step]. *)
Definition send_step (s : Stage) (y_cmd x_cmd : string) (io : LinkBehaviour)
    : Stage * bool :=
  match arduino_connected s, arduino s with
  | true, Some p =>
      let new_abs_x := prospective_x (abs_x s) x_cmd in
      let new_abs_y := prospective_y (abs_y s) y_cmd in
      if set s && (new_abs_x <? 0)%Z then
        (with_status s "Cannot move right - at boundary (x=0)", false)
      else if set s && (new_abs_y <? 0)%Z then
        (with_status s "Cannot move down - at boundary (y=0)", false)
      else
        match send_step_try s p y_cmd x_cmd new_abs_x new_abs_y io with
        | inr s' => (s', true)
        | inl (s', e) =>
            (with_status s' ("COMMUNICATION ERROR: " ++ e), false)
        end
  | _, _ => (with_status s "Arduino not connected", false)
  end.

(** [MicroscopeStitcher.set_home]. *)
Definition set_home (s : Stage) : Stage :=
  if arduino_connected s && Py.truthy (arduino s) then
    with_home s (position_text 0 0)
  else s.

(** The [try] block shared by the two branches of
    [send_motor_command_simple]: write, then consume the reply. *)
Definition exchange (s : Stage) (p : Serial) (y_cmd x_cmd : string)
    (io : LinkBehaviour) : option Stage :=
  match io with
  | WriteRaises _ => None
  | ReadRaises _ => None
  | LinkOk => Some (with_port s (write p (command_line y_cmd x_cmd)))
  end.

(** The state left behind when the [try] block is abandoned. *)
Definition abandoned (s : Stage) (p : Serial) (y_cmd x_cmd : string)
    (io : LinkBehaviour) : Stage :=
  match io with
  | WriteRaises _ => s
  | _ => with_port s (write p (command_line y_cmd x_cmd))
  end.

(** [MicroscopeStitcher.send_motor_command_simple]; [now] is the value
    [time.time()] returns when it is read. *)
Definition send_motor_command_simple (s : Stage) (y_cmd x_cmd : string)
    (now : Q) (io : LinkBehaviour) : Stage * bool :=
  if String.eqb y_cmd "S" && String.eqb x_cmd "S" then
    match arduino_connected s, arduino s with
    | true, Some p =>
        match exchange s p y_cmd x_cmd io with
        | Some s' => (s', true)
        | None => (abandoned s p y_cmd x_cmd io, false)
        end
    | _, _ => (s, false)
    end
  else
    let current_time := now in
    let time_since_last := (current_time - last_motor_command_time s)%Q in
    if negb (Qle_bool MOTOR_COMMAND_INTERVAL time_since_last) then
      (s, true)
    else
      match arduino_connected s, arduino s with
      | true, Some p =>
          match exchange s p y_cmd x_cmd io with
          | Some s' => (with_command_time s' current_time, true)
          | None => (abandoned s p y_cmd x_cmd io, false)
          end
      | _, _ => (s, false)
      end.

(** *** Sequences of dispatch calls *)

(** A call of [send_step]: its arguments and what the link does. *)
Record StepCall := {
  step_y : string; step_x : string; step_link : LinkBehaviour
}.

Definition run_steps (s : Stage) (calls : list StepCall) : Stage :=
  fold_left (fun s c => fst (send_step s (step_y c) (step_x c) (step_link c)))
    calls s.










End Servo.

(** ** ScanPlanner: the lawnmower pattern *)

Module Scan.

Local Open Scope string_scope.
Local Open Scope list_scope.
Local Open Scope Z_scope.

(** A move is a [(y_cmd, x_cmd)] tuple. *)
Definition Move := (string * string)%type.

(** [range(n)]: empty when [n <= 0]. *)
Definition range (n : Z) : list Z := map Z.of_nat (seq 0 (Z.to_nat n)).

(** The loop state of [generate_lawnmower_pattern]. *)
Record Loop := { pattern : list Move; going_right : bool }.

(** The inner [for step in range(steps_per_row - 1)] loop. *)
Definition across_row (steps_per_row : Z) (going_right : bool)
    (pattern : list Move) : list Move :=
  fold_left
    (fun pattern _step =>
       if going_right then pattern ++ [("S", "R")] else pattern ++ [("S", "L")])
    (range (steps_per_row - 1)) pattern.

(** One iteration of the outer [for row in range(rows_to_scan)] loop. *)
Definition scan_row (rows_to_scan steps_per_row : Z) (st : Loop) (row : Z)
    : Loop :=
  let pattern := across_row steps_per_row (going_right st) (pattern st) in
  if row <? rows_to_scan - 1 then
    {| pattern := pattern ++ [("D", "S")];
       going_right := negb (going_right st) |}
  else
    {| pattern := pattern; going_right := going_right st |}.

(** [MicroscopeStitcher.generate_lawnmower_pattern]. *)
Definition generate_lawnmower_pattern (rows_to_scan steps_per_row : Z)
    : list Move :=
  pattern
    (fold_left (scan_row rows_to_scan steps_per_row) (range rows_to_scan)
       {| pattern := []; going_right := true |}).

(** The boustrophedon plan in closed form: row [i] (from 0) is
    [steps_per_row - 1] horizontal moves, to the right on even rows and
    to the left on odd rows, followed by one down move unless it is the
    last row. *)
Definition horizontal (i : nat) : Move :=
  if Nat.even i then ("S", "R") else ("S", "L").

Definition boustrophedon_row (rows steps : nat) (i : nat) : list Move :=
  repeat (horizontal i) (steps - 1)%nat ++
  (if (S i <? rows)%nat then [("D", "S")] else []).

Definition boustrophedon (rows steps : nat) : list Move :=
  concat (map (boustrophedon_row rows steps) (seq 0 rows)).

Definition is_horizontal (m : Move) : bool :=
  String.eqb (fst m) "S" && (String.eqb (snd m) "R" || String.eqb (snd m) "L").

Definition is_down (m : Move) : bool :=
  String.eqb (fst m) "D" && String.eqb (snd m) "S".

Definition count_moves (f : Move -> bool) (l : list Move) : Z :=
  Z.of_nat (length (filter f l)).

End Scan.

(** ** TargetTracker: click selection *)

Module Tracker.

(** The image moments [cv2.moments] returns, as far as the tracker reads
    them. *)
Record Moments := { m00 : Q; m10 : Q; m01 : Q }.

(** The value of [np.sqrt(n)] for an integer [n >= 0], or
    [float('inf')].  Square root is strictly increasing on the integers a
    pixel distance can take, so two distances compare as their squares
    do. *)
Inductive Distance :=
| Inf
| Sqrt (squared : Z).

(** [a < b]. *)
Definition dist_ltb (a b : Distance) : bool :=
  match a, b with
  | Sqrt x, Sqrt y => x <? y
  | Sqrt _, Inf => true
  | Inf, _ => false
  end.

(** [a < k] for an integer constant [k >= 0]. *)
Definition dist_lt_const (a : Distance) (k : Z) : bool :=
  match a with
  | Sqrt x => x <? k * k
  | Inf => false
  end.

Definition Point := (Z * Z)%type.

Section Contours.

Variable Contour : Type.

(** [cv2.moments(cnt)]. *)
Variable moments : Contour -> Moments.

(** [(int(M["m10"] / M["m00"]), int(M["m01"] / M["m00"]))]. *)
Definition centroid (cnt : Contour) : Point :=
  let M := moments cnt in
  (Py.int_of (m10 M / m00 M), Py.int_of (m01 M / m00 M)).

(** [M["m00"] == 0]. *)
Definition degenerate (cnt : Contour) : bool := Qeq_bool (m00 (moments cnt)) 0.

Definition squared_distance (p q : Point) : Z :=
  (fst p - fst q) * (fst p - fst q) + (snd p - snd q) * (snd p - snd q).

(** The loop state of [find_nearest_contour]. *)
Record Nearest := {
  nearest_contour : option Contour;
  min_distance : Distance;
  nearest_centroid : option Point
}.

Definition nearest_step (target_point : Point) (st : Nearest) (cnt : Contour)
    : Nearest :=
  if degenerate cnt then st
  else
    let c := centroid cnt in
    let distance := Sqrt (squared_distance c target_point) in
    if dist_ltb distance (min_distance st) then
      {| nearest_contour := Some cnt; min_distance := distance;
         nearest_centroid := Some c |}
    else st.

(** [find_nearest_contour], the same in both classes. *)
Definition find_nearest_contour (contours : list Contour)
    (target_point : Point) : Nearest :=
  match contours with
  | [] => {| nearest_contour := None; min_distance := Inf;
             nearest_centroid := None |}
  | _ =>
      fold_left (nearest_step target_point) contours
        {| nearest_contour := None; min_distance := Inf;
           nearest_centroid := None |}
  end.

(** [deque(maxlen=50).append]: the oldest entry is evicted when full. *)
Definition deque_append (maxlen : nat) (d : list Point) (p : Point)
    : list Point :=
  let d' := d ++ [p] in
  skipn (length d' - maxlen) d'.

(** The tracking fields of [VisualServoTracker]. *)
Record Track := {
  tracking_active : bool;
  target_position : option Point;
  target_history : list Point;
  selected_contour : option Contour;
  click_position : option Point;
  awaiting_selection : bool
}.

(** [VisualServoTracker.handle_click_selection]. *)
Definition handle_click_selection (t : Track) (contours : list Contour)
    : Track :=
  match awaiting_selection t, click_position t with
  | true, Some click =>
      let r := find_nearest_contour contours click in
      match nearest_contour r, nearest_centroid r with
      | Some cnt, Some c =>
          if dist_lt_const (min_distance r) 100 then
            {| tracking_active := true;
               target_position := Some c;
               target_history := deque_append 50 [] c;
               selected_contour := Some cnt;
               click_position := None;
               awaiting_selection := false |}
          else
            {| tracking_active := tracking_active t;
               target_position := target_position t;
               target_history := target_history t;
               selected_contour := selected_contour t;
               click_position := None;
               awaiting_selection := false |}
      | _, _ =>
          {| tracking_active := tracking_active t;
             target_position := target_position t;
             target_history := target_history t;
             selected_contour := selected_contour t;
             click_position := None;
             awaiting_selection := false |}
      end
  | _, _ => t
  end.

(** The tracking fields of [MicroscopeStitcher] used by
    [simple_tracking_loop], with the two motor fields its click
    selection resets. *)
Record SimpleTrack := {
  track : Track;
  last_motor_command_time : Q;
  motor_stop_sent : bool
}.

(** The "Handle click selection" block of [simple_tracking_loop]. *)
Definition click_selection (s : SimpleTrack) (valid_contours : list Contour)
    : SimpleTrack :=
  let t := track s in
  match awaiting_selection t, click_position t with
  | true, Some click =>
      let r := find_nearest_contour valid_contours click in
      match nearest_contour r, nearest_centroid r with
      | Some cnt, Some c =>
          if dist_lt_const (min_distance r) 100 then
            {| track :=
                 {| tracking_active := true;
                    target_position := Some c;
                    target_history := [c];
                    selected_contour := Some cnt;
                    click_position := None;
                    awaiting_selection := false |};
               last_motor_command_time := 0;
               motor_stop_sent := false |}
          else
            {| track :=
                 {| tracking_active := tracking_active t;
                    target_position := target_position t;
                    target_history := target_history t;
                    selected_contour := selected_contour t;
                    click_position := None;
                    awaiting_selection := false |};
               last_motor_command_time := last_motor_command_time s;
               motor_stop_sent := motor_stop_sent s |}
      | _, _ =>
          {| track :=
               {| tracking_active := tracking_active t;
                  target_position := target_position t;
                  target_history := target_history t;
                  selected_contour := selected_contour t;
                  click_position := None;
                  awaiting_selection := false |};
             last_motor_command_time := last_motor_command_time s;
             motor_stop_sent := motor_stop_sent s |}
      end
  | _, _ => s
  end.

End Contours.

Arguments nearest_contour {Contour} _.
Arguments min_distance {Contour} _.
Arguments nearest_centroid {Contour} _.
Arguments tracking_active {Contour} _.
Arguments target_position {Contour} _.
Arguments target_history {Contour} _.
Arguments selected_contour {Contour} _.
Arguments click_position {Contour} _.
Arguments awaiting_selection {Contour} _.
Arguments track {Contour} _.
Arguments last_motor_command_time {Contour} _.
Arguments motor_stop_sent {Contour} _.

End Tracker.

(** ** Images *)

Module Img.

(** A BGR pixel of [dtype=np.uint8]. *)
Definition Pixel := (N * N * N)%type.

(** An array of shape [(height, width, 3)]: [px r c] is the pixel at
    row [r], column [c]; only indices inside the shape are meaningful. *)
Record Image := { height : Z; width : Z; px : Z -> Z -> Pixel }.

Definition black : Pixel := (0%N, 0%N, 0%N).

(** [np.zeros((h, w, 3), dtype=np.uint8)]. *)
Definition zeros (h w : Z) : Image :=
  {| height := h; width := w; px := fun _ _ => black |}.

(** [a[y0:y1, x0:x1]]. *)
Definition region (a : Image) (y0 y1 x0 x1 : Z) : Image :=
  let '(r0, nr) := Py.slice (height a) y0 y1 in
  let '(c0, nc) := Py.slice (width a) x0 x1 in
  {| height := nr; width := nc; px := fun r c => px a (r0 + r) (c0 + c) |}.

(** An axis of length [n] broadcasts to length [m]. *)
Definition broadcastable (n m : Z) : bool := (n =? m) || (n =? 1).

(** [a[y0:y1, x0:x1] = v]; raises [ValueError] when the shape of [v]
    does not broadcast to the shape of the selected region. *)
Definition assign (a : Image) (y0 y1 x0 x1 : Z) (v : Image) : option Image :=
  let '(r0, nr) := Py.slice (height a) y0 y1 in
  let '(c0, nc) := Py.slice (width a) x0 x1 in
  if broadcastable (height v) nr && broadcastable (width v) nc then
    Some {| height := height a; width := width a;
            px := fun r c =>
              if (r0 <=? r) && (r <? r0 + nr) && (c0 <=? c) && (c <? c0 + nc)
              then px v (if height v =? nr then r - r0 else 0)
                        (if width v =? nc then c - c0 else 0)
              else px a r c |}
  else None.

(** Two arrays with the same shape and the same pixels. *)
Definition same (a b : Image) : Prop :=
  height a = height b /\ width a = width b /\
  forall r c, 0 <= r < height a -> 0 <= c < width a -> px a r c = px b r c.

End Img.

(** ** MosaicBuilder: blending *)

Module Blend.

Import Img.

(** [np.sum(region, axis=2)] at one pixel. *)
Definition channel_sum (p : Pixel) : N :=
  let '(b, g, r) := p in (b + g + r)%N.

(** [x.astype(np.uint8)] for a float [x >= 0]. *)
Definition astype_uint8 (x : Q) : N := Z.to_N (Py.int_of x mod 256).

Definition alpha : Q := 1 # 2.

(** [alpha * c + (1 - alpha) * n] on one channel. *)
Definition mix (c n : N) : Q :=
  (alpha * inject_Z (Z.of_N c) + (1 - alpha) * inject_Z (Z.of_N n))%Q.

Definition mix_pixel (c n : Pixel) : Pixel :=
  let '(cb, cg, cr) := c in
  let '(nb, ng, nr) := n in
  (astype_uint8 (mix cb nb), astype_uint8 (mix cg ng), astype_uint8 (mix cr nr)).

(** What [blend_regions] leaves at one position, given the pixel of
    [canvas_region] and the pixel of [new_region] there. *)
Definition blend_pixel (c n : Pixel) : Pixel :=
  let overlap_mask := (0 <? channel_sum c)%N && (0 <? channel_sum n)%N in
  let blended := c in
  let blended := if overlap_mask then mix_pixel c n else blended in
  let only_new_mask := (channel_sum c =? 0)%N && (0 <? channel_sum n)%N in
  if only_new_mask then n else blended.

(** [MicroscopeStitcher.blend_regions].  The masks are indexed into both
    arrays, which raises unless the two shapes are equal. *)
Definition blend_regions (canvas_region new_region : Image) : option Image :=
  if (height canvas_region =? height new_region) &&
     (width canvas_region =? width new_region)
  then
    Some {| height := height canvas_region; width := width canvas_region;
            px := fun r c =>
              blend_pixel (px canvas_region r c) (px new_region r c) |}
  else None.

(** The truncated mean of two channel values. *)
Definition average (c n : N) : N := ((c + n) / 2)%N.

Definition uint8 (p : Pixel) : Prop :=
  let '(b, g, r) := p in (b < 256 /\ g < 256 /\ r < 256)%N.

End Blend.

(** ** MosaicBuilder: placement *)

Module Mosaic.

Import Img.

(** [cv2.KeyPoint], as far as the stitcher reads it. *)
Record KeyPoint := { pt : Q * Q }.

(** [cv2.DMatch]. *)
Record DMatch := { queryIdx : Z; trainIdx : Z; distance : Q }.

(** [np.median(l)]: the middle of the sorted values, the mean of the two
    middle ones when there is an even number of them; [nan] (here
    [None], since [round(nan)] raises) for an empty list. *)
Definition median (l : list Q) : option Q :=
  let s := Py.sorted_by (fun q => q) l in
  let n := length l in
  if (n =? 0)%nat then None
  else if Nat.odd n then nth_error s (n / 2)
  else
    match nth_error s (n / 2 - 1), nth_error s (n / 2) with
    | Some a, Some b => Some ((a + b) / 2)%Q
    | _, _ => None
    end.

(** The crop rectangle and the state of its adjustment window. *)
Record Crop := {
  crop_top : Z; crop_bottom : Z; crop_left : Z; crop_right : Z;
  crop_width : Z; crop_height : Z;
  cam_width : option Z; cam_height : option Z;
  adjusting_crop : bool; dragging_rect : bool;
  drag_offset_x : Z; drag_offset_y : Z
}.

(** The crop fields as [__init__] leaves them. *)
Definition init_crop : Crop :=
  {| crop_top := 240; crop_bottom := 465; crop_left := 180; crop_right := 380;
     crop_width := 380 - 180; crop_height := 465 - 240;
     cam_width := None; cam_height := None;
     adjusting_crop := false; dragging_rect := false;
     drag_offset_x := 0; drag_offset_y := 0 |}.

(** [start_camera] followed by [open_crop_adjustment_window], for a
    camera whose test frame has shape [(cam_h, cam_w)]. *)
Definition start_camera (k : Crop) (cam_w cam_h : Z) : Crop :=
  {| crop_top := crop_top k; crop_bottom := crop_bottom k;
     crop_left := crop_left k; crop_right := crop_right k;
     crop_width := crop_width k; crop_height := crop_height k;
     cam_width := Some cam_w; cam_height := Some cam_h;
     adjusting_crop := true; dragging_rect := dragging_rect k;
     drag_offset_x := drag_offset_x k; drag_offset_y := drag_offset_y k |}.

(** [on_crop_canvas_click]. *)
Definition on_crop_canvas_click (k : Crop) (x y : Z) : Crop :=
  if negb (adjusting_crop k) then k
  else if (crop_left k <=? x) && (x <=? crop_right k) &&
          (crop_top k <=? y) && (y <=? crop_bottom k)
  then
    {| crop_top := crop_top k; crop_bottom := crop_bottom k;
       crop_left := crop_left k; crop_right := crop_right k;
       crop_width := crop_width k; crop_height := crop_height k;
       cam_width := cam_width k; cam_height := cam_height k;
       adjusting_crop := adjusting_crop k; dragging_rect := true;
       drag_offset_x := x - crop_left k; drag_offset_y := y - crop_top k |}
  else k.

(** [getattr(self, name, default)]. *)
Definition getattr (o : option Z) (default : Z) : Z :=
  match o with Some v => v | None => default end.

(** [on_crop_canvas_drag]. *)
Definition on_crop_canvas_drag (k : Crop) (x y : Z) : Crop :=
  if negb (adjusting_crop k) || negb (dragging_rect k) then k
  else
    let new_left := x - drag_offset_x k in
    let new_top := y - drag_offset_y k in
    let max_width := getattr (cam_width k) 1280 in
    let max_height := getattr (cam_height k) 720 in
    let new_left := Z.max 0 (Z.min new_left (max_width - crop_width k)) in
    let new_top := Z.max 0 (Z.min new_top (max_height - crop_height k)) in
    {| crop_top := new_top; crop_bottom := new_top + crop_height k;
       crop_left := new_left; crop_right := new_left + crop_width k;
       crop_width := crop_width k; crop_height := crop_height k;
       cam_width := cam_width k; cam_height := cam_height k;
       adjusting_crop := adjusting_crop k; dragging_rect := dragging_rect k;
       drag_offset_x := drag_offset_x k; drag_offset_y := drag_offset_y k |}.

(** [frame[crop_top:crop_bottom, crop_left:crop_right]] in
    [capture_frames]. *)
Definition crop_frame (k : Crop) (frame : Image) : Image :=
  region frame (crop_top k) (crop_bottom k) (crop_left k) (crop_right k).

Section Stitching.

(** The descriptor array ORB returns. *)
Variable Descriptors : Type.

(** [cv2.cvtColor] followed by [self.orb.detectAndCompute]: the
    keypoints and the descriptors ([None] inside when there are no
    keypoints), or an exception. *)
Variable detectAndCompute : Image -> option (list KeyPoint * option Descriptors).

(** [self.bf.match(query, train)], or an exception. *)
Variable bf_match : Descriptors -> Descriptors -> option (list DMatch).

(** The mosaic fields of [MicroscopeStitcher]. *)
Record Stitcher := {
  canvas_height : Z; canvas_width : Z;
  canvas : Image;
  pos_x : Z; pos_y : Z;
  first_frame_init : bool;
  kp_last : option (list KeyPoint);
  des_last : option Descriptors;
  pos_last : option (Z * Z)
}.

(** The mosaic fields as [__init__] leaves them. *)
Definition init : Stitcher :=
  let canvas_height := 1500 in
  let canvas_width := 1500 in
  {| canvas_height := canvas_height; canvas_width := canvas_width;
     canvas := zeros canvas_height canvas_width;
     pos_x := (canvas_width - (crop_right init_crop - crop_left init_crop)) / 2;
     pos_y := canvas_height / 2 - crop_bottom init_crop;
     first_frame_init := false;
     kp_last := None; des_last := None; pos_last := None |}.

(** [MicroscopeStitcher.reset_canvas]. *)
Definition reset_canvas (k : Crop) (s : Stitcher) : Stitcher :=
  {| canvas_height := canvas_height s; canvas_width := canvas_width s;
     canvas := zeros (canvas_height s) (canvas_width s);
     pos_x := (canvas_width s - (crop_right k - crop_left k)) / 2;
     pos_y := canvas_height s / 2 - crop_bottom k;
     first_frame_init := false;
     kp_last := None; des_last := None; pos_last := None |}.

(** The displacement of one match: previous keypoint minus current. *)
Definition offset (kp_curr : list KeyPoint) (kp_last : option (list KeyPoint))
    (m : DMatch) : option (Q * Q) :=
  do kc <- Py.index kp_curr (queryIdx m) ;;
  do kps <- kp_last ;;
  do kl <- Py.index kps (trainIdx m) ;;
  let pt_curr := pt kc in
  let pt_last := pt kl in
  Some ((fst pt_last - fst pt_curr)%Q, (snd pt_last - snd pt_curr)%Q).

(** The [for m in matches] loop building [offsets]. *)
Fixpoint offsets_of (kp_curr : list KeyPoint) (kp_last : option (list KeyPoint))
    (matches : list DMatch) : option (list (Q * Q)) :=
  match matches with
  | [] => Some []
  | m :: rest =>
      do o <- offset kp_curr kp_last m ;;
      do os <- offsets_of kp_curr kp_last rest ;;
      Some (o :: os)
  end.

(** [(dx, dy)] from the offsets. *)
Definition translation (offsets : list (Q * Q)) : option (Z * Z) :=
  do mx <- median (map fst offsets) ;;
  do my <- median (map snd offsets) ;;
  Some (Py.round mx, Py.round my).

(** [max(0, min(p, limit))]. *)
Definition clamp (p limit : Z) : Z := Z.max 0 (Z.min p limit).

(** The body of the [try] block of [stitch_frames] for one tile, up to
    the preview update. *)
Definition stitch_try (s : Stitcher) (frame_cropped : Image) : option Stitcher :=
  let height := height frame_cropped in
  let width := width frame_cropped in
  do (kp_curr, des_curr) <- detectAndCompute frame_cropped ;;
  if negb (first_frame_init s) then
    do canvas' <- assign (canvas s) (pos_y s) (pos_y s + height)
                    (pos_x s) (pos_x s + width) frame_cropped ;;
    Some {| canvas_height := canvas_height s; canvas_width := canvas_width s;
            canvas := canvas';
            pos_x := pos_x s; pos_y := pos_y s;
            first_frame_init := true;
            kp_last := Some kp_curr; des_last := des_curr;
            pos_last := Some (pos_x s, pos_y s) |}
  else
    match des_last s, des_curr with
    | Some dl, Some dc =>
        do matches <- bf_match dc dl ;;
        let matches := Py.sorted_by distance matches in
        if (10 <=? length matches)%nat then
          do offsets <- offsets_of kp_curr (kp_last s) matches ;;
          do (dx, dy) <- translation offsets ;;
          do (last_x, last_y) <- pos_last s ;;
          let pos_x_new := last_x + dx in
          let pos_y_new := last_y + dy in
          let pos_x_new := clamp pos_x_new (canvas_width s - width) in
          let pos_y_new := clamp pos_y_new (canvas_height s - height) in
          let canvas_region :=
            region (canvas s) pos_y_new (pos_y_new + height)
              pos_x_new (pos_x_new + width) in
          do blended_region <- Blend.blend_regions canvas_region frame_cropped ;;
          do canvas' <- assign (canvas s) pos_y_new (pos_y_new + height)
                          pos_x_new (pos_x_new + width) blended_region ;;
          Some {| canvas_height := canvas_height s;
                  canvas_width := canvas_width s;
                  canvas := canvas';
                  pos_x := pos_x s; pos_y := pos_y s;
                  first_frame_init := first_frame_init s;
                  kp_last := Some kp_curr; des_last := des_curr;
                  pos_last := Some (pos_x_new, pos_y_new) |}
        else Some s
    | _, _ => Some s
    end.

(** One iteration of [stitch_frames] on a dequeued tile: the [try]
    block, and the handler that reports and carries on. *)
Definition stitch_one (s : Stitcher) (frame_cropped : Image) : Stitcher :=
  match stitch_try s frame_cropped with
  | Some s' => s'
  | None => s
  end.

(** The stored placement keeps a [h] by [w] tile on the canvas. *)
Definition on_canvas (s : Stitcher) (h w : Z) (p : Z * Z) : Prop :=
  0 <= fst p <= canvas_width s - w /\ 0 <= snd p <= canvas_height s - h.

End Stitching.

Arguments canvas_height {Descriptors} _.
Arguments canvas_width {Descriptors} _.
Arguments canvas {Descriptors} _.
Arguments pos_x {Descriptors} _.
Arguments pos_y {Descriptors} _.
Arguments first_frame_init {Descriptors} _.
Arguments kp_last {Descriptors} _.
Arguments des_last {Descriptors} _.
Arguments pos_last {Descriptors} _.
Arguments on_canvas {Descriptors} _ _ _ _.

End Mosaic.

(** ** Tracking controller of [main_control.py] *)

Module Control.

Local Open Scope string_scope.
Local Open Scope Z_scope.

(** [self.DEADZONE = 50] and [self.AXIS_THRESHOLD = 30], in pixels. *)
Definition DEADZONE : Z := 50.
Definition AXIS_THRESHOLD : Z := 30.

(** [MicroscopeStitcher.compute_motor_direction]. *)
Definition compute_motor_direction (frame_center_x frame_center_y : option Z)
    (cx cy : Z) : string * string :=
  match frame_center_x, frame_center_y with
  | Some center_x, Some center_y =>
      let error_x := cx - center_x in
      let error_y := cy - center_y in
      if (Z.abs error_x <? DEADZONE) && (Z.abs error_y <? DEADZONE) then
        ("S", "S")
      else
        let y_cmd := "S" in
        let x_cmd := "S" in
        let y_cmd :=
          if AXIS_THRESHOLD <? Z.abs error_y
          then (if 0 <? error_y then "D" else "U")
          else y_cmd in
        let x_cmd :=
          if AXIS_THRESHOLD <? Z.abs error_x
          then (if 0 <? error_x then "R" else "L")
          else x_cmd in
        (y_cmd, x_cmd)
  | _, _ => ("S", "S")
  end.

(** The motor integration point of [simple_tracking_loop], reached on
    every frame with a valid track: compute the direction for the
    centroid and hand it to [send_motor_command_simple]. *)
Definition center_on (auto_centering_enabled : bool)
    (frame_center_x frame_center_y : option Z) (s : Servo.Stage)
    (centroid : Z * Z) (now : Q) (io : Servo.LinkBehaviour) : Servo.Stage :=
  if auto_centering_enabled && Servo.arduino_connected s then
    let '(cx, cy) := centroid in
    let '(y_cmd, x_cmd) :=
      compute_motor_direction frame_center_x frame_center_y cx cy in
    fst (Servo.send_motor_command_simple s y_cmd x_cmd now io)
  else s.

(** The run flags [stop_stitching] clears. *)
Record Flags := {
  stitching_active : bool; is_stitching : bool; auto_scan_active : bool
}.

(** [MicroscopeStitcher.stop_stitching], up to the thread join and the
    button states. *)
Definition stop_stitching (f : Flags) (s : Servo.Stage)
    (io : Servo.LinkBehaviour) : Flags * Servo.Stage :=
  let s :=
    if Servo.arduino_connected s && Py.truthy (Servo.arduino s)
    then fst (Servo.send_step s "S" "S" io)
    else s in
  ({| stitching_active := false; is_stitching := false;
      auto_scan_active := false |},
   Servo.with_status s "Stitching stopped - result ready").

(** [MicroscopeStitcher.send_arduino_command]: the [command_map]
    lookup, then [send_step]. *)
Definition command_map (command : string) : option (string * string) :=
  if String.eqb command "UP" then Some ("U", "S")
  else if String.eqb command "DOWN" then Some ("D", "S")
  else if String.eqb command "LEFT" then Some ("S", "L")
  else if String.eqb command "RIGHT" then Some ("S", "R")
  else if String.eqb command "STOP" then Some ("S", "S")
  else None.

Definition send_arduino_command (s : Servo.Stage) (command : string)
    (io : Servo.LinkBehaviour) : Servo.Stage * bool :=
  match command_map command with
  | Some (y_cmd, x_cmd) => Servo.send_step s y_cmd x_cmd io
  | None => (s, false)
  end.

End Control.

(** ** Motor control of [VisualServoTracker] *)

Module ServoTracker.

Local Open Scope string_scope.
Local Open Scope list_scope.
Local Open Scope Z_scope.

(** The calibration constants [__init__] sets.  [MIN_COMMAND_INTERVAL]
    is the double nearest to [0.2]. *)
Definition PIXELS_PER_STEP_X : Q := 2.
Definition PIXELS_PER_STEP_Y : Q := 2.
Definition DEADZONE_PIXELS : Z := 10.
Definition MAX_STEPS_PER_COMMAND : Z := 5.
Definition MIN_COMMAND_INTERVAL : Q :=
  3602879701896397 # 18014398509481984.

(** The motor-control fields of [VisualServoTracker].  The controller
    is the [MicroscopeStitcher] the tracker was built with; its stage
    fields are kept here. *)
Record Motor := {
  motor_controller : option Servo.Stage;
  auto_tracking_enabled : bool;
  CENTER_X : option Z;
  CENTER_Y : option Z;
  last_command_time : Q;
  commands_sent : Z;
  tracking_errors : list (Z * Z)
}.

Definition with_errors (m : Motor) (errors : list (Z * Z)) : Motor :=
  {| motor_controller := motor_controller m;
     auto_tracking_enabled := auto_tracking_enabled m;
     CENTER_X := CENTER_X m; CENTER_Y := CENTER_Y m;
     last_command_time := last_command_time m;
     commands_sent := commands_sent m;
     tracking_errors := errors |}.

Definition with_controller (m : Motor) (stage : Servo.Stage) : Motor :=
  {| motor_controller := Some stage;
     auto_tracking_enabled := auto_tracking_enabled m;
     CENTER_X := CENTER_X m; CENTER_Y := CENTER_Y m;
     last_command_time := last_command_time m;
     commands_sent := commands_sent m;
     tracking_errors := tracking_errors m |}.

Definition with_command (m : Motor) (stage : Servo.Stage) (t : Q) : Motor :=
  {| motor_controller := Some stage;
     auto_tracking_enabled := auto_tracking_enabled m;
     CENTER_X := CENTER_X m; CENTER_Y := CENTER_Y m;
     last_command_time := t;
     commands_sent := commands_sent m + 1;
     tracking_errors := tracking_errors m |}.

(** [set_frame_dimensions]. *)
Definition set_frame_dimensions (m : Motor) (width height : Z) : Motor :=
  {| motor_controller := motor_controller m;
     auto_tracking_enabled := auto_tracking_enabled m;
     CENTER_X := Some (width / 2); CENTER_Y := Some (height / 2);
     last_command_time := last_command_time m;
     commands_sent := commands_sent m;
     tracking_errors := tracking_errors m |}.

(** [max(-limit, min(steps, limit))]. *)
Definition clamp_steps (steps limit : Z) : Z :=
  Z.max (- limit) (Z.min steps limit).

(** [VisualServoTracker.compute_motor_steps]: the tracker with its
    error log updated, and [(steps_x, steps_y)]. *)
Definition compute_motor_steps (m : Motor) (cx cy : Z) : Motor * (Z * Z) :=
  match CENTER_X m, CENTER_Y m with
  | Some center_x, Some center_y =>
      let error_x := cx - center_x in
      let error_y := cy - center_y in
      let error_x := if Z.abs error_x <? DEADZONE_PIXELS then 0 else error_x in
      let error_y := if Z.abs error_y <? DEADZONE_PIXELS then 0 else error_y in
      let steps_x := Py.int_of (inject_Z error_x / PIXELS_PER_STEP_X) in
      let steps_y := Py.int_of (inject_Z error_y / PIXELS_PER_STEP_Y) in
      let steps_x := clamp_steps steps_x MAX_STEPS_PER_COMMAND in
      let steps_y := clamp_steps steps_y MAX_STEPS_PER_COMMAND in
      let errors := tracking_errors m in
      let errors := if (100 <? length errors)%nat then tl errors else errors in
      let errors := errors ++ [(error_x, error_y)] in
      (with_errors m errors, (steps_x, steps_y))
  | _, _ => (m, (0, 0))
  end.

(** The direction letters [send_motor_command] derives from the steps. *)
Definition direction_of_steps (steps_x steps_y : Z) : string * string :=
  let y_cmd := "S" in
  let x_cmd := "S" in
  let y_cmd :=
    if 0 <? steps_y then "U" else if steps_y <? 0 then "D" else y_cmd in
  let x_cmd :=
    if 0 <? steps_x then "R" else if steps_x <? 0 then "L" else x_cmd in
  (y_cmd, x_cmd).

(** [VisualServoTracker.send_motor_command]; [now] is what
    [time.time()] returns. *)
Definition send_motor_command (m : Motor) (steps_x steps_y : Z) (now : Q)
    (io : Servo.LinkBehaviour) : Motor * bool :=
  match motor_controller m with
  | None => (m, false)
  | Some stage =>
      let current_time := now in
      if negb (Qle_bool MIN_COMMAND_INTERVAL
                 (current_time - last_command_time m))
      then (m, false)
      else
        let '(y_cmd, x_cmd) := direction_of_steps steps_x steps_y in
        if negb (String.eqb y_cmd "S") || negb (String.eqb x_cmd "S") then
          let '(stage', success) := Servo.send_step stage y_cmd x_cmd io in
          if success then (with_command m stage' current_time, true)
          else (with_controller m stage', false)
        else (m, true)
  end.

(** One pass of [_motor_control_loop], for the track the tracker holds. *)
Definition motor_control_pass (tracking_active : bool)
    (target_position : option (Z * Z)) (m : Motor) (now : Q)
    (io : Servo.LinkBehaviour) : Motor :=
  match target_position with
  | Some (cx, cy) =>
      if tracking_active && auto_tracking_enabled m then
        let '(m, (steps_x, steps_y)) := compute_motor_steps m cx cy in
        if negb (steps_x =? 0) || negb (steps_y =? 0)
        then fst (send_motor_command m steps_x steps_y now io)
        else m
      else m
  | None => m
  end.

End ServoTracker.

(** ** Per-frame tracking update *)

Module Tracking.

Import Tracker.

Local Open Scope Z_scope.

(** [self.SEARCH_RADIUS = 150] and [self.MAX_JUMP_DISTANCE = 100]. *)
Definition SEARCH_RADIUS : Z := 150.
Definition MAX_JUMP_DISTANCE : Z := 100.

(** [a <= k] for an integer constant [k >= 0]. *)
Definition dist_le_const (a : Distance) (k : Z) : bool :=
  match a with
  | Sqrt x => x <=? k * k
  | Inf => false
  end.

Section Contours.

Variable Contour : Type.
Variable moments : Contour -> Moments.

(** The test the loop of [filter_contours_near_target] applies. *)
Definition near_target (target_position : Point) (cnt : Contour) : bool :=
  if degenerate Contour moments cnt then false
  else
    let c := centroid Contour moments cnt in
    let distance := Sqrt (squared_distance c target_position) in
    dist_le_const distance SEARCH_RADIUS.

(** [VisualServoTracker.filter_contours_near_target]. *)
Definition filter_contours_near_target (contours : list Contour)
    (target_position : option Point) : list Contour :=
  match target_position with
  | None => contours
  | Some target =>
      fold_left
        (fun filtered cnt =>
           if near_target target cnt then filtered ++ [cnt] else filtered)
        contours []
  end.

(** [VisualServoTracker.update_tracking]: the tracker afterwards and the
    contour returned. *)
Definition update_tracking (t : Track Contour) (contours : list Contour)
    : Track Contour * option Contour :=
  match tracking_active t, target_position t with
  | true, Some target =>
      let nearby_contours :=
        filter_contours_near_target contours (target_position t) in
      match nearby_contours with
      | [] => (t, None)
      | _ =>
          let r := find_nearest_contour Contour moments nearby_contours target in
          match nearest_contour r, nearest_centroid r with
          | Some nearest_cnt, Some c =>
              ({| tracking_active := tracking_active t;
                  target_position := Some c;
                  target_history := deque_append 50 (target_history t) c;
                  selected_contour := Some nearest_cnt;
                  click_position := click_position t;
                  awaiting_selection := awaiting_selection t |},
               Some nearest_cnt)
          | _, _ => (t, None)
          end
      end
  | _, _ => (t, None)
  end.

(** [VisualServoTracker.reset_tracking], on the tracking fields. *)
Definition reset_tracking (t : Track Contour) : Track Contour :=
  {| tracking_active := false;
     target_position := None;
     target_history := [];
     selected_contour := None;
     click_position := click_position t;
     awaiting_selection := awaiting_selection t |}.

(** The tracking fields of [MicroscopeStitcher] together with the stage
    and the motor flags the "Update tracking" block of
    [simple_tracking_loop] uses. *)
Record Loop := {
  trk : Track Contour;
  stage : Servo.Stage;
  auto_centering_enabled : bool;
  frame_center_x : option Z;
  frame_center_y : option Z;
  motor_stop_sent : bool
}.

(** [self.target_history.append(c)], then
    [if len(self.target_history) > 50: self.target_history.pop(0)]. *)
Definition append_and_trim (history : list Point) (c : Point) : list Point :=
  let history := history ++ [c] in
  if (50 <? length history)%nat then tl history else history.

(** The [else] branch of the block: tracking is lost, and the motors
    are stopped unless a STOP has gone out already. *)
Definition lose_track (l : Loop) (now : Q) (io : Servo.LinkBehaviour) : Loop :=
  let t := trk l in
  let lost :=
    {| tracking_active := false;
       target_position := target_position t;
       target_history := target_history t;
       selected_contour := selected_contour t;
       click_position := click_position t;
       awaiting_selection := awaiting_selection t |} in
  if auto_centering_enabled l && Servo.arduino_connected (stage l)
     && negb (motor_stop_sent l)
  then
    {| trk := lost;
       stage := fst (Servo.send_motor_command_simple (stage l) "S" "S" now io);
       auto_centering_enabled := auto_centering_enabled l;
       frame_center_x := frame_center_x l;
       frame_center_y := frame_center_y l;
       motor_stop_sent := true |}
  else
    {| trk := lost; stage := stage l;
       auto_centering_enabled := auto_centering_enabled l;
       frame_center_x := frame_center_x l;
       frame_center_y := frame_center_y l;
       motor_stop_sent := motor_stop_sent l |}.

(** The "Update tracking" block of [simple_tracking_loop] for one frame. *)
Definition update_block (l : Loop) (valid_contours : list Contour) (now : Q)
    (io : Servo.LinkBehaviour) : Loop :=
  let t := trk l in
  match tracking_active t, target_position t with
  | true, Some target =>
      let r := find_nearest_contour Contour moments valid_contours target in
      match nearest_contour r, nearest_centroid r with
      | Some nearest_cnt, Some c =>
          if dist_lt_const (min_distance r) MAX_JUMP_DISTANCE then
            {| trk :=
                 {| tracking_active := tracking_active t;
                    target_position := Some c;
                    target_history := append_and_trim (target_history t) c;
                    selected_contour := Some nearest_cnt;
                    click_position := click_position t;
                    awaiting_selection := awaiting_selection t |};
               stage :=
                 Control.center_on (auto_centering_enabled l)
                   (frame_center_x l) (frame_center_y l) (stage l) c now io;
               auto_centering_enabled := auto_centering_enabled l;
               frame_center_x := frame_center_x l;
               frame_center_y := frame_center_y l;
               motor_stop_sent := false |}
          else lose_track l now io
      | _, _ => lose_track l now io
      end
  | _, _ => l
  end.

End Contours.

Arguments trk {Contour} _.
Arguments stage {Contour} _.
Arguments auto_centering_enabled {Contour} _.
Arguments frame_center_x {Contour} _.
Arguments frame_center_y {Contour} _.
Arguments motor_stop_sent {Contour} _.

End Tracking.

(** ** Crop adjustment events and runs of tiles *)

Module Session.

Import Img Mosaic.

Local Open Scope Z_scope.

(** [on_crop_canvas_release]. *)
Definition on_crop_canvas_release (k : Crop) : Crop :=
  {| crop_top := crop_top k; crop_bottom := crop_bottom k;
     crop_left := crop_left k; crop_right := crop_right k;
     crop_width := crop_width k; crop_height := crop_height k;
     cam_width := cam_width k; cam_height := cam_height k;
     adjusting_crop := adjusting_crop k; dragging_rect := false;
     drag_offset_x := drag_offset_x k; drag_offset_y := drag_offset_y k |}.

(** The mouse events bound to the crop canvas. *)
Inductive MouseEvent :=
| ButtonPress (x y : Z)
| Motion (x y : Z)
| ButtonRelease.

Definition on_mouse (k : Crop) (e : MouseEvent) : Crop :=
  match e with
  | ButtonPress x y => on_crop_canvas_click k x y
  | Motion x y => on_crop_canvas_drag k x y
  | ButtonRelease => on_crop_canvas_release k
  end.

Definition adjust (k : Crop) (events : list MouseEvent) : Crop :=
  fold_left on_mouse events k.

(** The tiles the stitching thread takes from its queue, one after the
    other. *)
Definition stitch_all {Descriptors : Type}
    (detectAndCompute : Image -> option (list KeyPoint * option Descriptors))
    (bf_match : Descriptors -> Descriptors -> option (list DMatch))
    (s : Stitcher Descriptors) (tiles : list Image) : Stitcher Descriptors :=
  fold_left (stitch_one Descriptors detectAndCompute bf_match) tiles s.

End Session.

(** ** Scan execution *)

Module Executor.

Import Img.

Local Open Scope string_scope.
Local Open Scope list_scope.
Local Open Scope Z_scope.

(** [s.zfill(width)] for a string of digits. *)
Definition zfill (width : nat) (s : string) : string :=
  (String.concat "" (repeat "0" (width - String.length s)) ++ s)%string.

(** [f"{n:04d}"]: zero-padded to four characters, sign included. *)
Definition format_04d (n : Z) : string :=
  if n <? 0 then ("-" ++ zfill 3 (Py.str_of_int (- n)))%string
  else zfill 4 (Py.str_of_int n).

(** The fields of [MicroscopeStitcher] the scan thread reads or writes.
    [saved] lists the files [cv2.imwrite] has been given;
    [stop_scheduled] records the [root.after(1000, self.stop_stitching)]
    request. *)
Record Scanner := {
  stage : Servo.Stage;
  crop : Mosaic.Crop;
  rows_to_scan : Z;
  steps_per_row : Z;
  scan_pattern : list Scan.Move;
  current_step : Z;
  auto_scan_active : bool;
  save_directory : string;
  image_counter : Z;
  saved : list (string * Image);
  stop_scheduled : bool
}.

(** What the scan thread meets while it runs: the frame each
    [camera.read()] returns ([None] when [ret] is false), numbered from
    the initial capture; whether [cv2.imwrite] raises; what the link
    does on each move; and the value of [auto_scan_active], which other
    threads may clear, each time the loop tests it and at the final
    test. *)
Record Env := {
  camera_read : nat -> option Image;
  imwrite_raises : string -> Image -> bool;
  link_at : nat -> Servo.LinkBehaviour;
  active_at : nat -> bool;
  active_at_end : bool
}.

(** The method returned, or an exception left it; either way with the
    object in the state reached. *)
Inductive Outcome :=
| Returned (st : Scanner)
| Raised (st : Scanner).

Definition state_of (o : Outcome) : Scanner :=
  match o with Returned st => st | Raised st => st end.

Definition and_then (o : Outcome) (k : Scanner -> Outcome) : Outcome :=
  match o with Returned st => k st | Raised st => Raised st end.

Definition with_stage (st : Scanner) (s : Servo.Stage) : Scanner :=
  {| stage := s; crop := crop st;
     rows_to_scan := rows_to_scan st; steps_per_row := steps_per_row st;
     scan_pattern := scan_pattern st; current_step := current_step st;
     auto_scan_active := auto_scan_active st;
     save_directory := save_directory st;
     image_counter := image_counter st; saved := saved st;
     stop_scheduled := stop_scheduled st |}.

Definition set_status (st : Scanner) (msg : string) : Scanner :=
  with_stage st (Servo.with_status (stage st) msg).

Definition with_current_step (st : Scanner) (n : Z) : Scanner :=
  {| stage := stage st; crop := crop st;
     rows_to_scan := rows_to_scan st; steps_per_row := steps_per_row st;
     scan_pattern := scan_pattern st; current_step := n;
     auto_scan_active := auto_scan_active st;
     save_directory := save_directory st;
     image_counter := image_counter st; saved := saved st;
     stop_scheduled := stop_scheduled st |}.

Definition frame_name (directory : string) (counter : Z) : string :=
  (directory ++ "/frame_" ++ format_04d counter ++ ".png")%string.

(** [MicroscopeStitcher.save_current_frame]. *)
Definition save_current_frame (env : Env) (st : Scanner) (frame : Image)
    : Outcome :=
  let filename := frame_name (save_directory st) (image_counter st) in
  if imwrite_raises env filename frame then Raised st
  else
    Returned
      {| stage := stage st; crop := crop st;
         rows_to_scan := rows_to_scan st; steps_per_row := steps_per_row st;
         scan_pattern := scan_pattern st; current_step := current_step st;
         auto_scan_active := auto_scan_active st;
         save_directory := save_directory st;
         image_counter := image_counter st + 1;
         saved := saved st ++ [(filename, frame)];
         stop_scheduled := stop_scheduled st |}.

(** [ret, frame = self.camera.read()], then crop and save if [ret]. *)
Definition capture (env : Env) (n : nat) (st : Scanner) : Outcome :=
  match camera_read env n with
  | Some frame =>
      save_current_frame env st (Mosaic.crop_frame (crop st) frame)
  | None => Returned st
  end.

Definition progress_text (current_step total_steps : Z) : string :=
  ("Auto scan: Step " ++ Py.str_of_int current_step ++ "/" ++
   Py.str_of_int total_steps ++ " - " ++
   Py.str_of_int (total_steps - current_step) ++ " moves remaining")%string.

(** The [for i, (y_cmd, x_cmd) in enumerate(self.scan_pattern)] loop,
    from move [i] on. *)
Fixpoint scan_loop (env : Env) (total_steps : Z) (moves : list Scan.Move)
    (i : nat) (st : Scanner) : Outcome :=
  match moves with
  | [] => Returned st
  | (y_cmd, x_cmd) :: rest =>
      if negb (active_at env i) then Returned st
      else
        let (stage', sent) :=
          Servo.send_step (stage st) y_cmd x_cmd (link_at env i) in
        let st := with_stage st stage' in
        if sent then
          let st := with_current_step st (Z.of_nat i + 1) in
          let st :=
            set_status st (progress_text (current_step st) total_steps) in
          and_then (capture env (S i) st)
            (scan_loop env total_steps rest (S i))
        else
          Returned
            (set_status st "Auto scan failed - Arduino communication error")
  end.

(** The end of [lawnmower_scan], after the loop. *)
Definition finish (env : Env) (st : Scanner) : Scanner :=
  let st :=
    if active_at_end env then
      let st := set_status st "Auto scan complete - stopping stitching" in
      {| stage := stage st; crop := crop st;
         rows_to_scan := rows_to_scan st; steps_per_row := steps_per_row st;
         scan_pattern := scan_pattern st; current_step := current_step st;
         auto_scan_active := auto_scan_active st;
         save_directory := save_directory st;
         image_counter := image_counter st; saved := saved st;
         stop_scheduled := true |}
    else st in
  {| stage := stage st; crop := crop st;
     rows_to_scan := rows_to_scan st; steps_per_row := steps_per_row st;
     scan_pattern := scan_pattern st; current_step := current_step st;
     auto_scan_active := false;
     save_directory := save_directory st;
     image_counter := image_counter st; saved := saved st;
     stop_scheduled := stop_scheduled st |}.

(** The start of [lawnmower_scan], up to the first [camera.read()]. *)
Definition prepare (st : Scanner) : Scanner :=
  let pattern :=
    Scan.generate_lawnmower_pattern (rows_to_scan st) (steps_per_row st) in
  let st :=
    {| stage := stage st; crop := crop st;
       rows_to_scan := rows_to_scan st; steps_per_row := steps_per_row st;
       scan_pattern := pattern; current_step := 0;
       auto_scan_active := auto_scan_active st;
       save_directory := save_directory st;
       image_counter := image_counter st; saved := saved st;
       stop_scheduled := stop_scheduled st |} in
  let total_steps := Z.of_nat (length (scan_pattern st)) in
  set_status st
    ("Starting auto scan: " ++ Py.str_of_int total_steps ++ " moves planned")%string.

(** [MicroscopeStitcher.lawnmower_scan]. *)
Definition lawnmower_scan (env : Env) (st : Scanner) : Outcome :=
  let st := prepare st in
  let total_steps := Z.of_nat (length (scan_pattern st)) in
  and_then (capture env 0 st) (fun st =>
  and_then (scan_loop env total_steps (scan_pattern st) 0 st) (fun st =>
  Returned (finish env st))).

(** The checks [start_auto_scan] makes before it starts the stitching
    and scan threads; [proceed] is the answer to the [askyesno] prompt,
    which is shown only for a homed stage away from the origin. *)
Inductive Start :=
| Refused (status : string)
| Started.

Definition start_auto_scan (s : Servo.Stage) (proceed : bool) : Start :=
  if negb (Servo.arduino_connected s) then
    Refused "Arduino not connected - connect Arduino first"
  else if Servo.set s &&
          (negb (Servo.abs_x s =? 0) || negb (Servo.abs_y s =? 0)) then
    if negb proceed then Refused "Auto-scan cancelled - return to home first"
    else Started
  else Started.

(** The ledger position of a scanner. *)
Definition ledger (st : Scanner) : Z * Z :=
  (Servo.abs_x (stage st), Servo.abs_y (stage st)).

(** The ledger after one move that goes through, and after several. *)
Definition moved (p : Z * Z) (m : Scan.Move) : Z * Z :=
  (Servo.prospective_x (fst p) (snd m), Servo.prospective_y (snd p) (fst m)).

Definition displaced (p : Z * Z) (moves : list Scan.Move) : Z * Z :=
  fold_left moved moves p.

(** Every move of the plan, made from [p] on, keeps a homed ledger at
    or above zero on both axes. *)
Fixpoint within_bounds (homed : bool) (p : Z * Z) (moves : list Scan.Move)
    : Prop :=
  match moves with
  | [] => True
  | m :: rest =>
      (homed = true -> 0 <= fst (moved p m) /\ 0 <= snd (moved p m)) /\
      within_bounds homed (moved p m) rest
  end.

End Executor.

(** ** Keyboard control *)

Module Keys.

Import Servo.

Local Open Scope string_scope.
Local Open Scope list_scope.
Local Open Scope Z_scope.

(** What [on_key_press] did: handed the key to one of the two tracking
    hotkeys ([called] tells whether tracking mode was on, so that the
    hotkey's method ran), or went through the arrow-key code and left
    the stage in state [s]. *)
Inductive Outcome :=
| ToggleHotkey (called : bool)
| ResetHotkey (called : bool)
| Handled (s : Stage).

(** [MicroscopeStitcher.on_key_press]. *)
Definition on_key_press (tracking_mode_active : bool) (s : Stage)
    (keysym : string) (io : LinkBehaviour) : Outcome :=
  if String.eqb keysym "t" || String.eqb keysym "T" then
    ToggleHotkey tracking_mode_active
  else if String.eqb keysym "r" || String.eqb keysym "R" then
    ResetHotkey tracking_mode_active
  else if negb (arduino_connected s) then
    Handled
      (with_status s "Arduino not connected - connect first to use arrow keys")
  else
    let pressed :=
      if String.eqb keysym "Up" then Some ("U", "S")
      else if String.eqb keysym "Down" then Some ("D", "S")
      else if String.eqb keysym "Right" then Some ("S", "R")
      else if String.eqb keysym "Left" then Some ("S", "L")
      else None in
    match pressed with
    | None => Handled s
    | Some (y_cmd, x_cmd) =>
        let (s', sent) := send_step s y_cmd x_cmd io in
        if sent then
          Handled (with_status s' ("Sent step command: " ++ y_cmd ++ x_cmd))
        else Handled s'
    end.

(** The stage after a run of key presses, none of them a hotkey. *)
Fixpoint press_all (tracking_mode_active : bool) (s : Stage)
    (keys : list (string * LinkBehaviour)) : Stage :=
  match keys with
  | [] => s
  | (keysym, io) :: rest =>
      match on_key_press tracking_mode_active s keysym io with
      | Handled s' => press_all tracking_mode_active s' rest
      | _ => press_all tracking_mode_active s rest
      end
  end.

(** The arrow key that undoes an arrow key. *)
Definition opposite (keysym : string) : string :=
  if String.eqb keysym "Up" then "Down"
  else if String.eqb keysym "Down" then "Up"
  else if String.eqb keysym "Left" then "Right"
  else if String.eqb keysym "Right" then "Left"
  else keysym.

End Keys.

(** * Properties *)

(** ** Counting the elements that pass a test *)

Module Counting.

Definition count {A} (f : A -> bool) (l : list A) : nat :=
  length (filter f l).

Lemma count_cons {A} (f : A -> bool) (x : A) (l : list A) :
  count f (x :: l) = ((if f x then 1 else 0) + count f l)%nat.
Proof. unfold count. cbn. destruct (f x); reflexivity. Qed.

Lemma count_app {A} (f : A -> bool) (l1 l2 : list A) :
  count f (l1 ++ l2) = (count f l1 + count f l2)%nat.
Proof. unfold count. now rewrite filter_app, length_app. Qed.

Lemma count_le_length {A} (f : A -> bool) (l : list A) :
  (count f l <= length l)%nat.
Proof. apply filter_length_le. Qed.

Lemma count_all {A} (f : A -> bool) (l : list A) :
  Forall (fun x => f x = true) l -> count f l = length l.
Proof.
  induction 1 as [| x l Hx _ IH]; [reflexivity |].
  rewrite count_cons, Hx, IH. reflexivity.
Qed.

Lemma count_none {A} (f : A -> bool) (l : list A) :
  Forall (fun x => f x = false) l -> count f l = 0%nat.
Proof.
  induction 1 as [| x l Hx _ IH]; [reflexivity |].
  rewrite count_cons, Hx, IH. reflexivity.
Qed.

Lemma count_repeat {A} (f : A -> bool) (m : A) (n : nat) :
  count f (repeat m n) = if f m then n else 0%nat.
Proof.
  induction n as [| n IH]; cbn [repeat].
  - now destruct (f m).
  - rewrite count_cons, IH. destruct (f m); reflexivity.
Qed.

Lemma count_map_le {A B} (f : A -> bool) (g : B -> bool) (h : A -> B)
    (l : list A) :
  (forall x, f x = true -> g (h x) = true) ->
  (count f l <= count g (map h l))%nat.
Proof.
  intros Himp. induction l as [| x l IH]; cbn [map]; [cbn; lia |].
  rewrite !count_cons. specialize (Himp x).
  destruct (f x); [rewrite Himp by reflexivity; lia |].
  destruct (g (h x)); lia.
Qed.

End Counting.

(** ** ServoController *)

Module ServoFacts.

Import Servo.

Local Open Scope string_scope.
Local Open Scope list_scope.
Local Open Scope Z_scope.

(** A stage with an open link, at rest at the origin, not homed. *)
Definition connected_stage : Stage :=
  {| arduino := Some {| written := [] |}; arduino_connected := true;
     set := false; abs_x := 0; abs_y := 0;
     status_var := ""; pos_label := "";
     last_motor_command_time := 0 |}.

(** Every call of [send_step] either fails and leaves the ledger, the
    home flag and the connection as they were, or completes the exchange
    and commits the prospective position. *)
Lemma send_step_cases (s : Stage) (y x : string) (io : LinkBehaviour) :
  let r := send_step s y x io in
  (snd r = false /\ abs_x (fst r) = abs_x s /\ abs_y (fst r) = abs_y s /\
   set (fst r) = set s /\ arduino_connected (fst r) = arduino_connected s /\
   (io <> LinkOk -> Py.truthy (arduino (fst r)) = Py.truthy (arduino s)))
  \/
  (io = LinkOk /\ snd r = true /\
   wire (fst r) = wire s ++ [command_line y x] /\
   abs_x (fst r) = prospective_x (abs_x s) x /\
   abs_y (fst r) = prospective_y (abs_y s) y /\
   set (fst r) = set s /\ arduino_connected (fst r) = true /\
   Py.truthy (arduino (fst r)) = true /\
   (set s = true ->
    0 <= prospective_x (abs_x s) x /\ 0 <= prospective_y (abs_y s) y)).
Proof.
  unfold send_step.
  destruct (arduino_connected s) eqn:Hc; [| left; cbn; intuition].
  destruct (arduino s) as [p |] eqn:Hp; [| left; cbn; rewrite ?Hp; intuition].
  destruct (set s && (prospective_x (abs_x s) x <? 0)) eqn:Hx;
    [left; cbn; rewrite ?Hp; intuition |].
  destruct (set s && (prospective_y (abs_y s) y <? 0)) eqn:Hy;
    [left; cbn; rewrite ?Hp; intuition |].
  destruct io as [e | e |]; cbn.
  - left. rewrite ?Hp. intuition.
  - left. intuition.
  - right. unfold wire. rewrite Hp. cbn. rewrite Hc.
    do 8 (split; [reflexivity |]).
    intros Hset. rewrite Hset in Hx, Hy. cbn in Hx, Hy.
    apply Z.ltb_ge in Hx, Hy. split; assumption.
Qed.

(** A failed write leaves the whole stage but its status line alone. *)
Lemma send_step_write_raises (s : Stage) (y x msg : string) :
  let r := send_step s y x (WriteRaises msg) in
  snd r = false /\ wire (fst r) = wire s.
Proof.
  unfold send_step, wire.
  destruct (arduino_connected s); [| cbn; auto].
  destruct (arduino s) as [p |] eqn:Hp; [| cbn; rewrite Hp; auto].
  destruct (set s && _); [cbn; rewrite Hp; auto |].
  destruct (set s && _); cbn; rewrite Hp; auto.
Qed.

(** C1. Atomicity of command dispatch on transmit failure: when the
    write to the serial link raises, [send_step] returns [False], puts
    nothing on the wire and leaves [(abs_x, abs_y)] and the home flag as
    they were; and whatever the link does, either the call returns
    [False] with the ledger untouched, or the whole exchange succeeded,
    the command line is on the wire, and the ledger holds the
    prospective position. *)
Theorem send_step_rollback (s : Stage) (y x : string) :
  (forall msg,
     let r := send_step s y x (WriteRaises msg) in
     snd r = false /\ wire (fst r) = wire s /\
     abs_x (fst r) = abs_x s /\ abs_y (fst r) = abs_y s /\
     set (fst r) = set s) /\
  (forall io,
     let r := send_step s y x io in
     (snd r = false /\ abs_x (fst r) = abs_x s /\ abs_y (fst r) = abs_y s)
     \/
     (io = LinkOk /\ snd r = true /\
      wire (fst r) = wire s ++ [command_line y x] /\
      abs_x (fst r) = prospective_x (abs_x s) x /\
      abs_y (fst r) = prospective_y (abs_y s) y)).
Proof.
  split.
  - intros msg r.
    destruct (send_step_write_raises s y x msg) as [Hf Hw].
    destruct (send_step_cases s y x (WriteRaises msg))
      as [(_ & Hx & Hy & Hs & _) | (Hio & _)]; [| discriminate].
    subst r. repeat split; assumption.
  - intros io r.
    destruct (send_step_cases s y x io)
      as [(Hf & Hx & Hy & _) | (Hio & Ht & Hw & Hx & Hy & _)]; subst r;
      [left | right]; repeat split; assumption.
Qed.

(** The test-suite scenario: the write fails on an upward step. *)
Example rollback_on_comm_error :
  let r := send_step connected_stage "U" "S" (WriteRaises "fake write error") in
  snd r = false /\ abs_y (fst r) = 0 /\
  status_var (fst r) = "COMMUNICATION ERROR: fake write error".
Proof. cbv. auto. Qed.

Example step_up_succeeds :
  let r := send_step connected_stage "U" "S" LinkOk in
  snd r = true /\ abs_y (fst r) = 1 /\ abs_x (fst r) = 0 /\
  wire (fst r) = [command_line "U" "S"] /\ pos_label (fst r) = "Position: (0, 1)".
Proof. cbv. auto. Qed.

(** The homed invariant. *)
Definition homed (s : Stage) : Prop :=
  set s = true /\ 0 <= abs_x s /\ 0 <= abs_y s.

Lemma send_step_keeps_homed (s : Stage) (y x : string) (io : LinkBehaviour) :
  homed s -> homed (fst (send_step s y x io)).
Proof.
  intros (Hs & Hx & Hy). unfold homed.
  destruct (send_step_cases s y x io)
    as [(_ & Ex & Ey & Es & _) | (_ & _ & _ & Ex & Ey & Es & _ & _ & Hb)].
  - rewrite Ex, Ey, Es. auto.
  - rewrite Ex, Ey, Es. destruct (Hb Hs). auto.
Qed.

Lemma run_steps_keeps_homed (calls : list StepCall) (s : Stage) :
  homed s -> homed (run_steps s calls).
Proof.
  revert s. induction calls as [| c calls IH]; intros s H; [exact H |].
  apply IH. apply send_step_keeps_homed. exact H.
Qed.

Lemma send_step_rejects (s : Stage) (y x : string) (io : LinkBehaviour) :
  set s = true ->
  prospective_x (abs_x s) x < 0 \/ prospective_y (abs_y s) y < 0 ->
  let r := send_step s y x io in
  snd r = false /\ wire (fst r) = wire s /\
  abs_x (fst r) = abs_x s /\ abs_y (fst r) = abs_y s.
Proof.
  intros Hs Hneg. unfold send_step, wire. rewrite Hs.
  destruct (arduino_connected s); [| cbn; auto].
  destruct (arduino s) as [p |] eqn:Hp; [| cbn; rewrite Hp; auto].
  cbn [andb].
  destruct (prospective_x (abs_x s) x <? 0) eqn:Hx; [cbn; rewrite Hp; auto |].
  destruct (prospective_y (abs_y s) y <? 0) eqn:Hy; [cbn; rewrite Hp; auto |].
  apply Z.ltb_ge in Hx, Hy. lia.
Qed.

(** C2. Homed non-negativity: once [set_home] has taken effect (the link
    is up), the ledger is [(0, 0)] with the home flag set; after any
    sequence of [send_step] calls the flag is still set and neither
    coordinate is negative; from any state so reached, a step whose
    prospective position is negative on either axis returns [False],
    writes nothing and leaves the ledger alone; in particular
    [send_step('D', 'S')] right after homing. *)
Theorem homed_position_never_negative
    (s : Stage) (p : Serial) (calls : list StepCall)
    (Hconnected : arduino_connected s = true) (Hport : arduino s = Some p) :
  let h := set_home s in
  (set h = true /\ abs_x h = 0 /\ abs_y h = 0) /\
  (let s' := run_steps h calls in
   set s' = true /\ 0 <= abs_x s' /\ 0 <= abs_y s') /\
  (forall y x io,
     let s' := run_steps h calls in
     prospective_x (abs_x s') x < 0 \/ prospective_y (abs_y s') y < 0 ->
     let r := send_step s' y x io in
     snd r = false /\ wire (fst r) = wire s' /\
     abs_x (fst r) = abs_x s' /\ abs_y (fst r) = abs_y s') /\
  (forall io,
     let r := send_step h "D" "S" io in
     snd r = false /\ wire (fst r) = wire h /\
     abs_x (fst r) = 0 /\ abs_y (fst r) = 0).
Proof.
  intros h.
  assert (Hh : set h = true /\ abs_x h = 0 /\ abs_y h = 0).
  { subst h. unfold set_home. rewrite Hconnected, Hport. cbn. auto. }
  assert (Hhomed : homed h).
  { destruct Hh as (H1 & H2 & H3). unfold homed. rewrite H2, H3. auto with zarith. }
  split; [exact Hh |].
  split; [exact (run_steps_keeps_homed calls h Hhomed) |].
  split.
  - intros y x io s' Hneg.
    apply send_step_rejects; [| exact Hneg].
    apply (run_steps_keeps_homed calls h Hhomed).
  - intros io r. destruct Hh as (H1 & H2 & H3).
    destruct (send_step_rejects h "D" "S" io H1) as (R1 & R2 & R3 & R4).
    + right. rewrite H3. cbn. lia.
    + subst r. rewrite R3, R4. auto.
Qed.

(** A homed stage driven down, right, then up and left twice. *)
Definition homing_calls : list StepCall :=
  [ {| step_y := "D"; step_x := "S"; step_link := LinkOk |};
    {| step_y := "S"; step_x := "R"; step_link := LinkOk |};
    {| step_y := "U"; step_x := "L"; step_link := LinkOk |};
    {| step_y := "U"; step_x := "L"; step_link := ReadRaises "timeout" |};
    {| step_y := "U"; step_x := "L"; step_link := LinkOk |} ].

Lemma homed_position_never_negative_witness :
  abs_x (run_steps (set_home connected_stage) homing_calls) = 2 /\
  abs_y (run_steps (set_home connected_stage) homing_calls) = 2 /\
  set (run_steps (set_home connected_stage) homing_calls) = true /\
  0 <= abs_x (run_steps (set_home connected_stage) homing_calls).
Proof.
  split; [reflexivity |]. split; [reflexivity |].
  destruct (homed_position_never_negative connected_stage {| written := [] |}
              homing_calls eq_refl eq_refl) as (_ & (Hs & Hx & _) & _).
  split; [exact Hs | exact Hx].
Defined.

(** *** Rate limiting *)








End ServoFacts.

(** ** ScanPlanner *)

Module ScanFacts.

Import Scan Counting.

Local Open Scope string_scope.
Local Open Scope list_scope.

(** The inner loop appends the same move once per iteration. *)
Lemma fold_append_repeat {A B} (m : A) (l : list B) (acc : list A) :
  fold_left (fun acc _ => acc ++ [m]) l acc = acc ++ repeat m (length l).
Proof.
  revert acc. induction l as [| b l IH]; intros acc; cbn.
  - now rewrite app_nil_r.
  - rewrite IH, <- app_assoc. reflexivity.
Qed.

Lemma length_range (n : Z) : length (range n) = Z.to_nat n.
Proof. unfold range. now rewrite length_map, length_seq. Qed.

Lemma across_row_spec (steps : Z) (g : bool) (acc : list Move) :
  across_row steps g acc
  = acc ++ repeat (if g then ("S", "R") else ("S", "L"))
             (Z.to_nat steps - 1).
Proof.
  unfold across_row.
  assert (E : Z.to_nat (steps - 1) = (Z.to_nat steps - 1)%nat) by lia.
  destruct g; rewrite fold_append_repeat, length_range, E; reflexivity.
Qed.

(** The outer loop, started at row [a] with the direction that row has
    in the closed form, produces the closed form's rows. *)
Lemma scan_rows_spec (rows steps : Z) (n : nat) :
  forall (a : nat) (st : Loop),
    (a + n <= Z.to_nat rows)%nat ->
    going_right st = Nat.even a ->
    pattern (fold_left (scan_row rows steps)
               (map Z.of_nat (seq a n)) st)
    = pattern st ++
      concat (map (boustrophedon_row (Z.to_nat rows) (Z.to_nat steps))
                (seq a n)).
Proof.
  induction n as [| n IH]; intros a st Hle Hdir; cbn [seq map fold_left concat].
  - now rewrite app_nil_r.
  - destruct n as [| n'].
    + cbn [seq map fold_left concat]. rewrite app_nil_r.
      unfold scan_row, boustrophedon_row, horizontal.
      rewrite across_row_spec, Hdir.
      destruct (Z.ltb_spec (Z.of_nat a) (rows - 1)) as [Hlast | Hlast];
        destruct (Nat.ltb_spec (S a) (Z.to_nat rows)) as [Hlast' | Hlast'];
        cbn [pattern]; try lia; destruct (Nat.even a);
        rewrite <- ?app_assoc, ?app_nil_r; reflexivity.
    + rewrite IH; [| lia |].
      * unfold scan_row at 1. unfold boustrophedon_row at 2. unfold horizontal.
        rewrite across_row_spec, Hdir.
        assert (Hlast : (Z.of_nat a <? rows - 1)%Z = true)
          by (apply Z.ltb_lt; lia).
        assert (Hlast' : (S a <? Z.to_nat rows)%nat = true)
          by (apply Nat.ltb_lt; lia).
        rewrite Hlast, Hlast'. cbn [pattern].
        destruct (Nat.even a); rewrite <- !app_assoc; reflexivity.
      * unfold scan_row.
        assert (Hlast : (Z.of_nat a <? rows - 1)%Z = true)
          by (apply Z.ltb_lt; lia).
        rewrite Hlast. cbn [going_right]. rewrite Hdir.
        rewrite Nat.even_succ, <- Nat.negb_even. reflexivity.
Qed.

(** The generated pattern is the boustrophedon plan, for all settings. *)
Lemma generate_is_boustrophedon (rows steps : Z) :
  generate_lawnmower_pattern rows steps
  = boustrophedon (Z.to_nat rows) (Z.to_nat steps).
Proof.
  unfold generate_lawnmower_pattern, boustrophedon, range.
  rewrite scan_rows_spec; [reflexivity | lia | reflexivity].
Qed.

Lemma horizontal_is_horizontal i :
  is_horizontal (horizontal i) = true /\ is_down (horizontal i) = false.
Proof. unfold horizontal. destruct (Nat.even i); split; reflexivity. Qed.

Lemma count_row (rows steps i : nat) :
  count is_horizontal (boustrophedon_row rows steps i) = (steps - 1)%nat /\
  count is_down (boustrophedon_row rows steps i)
  = if (S i <? rows)%nat then 1%nat else 0%nat.
Proof.
  unfold boustrophedon_row. rewrite !count_app, !count_repeat.
  destruct (horizontal_is_horizontal i) as [-> ->].
  destruct (S i <? rows)%nat; cbn; split; lia.
Qed.

Lemma count_rows (rows steps n : nat) :
  forall a, (a + n <= rows)%nat ->
    count is_horizontal
      (concat (map (boustrophedon_row rows steps) (seq a n)))
    = (n * (steps - 1))%nat /\
    count is_down
      (concat (map (boustrophedon_row rows steps) (seq a n)))
    = if ((a + n =? rows) && (0 <? n))%nat then (n - 1)%nat else n.
Proof.
  induction n as [| n IH]; intros a Hle; cbn [seq map concat].
  - cbn. rewrite andb_false_r. split; reflexivity.
  - rewrite !count_app.
    destruct (count_row rows steps a) as [-> ->].
    destruct (IH (S a)) as [-> ->]; [lia |].
    split; [lia |].
    destruct (Nat.ltb_spec (S a) rows), (Nat.eqb_spec (S a + n) rows),
      (Nat.eqb_spec (a + S n) rows), (Nat.ltb_spec 0 n),
      (Nat.ltb_spec 0 (S n)); cbn [andb]; lia.
Qed.

(** C7. Lawnmower generation: three rows of four steps give the eleven
    moves RRR D LLL D RRR; and for at least one row and one step per
    row the pattern is the boustrophedon plan (row by row,
    [steps_per_row - 1] moves to the right on even rows and to the left
    on odd rows, a down move after every row but the last), hence
    [rows * (steps_per_row - 1)] horizontal moves and [rows - 1] down
    moves and nothing else. *)
Theorem lawnmower_pattern (rows steps : Z)
    (Hrows : (1 <= rows)%Z) (Hsteps : (1 <= steps)%Z) :
  generate_lawnmower_pattern 3 4
  = [("S", "R"); ("S", "R"); ("S", "R"); ("D", "S");
     ("S", "L"); ("S", "L"); ("S", "L"); ("D", "S");
     ("S", "R"); ("S", "R"); ("S", "R")] /\
  let p := generate_lawnmower_pattern rows steps in
  p = boustrophedon (Z.to_nat rows) (Z.to_nat steps) /\
  count_moves is_horizontal p = (rows * (steps - 1))%Z /\
  count_moves is_down p = (rows - 1)%Z /\
  Z.of_nat (length p) = (rows * (steps - 1) + (rows - 1))%Z /\
  Forall (fun m => is_horizontal m || is_down m = true) p.
Proof.
  split; [reflexivity |].
  intros p.
  assert (Hp : p = boustrophedon (Z.to_nat rows) (Z.to_nat steps))
    by apply generate_is_boustrophedon.
  destruct (count_rows (Z.to_nat rows) (Z.to_nat steps) (Z.to_nat rows) 0)
    as [Hh Hd]; [lia |].
  fold (boustrophedon (Z.to_nat rows) (Z.to_nat steps)) in Hh, Hd.
  rewrite <- Hp in Hh, Hd.
  assert (Hmoves : Forall (fun m => is_horizontal m || is_down m = true) p).
  { rewrite Hp. unfold boustrophedon. apply Forall_concat, Forall_map.
    apply Forall_forall. intros i _. unfold boustrophedon_row.
    apply Forall_app. split.
    - apply Forall_forall. intros m Hm. apply repeat_spec in Hm. subst m.
      now destruct (horizontal_is_horizontal i) as [-> _].
    - destruct (S i <? Z.to_nat rows)%nat; repeat constructor. }
  assert (Hlen : length p = (count is_horizontal p + count is_down p)%nat).
  { clear - Hmoves. unfold count. induction Hmoves as [| m l Hm _ IH]; cbn.
    - reflexivity.
    - assert (Hx : is_horizontal m && is_down m = false).
      { unfold is_horizontal, is_down.
        destruct (String.eqb (fst m) "S") eqn:E; [| reflexivity].
        apply String.eqb_eq in E. rewrite E.
        change (String.eqb "S" "D") with false. cbn [andb].
        apply andb_false_r. }
      destruct (is_horizontal m), (is_down m); cbn in *;
        try discriminate; lia. }
  assert (Et : ((0 + Z.to_nat rows =? Z.to_nat rows) && (0 <? Z.to_nat rows))%nat
               = true).
  { apply andb_true_iff. split; [apply Nat.eqb_eq | apply Nat.ltb_lt]; lia. }
  rewrite Et in Hd.
  split; [exact Hp |].
  unfold count_moves. fold (count is_horizontal p). fold (count is_down p).
  rewrite Hlen, Hh, Hd.
  repeat split; try exact Hmoves; nia.
Qed.

Lemma lawnmower_pattern_witness :
  generate_lawnmower_pattern 2 3
  = [("S", "R"); ("S", "R"); ("D", "S"); ("S", "L"); ("S", "L")] /\
  count_moves is_down (generate_lawnmower_pattern 2 3) = 1%Z.
Proof.
  split; [reflexivity |].
  destruct (lawnmower_pattern 2 3 ltac:(lia) ltac:(lia)) as (_ & _ & _ & H & _).
  exact H.
Defined.

End ScanFacts.

(** ** TargetTracker *)

Module TrackerFacts.

Import Tracker.

Section Selection.

Variable Contour : Type.
Variable moments : Contour -> Moments.

Local Abbreviation centroid := (centroid Contour moments).
Local Abbreviation degenerate := (degenerate Contour moments).
Local Abbreviation nearest_step := (nearest_step Contour moments).
Local Abbreviation find_nearest_contour := (find_nearest_contour Contour moments).
Local Abbreviation handle_click_selection := (handle_click_selection Contour moments).
Local Abbreviation click_selection := (click_selection Contour moments).

Definition start : Nearest Contour :=
  {| nearest_contour := None; min_distance := Inf; nearest_centroid := None |}.

(** The squared distance from the centroid of a contour to a point. *)
Definition reach (target : Point) (cnt : Contour) : Z :=
  squared_distance (centroid cnt) target.

(** No contour with a centroid lies less than 100 px from the point. *)
Definition none_within_100 (contours : list Contour) (target : Point) : Prop :=
  forall cnt, In cnt contours -> degenerate cnt = false ->
              100 * 100 <= reach target cnt.

(** The search found [cnt], a nearest contour among [seen]. *)
Definition found (target : Point) (seen : list Contour) (st : Nearest Contour)
    (cnt : Contour) : Prop :=
  In cnt seen /\ degenerate cnt = false /\
  st = {| nearest_contour := Some cnt;
          min_distance := Sqrt (reach target cnt);
          nearest_centroid := Some (centroid cnt) |} /\
  forall other, In other seen -> degenerate other = false ->
                reach target cnt <= reach target other.

(** The loop invariant of [find_nearest_contour]. *)
Definition searched (target : Point) (seen : list Contour)
    (st : Nearest Contour) : Prop :=
  (st = start /\ forall cnt, In cnt seen -> degenerate cnt = true) \/
  exists cnt, found target seen st cnt.

Lemma nearest_step_searched target seen st cnt :
  searched target seen st ->
  searched target (seen ++ [cnt]) (nearest_step target st cnt).
Proof.
  intros H. unfold nearest_step.
  destruct (degenerate cnt) eqn:Hdeg.
  - destruct H as [(-> & Hall) | (best & Hin & Hnd & -> & Hmin)].
    + left. split; [reflexivity |]. intros c Hc.
      apply in_app_or in Hc. destruct Hc as [Hc | [<- | []]]; auto.
    + right. exists best. repeat split; auto.
      * apply in_or_app. now left.
      * intros other Ho Hond. apply in_app_or in Ho.
        destruct Ho as [Ho | [<- | []]]; [auto | congruence].
  - destruct H as [(-> & Hall) | (best & Hin & Hnd & -> & Hmin)].
    + right. exists cnt. cbn. repeat split; auto.
      * apply in_or_app. right. now left.
      * intros other Ho Hond. apply in_app_or in Ho.
        destruct Ho as [Ho | [<- | []]].
        -- rewrite (Hall other Ho) in Hond. discriminate.
        -- unfold reach. lia.
    + right. cbn [min_distance dist_ltb].
      fold (reach target cnt).
      destruct (Z.ltb_spec (reach target cnt) (reach target best)) as [Hlt | Hge].
      * exists cnt. repeat split; auto.
        -- apply in_or_app. right. now left.
        -- intros other Ho Hond. apply in_app_or in Ho.
           destruct Ho as [Ho | [<- | []]]; [| lia].
           specialize (Hmin other Ho Hond). lia.
      * exists best. repeat split; auto.
        -- apply in_or_app. now left.
        -- intros other Ho Hond. apply in_app_or in Ho.
           destruct Ho as [Ho | [<- | []]]; [auto | lia].
Qed.

Lemma fold_searched target (rest : list Contour) :
  forall seen st,
    searched target seen st ->
    searched target (seen ++ rest) (fold_left (nearest_step target) rest st).
Proof.
  induction rest as [| cnt rest IH]; intros seen st H; cbn.
  - now rewrite app_nil_r.
  - replace (seen ++ cnt :: rest) with ((seen ++ [cnt]) ++ rest)
      by (now rewrite <- app_assoc).
    apply IH. now apply nearest_step_searched.
Qed.

Lemma find_nearest_contour_searched contours target :
  searched target contours (find_nearest_contour contours target).
Proof.
  unfold find_nearest_contour. destruct contours as [| cnt rest].
  - left. split; [reflexivity |]. intros c [].
  - apply (fold_searched target (cnt :: rest) [] start).
    left. split; [reflexivity |]. intros c [].
Qed.

(** When nothing is within reach the search result cannot pass the
    [distance < 100] test. *)
Lemma far_search_fails contours target :
  none_within_100 contours target ->
  let r := find_nearest_contour contours target in
  nearest_contour r = None \/ dist_lt_const (min_distance r) 100 = false.
Proof.
  intros Hfar r. subst r.
  destruct (find_nearest_contour_searched contours target)
    as [(-> & _) | (best & Hin & Hnd & -> & _)].
  - left. reflexivity.
  - right. cbn. apply Z.ltb_ge. apply (Hfar best Hin Hnd).
Qed.

(** When some contour is within reach the search returns a nearest one,
    itself within reach. *)
Lemma near_search_succeeds contours target cnt :
  In cnt contours -> degenerate cnt = false ->
  reach target cnt < 100 * 100 ->
  exists best, found target contours (find_nearest_contour contours target) best /\
               reach target best < 100 * 100.
Proof.
  intros Hin Hnd Hnear.
  destruct (find_nearest_contour_searched contours target)
    as [(_ & Hall) | (best & Hbest)].
  - rewrite (Hall cnt Hin) in Hnd. discriminate.
  - exists best. split; [exact Hbest |].
    destruct Hbest as (_ & _ & _ & Hmin). specialize (Hmin cnt Hin Hnd). lia.
Qed.

(** C9. Click selection: with a click pending at [click], if no
    candidate contour has a non-degenerate centroid less than 100 px
    from it, both [handle_click_selection] and the selection block of
    [simple_tracking_loop] leave [tracking_active], the target
    position, the history and the selected contour as they were (so an
    unlocked tracker stays unlocked) and consume the click; if some
    candidate is that close, both lock onto a nearest candidate, with the
    history reset to exactly its centroid. *)
Theorem click_selection_outcome
    (s : SimpleTrack Contour) (contours : list Contour) (click : Point)
    (Hawait : awaiting_selection (track s) = true)
    (Hclick : click_position (track s) = Some click) :
  let t := track s in
  let t' := handle_click_selection t contours in
  let s' := click_selection s contours in
  (none_within_100 contours click ->
   (tracking_active t' = tracking_active t /\
    target_position t' = target_position t /\
    target_history t' = target_history t /\
    selected_contour t' = selected_contour t /\
    awaiting_selection t' = false /\ click_position t' = None) /\
   (tracking_active (track s') = tracking_active t /\
    target_position (track s') = target_position t /\
    target_history (track s') = target_history t /\
    selected_contour (track s') = selected_contour t /\
    awaiting_selection (track s') = false /\
    click_position (track s') = None)) /\
  ((exists cnt, In cnt contours /\ degenerate cnt = false /\
                reach click cnt < 100 * 100) ->
   exists best,
     In best contours /\ degenerate best = false /\
     reach click best < 100 * 100 /\
     (forall other, In other contours -> degenerate other = false ->
                    reach click best <= reach click other) /\
     (tracking_active t' = true /\
      target_position t' = Some (centroid best) /\
      target_history t' = [centroid best] /\
      selected_contour t' = Some best) /\
     (tracking_active (track s') = true /\
      target_position (track s') = Some (centroid best) /\
      target_history (track s') = [centroid best] /\
      selected_contour (track s') = Some best)).
Proof.
  intros t t' s'. subst t t' s'.
  unfold Tracker.handle_click_selection, Tracker.click_selection.
  cbv zeta. rewrite Hawait, Hclick.
  split.
  - intros Hfar.
    destruct (far_search_fails contours click Hfar) as [Hnone | Hfail].
    + rewrite Hnone. cbn. repeat split; reflexivity.
    + rewrite Hfail.
      destruct (nearest_contour (find_nearest_contour contours click)),
        (nearest_centroid (find_nearest_contour contours click)); cbn;
        repeat split; reflexivity.
  - intros (cnt & Hin & Hnd & Hnear).
    destruct (near_search_succeeds contours click cnt Hin Hnd Hnear)
      as (best & (Hbin & Hbnd & Hst & Hmin) & Hbnear).
    exists best. rewrite Hst. cbn [nearest_contour nearest_centroid min_distance].
    assert (Hpass : dist_lt_const (Sqrt (reach click best)) 100 = true)
      by (cbn; apply Z.ltb_lt; exact Hbnear).
    rewrite Hpass. cbn. repeat split; auto.
Qed.

End Selection.

(** Two blobs given by their moments: one centred at [(50, 40)], one
    at [(300, 300)], and a zero-area sliver. *)
Definition blob_a : Moments := {| m00 := 100; m10 := 5000; m01 := 4000 |}.
Definition blob_b : Moments := {| m00 := 200; m10 := 60000; m01 := 60000 |}.
Definition sliver : Moments := {| m00 := 0; m10 := 0; m01 := 0 |}.

Definition clicked (at_ : Point) : SimpleTrack Moments :=
  {| track := {| tracking_active := false; target_position := None;
                 target_history := []; selected_contour := None;
                 click_position := Some at_; awaiting_selection := true |};
     last_motor_command_time := 5; motor_stop_sent := true |}.

Example click_near_blob_a :
  track (click_selection Moments (fun m => m) (clicked (60, 45))
           [sliver; blob_b; blob_a])
  = {| tracking_active := true; target_position := Some (50, 40);
       target_history := [(50, 40)]; selected_contour := Some blob_a;
       click_position := None; awaiting_selection := false |}.
Proof. reflexivity. Qed.

Lemma click_selection_outcome_witness :
  tracking_active
    (handle_click_selection Moments (fun m => m)
       (track (clicked (150, 40))) [sliver; blob_b; blob_a]) = false /\
  tracking_active
    (track (click_selection Moments (fun m => m) (clicked (150, 40))
              [sliver; blob_b; blob_a])) = false.
Proof.
  destruct (click_selection_outcome Moments (fun m => m) (clicked (150, 40))
              [sliver; blob_b; blob_a] (150, 40) eq_refl eq_refl)
    as [Hfail _].
  destruct Hfail as [(H1 & _) (H2 & _)].
  - intros cnt [<- | [<- | [<- | []]]] Hnd; cbv in Hnd |- *;
      congruence.
  - split; [exact H1 | exact H2].
Defined.

End TrackerFacts.

(** ** Blending *)

Module BlendFacts.

Import Img Blend.

Local Open Scope N_scope.

Lemma half_of (z : Z) : (z # 2 == (1 # 2) * inject_Z z)%Q.
Proof. unfold Qeq, Qmult, inject_Z. cbn. destruct z; cbn; lia. Qed.

(** The float expression of the overlap case is the exact half sum. *)
Lemma mix_half_sum (c n : N) :
  (mix c n == (Z.of_N c + Z.of_N n) # 2)%Q.
Proof.
  unfold mix, alpha.
  rewrite (half_of (Z.of_N c + Z.of_N n)), inject_Z_plus. ring.
Qed.

(** Cast back to [uint8], the overlap case is the truncated mean. *)
Lemma astype_mix (c n : N) :
  astype_uint8 (mix c n) = ((c + n) / 2) mod 256.
Proof.
  unfold astype_uint8, Py.int_of.
  assert (Hq : (0 <= mix c n)%Q).
  { rewrite mix_half_sum. unfold Qle. cbn. lia. }
  apply Qle_bool_iff in Hq. rewrite Hq.
  rewrite (Qfloor_comp _ _ (mix_half_sum c n)). cbn [Qfloor].
  change 256%Z with (Z.of_N 256). change 2%Z with (Z.of_N 2).
  rewrite <- N2Z.inj_add, <- N2Z.inj_div, <- N2Z.inj_mod, N2Z.id.
  reflexivity.
Qed.

Lemma astype_mix_uint8 (c n : N) :
  c < 256 -> n < 256 -> astype_uint8 (mix c n) = average c n.
Proof.
  intros Hc Hn. rewrite astype_mix. unfold average.
  apply N.mod_small.
  apply N.Div0.div_lt_upper_bound. lia.
Qed.

Lemma channel_sum_zero (p : Pixel) : channel_sum p = 0 -> p = black.
Proof.
  destruct p as [[b g] r]. unfold channel_sum, black. intros H.
  assert (b = 0) by lia. assert (g = 0) by lia. assert (r = 0) by lia.
  subst. reflexivity.
Qed.

(** The four presence cases of [blend_regions] at one pixel. *)
Lemma blend_pixel_cases (c n : Pixel) :
  (0 < channel_sum c -> 0 < channel_sum n -> blend_pixel c n = mix_pixel c n) /\
  (channel_sum c = 0 -> 0 < channel_sum n -> blend_pixel c n = n) /\
  (channel_sum n = 0 -> blend_pixel c n = c).
Proof.
  unfold blend_pixel. repeat split.
  - intros Hc Hn.
    apply N.ltb_lt in Hc, Hn. rewrite Hc, Hn. cbn.
    apply N.ltb_lt in Hc. replace (channel_sum c =? 0) with false; [reflexivity |].
    symmetry. apply N.eqb_neq. lia.
  - intros Hc Hn. rewrite Hc. apply N.ltb_lt in Hn. rewrite Hn. reflexivity.
  - intros Hn. rewrite Hn. cbn. rewrite !andb_false_r. reflexivity.
Qed.

Lemma mix_pixel_average (c n : Pixel) :
  uint8 c -> uint8 n ->
  mix_pixel c n =
  (average (fst (fst c)) (fst (fst n)),
   average (snd (fst c)) (snd (fst n)),
   average (snd c) (snd n)).
Proof.
  destruct c as [[cb cg] cr], n as [[nb ng] nr]. cbn.
  intros (H1 & H2 & H3) (H4 & H5 & H6).
  rewrite !astype_mix_uint8 by assumption. reflexivity.
Qed.

(** C5. Blend identity on an empty destination: for a destination
    region of the tile's shape whose pixels are all zero,
    [blend_regions] returns an array with exactly the tile's shape and
    pixels; and for any destination of the tile's shape, where both
    pixels have channel sum above zero the result is the channel-wise
    mean of the two (truncated to [uint8]), and where only the tile's
    has, the result is the tile's pixel. *)
Theorem blend_onto_empty_is_tile (dest tile : Image)
    (Hheight : height dest = height tile)
    (Hwidth : width dest = width tile) :
  exists out,
    blend_regions dest tile = Some out /\
    ((forall r c, (0 <= r < height dest)%Z -> (0 <= c < width dest)%Z ->
                  px dest r c = black) ->
     same out tile) /\
    (forall r c,
       0 < channel_sum (px dest r c) -> 0 < channel_sum (px tile r c) ->
       uint8 (px dest r c) -> uint8 (px tile r c) ->
       px out r c =
       (average (fst (fst (px dest r c))) (fst (fst (px tile r c))),
        average (snd (fst (px dest r c))) (snd (fst (px tile r c))),
        average (snd (px dest r c)) (snd (px tile r c)))) /\
    (forall r c,
       channel_sum (px dest r c) = 0 -> 0 < channel_sum (px tile r c) ->
       px out r c = px tile r c).
Proof.
  unfold blend_regions. rewrite Hheight, Hwidth, !Z.eqb_refl. cbn [andb].
  eexists. split; [reflexivity |]. cbn [px Img.height Img.width].
  split; [| split].
  - intros Hzero. unfold same. cbn [px Img.height Img.width].
    split; [reflexivity |]. split; [reflexivity |].
    intros r c Hr Hc. rewrite Hzero by (rewrite ?Hheight, ?Hwidth; assumption).
    destruct (N.eq_0_gt_0_cases (channel_sum (px tile r c))) as [Hn | Hn].
    + destruct (blend_pixel_cases black (px tile r c)) as (_ & _ & H).
      rewrite (H Hn). symmetry. apply channel_sum_zero. exact Hn.
    + destruct (blend_pixel_cases black (px tile r c)) as (_ & H & _).
      apply H; [reflexivity | exact Hn].
  - intros r c Hd Ht Ud Ut.
    destruct (blend_pixel_cases (px dest r c) (px tile r c)) as (H & _ & _).
    rewrite (H Hd Ht). apply mix_pixel_average; assumption.
  - intros r c Hd Ht.
    destruct (blend_pixel_cases (px dest r c) (px tile r c)) as (_ & H & _).
    apply (H Hd Ht).
Qed.

(** A 2 by 2 tile with one black pixel, and a destination with one
    painted pixel. *)
Definition sample_tile : Image :=
  {| height := 2; width := 2;
     px := fun r c =>
       if ((r =? 0) && (c =? 0))%Z then black else (10, 201, 255) |}.

Definition sample_dest : Image :=
  {| height := 2; width := 2;
     px := fun r c =>
       if ((r =? 1) && (c =? 1))%Z then (7, 100, 0)
       else if ((r =? 0) && (c =? 0))%Z then (9, 9, 9) else black |}.

Example blend_samples :
  match blend_regions sample_dest sample_tile with
  | Some out =>
      px out 0 0 = (9, 9, 9) /\ px out 0 1 = (10, 201, 255) /\
      px out 1 0 = (10, 201, 255) /\ px out 1 1 = (8, 150, 127)
  | None => False
  end.
Proof. cbv. repeat split. Qed.

Lemma blend_onto_empty_is_tile_witness :
  exists out,
    blend_regions (zeros 2 2) sample_tile = Some out /\ same out sample_tile.
Proof.
  destruct (blend_onto_empty_is_tile (zeros 2 2) sample_tile eq_refl eq_refl)
    as (out & Hout & Hsame & _).
  exists out. split; [exact Hout |].
  apply Hsame. intros r c _ _. reflexivity.
Defined.

(** C10. Blend frame property: for a destination of the tile's shape,
    [blend_regions] returns an array of that shape in which every pixel
    whose tile pixel has channel sum zero is the destination's pixel,
    unchanged; in particular where only the destination is present. *)
Theorem blend_keeps_destination_where_tile_absent (dest tile : Image)
    (Hheight : height dest = height tile)
    (Hwidth : width dest = width tile) :
  exists out,
    blend_regions dest tile = Some out /\
    height out = height dest /\ width out = width dest /\
    (forall r c, channel_sum (px tile r c) = 0 -> px out r c = px dest r c) /\
    (forall r c, 0 < channel_sum (px dest r c) ->
                 channel_sum (px tile r c) = 0 -> px out r c = px dest r c).
Proof.
  unfold blend_regions. rewrite Hheight, Hwidth, !Z.eqb_refl. cbn [andb].
  eexists. split; [reflexivity |]. cbn [px Img.height Img.width].
  split; [reflexivity |]. split; [reflexivity |].
  split; intros r c; [| intros _]; intros Ht;
    destruct (blend_pixel_cases (px dest r c) (px tile r c)) as (_ & _ & H);
    apply (H Ht).
Qed.

Lemma blend_keeps_destination_where_tile_absent_witness :
  exists out,
    blend_regions sample_dest sample_tile = Some out /\
    px out 0%Z 0%Z = (9, 9, 9).
Proof.
  destruct (blend_keeps_destination_where_tile_absent sample_dest sample_tile
              eq_refl eq_refl) as (out & Hout & _ & _ & Hkeep & _).
  exists out. split; [exact Hout |].
  apply (Hkeep 0%Z 0%Z). reflexivity.
Defined.

End BlendFacts.

(** ** MosaicBuilder *)

Module MosaicFacts.

Import Img Mosaic Counting.

(** *** Sorting keeps what is counted *)

Lemma count_insert_by {A} (key : A -> Q) (f : A -> bool) (x : A) (l : list A) :
  count f (Py.insert_by key x l) = count f (x :: l).
Proof.
  unfold count. induction l as [| y l IH]; cbn; [reflexivity |].
  destruct (Qle_bool (key x) (key y)); cbn; [reflexivity |].
  destruct (f y); cbn; rewrite IH; cbn; destruct (f x); reflexivity.
Qed.

Lemma count_sorted_by {A} (key : A -> Q) (f : A -> bool) (l : list A) :
  count f (Py.sorted_by key l) = count f l.
Proof.
  induction l as [| x l IH]; [reflexivity |].
  change (Py.sorted_by key (x :: l))
    with (Py.insert_by key x (Py.sorted_by key l)).
  rewrite count_insert_by. unfold count in *. cbn.
  destruct (f x); cbn; now rewrite IH.
Qed.

Lemma length_sorted_by {A} (key : A -> Q) (l : list A) :
  length (Py.sorted_by key l) = length l.
Proof.
  rewrite <- (count_all (fun _ => true) (Py.sorted_by key l)),
    <- (count_all (fun _ => true) l), count_sorted_by;
    [reflexivity | |]; apply Forall_forall; reflexivity.
Qed.

Section Stitching.

Variable Descriptors : Type.
Variable detectAndCompute : Image -> option (list KeyPoint * option Descriptors).
Variable bf_match : Descriptors -> Descriptors -> option (list DMatch).

Local Abbreviation stitch_try := (stitch_try Descriptors detectAndCompute bf_match).
Local Abbreviation stitch_one := (stitch_one Descriptors detectAndCompute bf_match).
Local Abbreviation Stitcher := (Stitcher Descriptors).

(** The tile yields fewer than ten matches against the previous one:
    features are extracted, and either side has no descriptors or the
    matcher returns fewer than ten correspondences. *)
Definition few_matches (s : Stitcher) (tile : Image) : Prop :=
  exists kp_curr des_curr,
    detectAndCompute tile = Some (kp_curr, des_curr) /\
    (des_last s = None \/ des_curr = None \/
     exists dl dc matches,
       des_last s = Some dl /\ des_curr = Some dc /\
       bf_match dc dl = Some matches /\ (length matches < 10)%nat).

(** C6. Freeze on insufficient matches: in the tracking state, a tile
    with fewer than ten matches against the previous one (or with no
    descriptors on either side) raises nothing and leaves the whole
    builder state, hence the canvas, [kp_last], [des_last] and
    [pos_last], as it was; and whenever anything does raise inside the
    [try] block, the step still returns, with the state it started
    from. *)
Theorem freeze_on_few_matches (s : Stitcher) (tile : Image)
    (Htracking : first_frame_init s = true)
    (Hfew : few_matches s tile) :
  stitch_try s tile = Some s /\
  stitch_one s tile = s /\
  canvas (stitch_one s tile) = canvas s /\
  kp_last (stitch_one s tile) = kp_last s /\
  des_last (stitch_one s tile) = des_last s /\
  pos_last (stitch_one s tile) = pos_last s /\
  (forall s0 tile0, stitch_try s0 tile0 = None -> stitch_one s0 tile0 = s0).
Proof.
  assert (Htry : stitch_try s tile = Some s).
  { destruct Hfew as (kp & des & Hdet & Hcase).
    unfold Mosaic.stitch_try. rewrite Hdet. cbn [Py.bind].
    rewrite Htracking. cbn [negb].
    destruct Hcase as [Hl | [Hc | (dl & dc & ms & Hl & Hc & Hm & Hlen)]].
    - rewrite Hl. reflexivity.
    - rewrite Hc. destruct (des_last s); reflexivity.
    - rewrite Hl, Hc, Hm. cbn [Py.bind]. rewrite length_sorted_by.
      destruct (Nat.leb_spec 10 (length ms)); [lia | reflexivity]. }
  assert (Hone : stitch_one s tile = s).
  { unfold Mosaic.stitch_one. now rewrite Htry. }
  rewrite Hone. repeat split; try reflexivity; try assumption.
  intros s0 tile0 H0. unfold Mosaic.stitch_one. now rewrite H0.
Qed.

(** *** Placement bounds *)

Lemma clamp_bounds (p limit : Z) :
  0 <= limit -> 0 <= clamp p limit <= limit.
Proof. unfold clamp. lia. Qed.

(** A steady-state step either leaves the stored position alone or
    moves it by the translation estimated from the sorted matches,
    clamped per axis. *)
Lemma stitch_one_steady (s : Stitcher) (tile : Image) :
  first_frame_init s = true ->
  pos_last (stitch_one s tile) = pos_last s \/
  exists kp_curr dc dl matches offsets dx dy last_x last_y,
    detectAndCompute tile = Some (kp_curr, Some dc) /\
    des_last s = Some dl /\
    bf_match dc dl = Some matches /\
    (10 <= length matches)%nat /\
    offsets_of kp_curr (kp_last s) (Py.sorted_by distance matches)
    = Some offsets /\
    translation offsets = Some (dx, dy) /\
    pos_last s = Some (last_x, last_y) /\
    pos_last (stitch_one s tile)
    = Some (clamp (last_x + dx) (canvas_width s - width tile),
            clamp (last_y + dy) (canvas_height s - height tile)).
Proof.
  intros Htracking. unfold Mosaic.stitch_one, Mosaic.stitch_try.
  destruct (detectAndCompute tile) as [[kp des] |] eqn:Hdet; cbn [Py.bind];
    [| now left].
  rewrite Htracking. cbn [negb].
  destruct (des_last s) as [dl |] eqn:Hdl; [| now left].
  destruct des as [dc |]; [| now left].
  destruct (bf_match dc dl) as [ms |] eqn:Hms; cbn [Py.bind]; [| now left].
  rewrite length_sorted_by.
  destruct (Nat.leb_spec 10 (length ms)) as [Hten | _]; [| now left].
  destruct (offsets_of kp (kp_last s) (Py.sorted_by distance ms))
    as [offs |] eqn:Hoffs; cbn [Py.bind]; [| now left].
  destruct (translation offs) as [[dx dy] |] eqn:Htr; cbn [Py.bind];
    [| now left].
  destruct (pos_last s) as [[lx ly] |] eqn:Hlast; cbn [Py.bind]; [| now left].
  destruct (Blend.blend_regions _ tile) as [blended |]; cbn [Py.bind];
    [| left; now rewrite Hlast].
  destruct (assign _ _ _ _ _ blended) as [cv |]; cbn [Py.bind];
    [| left; now rewrite Hlast].
  right. exists kp, dc, dl, ms, offs, dx, dy, lx, ly.
  repeat split; try reflexivity; assumption.
Qed.

Lemma assign_in_bounds (a v : Image) (y x : Z) :
  0 <= y -> y + height v <= height a -> 0 <= height v ->
  0 <= x -> x + width v <= width a -> 0 <= width v ->
  exists a', assign a y (y + height v) x (x + width v) v = Some a'.
Proof.
  intros Hy1 Hy2 Hh Hx1 Hx2 Hw. unfold assign, Py.slice, Py.slice_bound.
  destruct (Z.ltb_spec y 0); [lia |].
  destruct (Z.ltb_spec (y + height v) 0); [lia |].
  destruct (Z.ltb_spec x 0); [lia |].
  destruct (Z.ltb_spec (x + width v) 0); [lia |].
  unfold broadcastable.
  replace (Z.max 0 (Z.min (y + height v) (height a) - Z.min y (height a)))
    with (height v) by lia.
  replace (Z.max 0 (Z.min (x + width v) (width a) - Z.min x (width a)))
    with (width v) by lia.
  rewrite !Z.eqb_refl. cbn. eexists. reflexivity.
Qed.

(** Where the code keeps the tile on the canvas.  Every steady-state
    placement stores a position clamped per axis, so a tile that fits
    the canvas stays on it; the first placement stores the start
    position [reset_canvas] computes, unclamped, which keeps the tile
    on the canvas when the crop rectangle lies above the middle row of
    the canvas ([0 <= crop_top], [crop_bottom <= canvas_height // 2]),
    is no wider than the canvas, and the tile is no larger than the
    crop. *)
Theorem placement_on_canvas (s : Stitcher) (tile : Image)
    (Hwidth : 0 <= width tile <= canvas_width s)
    (Hheight : 0 <= height tile <= canvas_height s) :
  (first_frame_init s = true ->
   pos_last (stitch_one s tile) = pos_last s \/
   exists p, pos_last (stitch_one s tile) = Some p /\
             on_canvas s (height tile) (width tile) p) /\
  (forall k : Crop,
     0 <= crop_top k -> crop_bottom k <= canvas_height s / 2 ->
     crop_right k - crop_left k <= canvas_width s ->
     height tile <= crop_bottom k - crop_top k ->
     width tile <= crop_right k - crop_left k ->
     let s0 := reset_canvas Descriptors k s in
     on_canvas s0 (height tile) (width tile) (pos_x s0, pos_y s0) /\
     (pos_last (stitch_one s0 tile) = None \/
      pos_last (stitch_one s0 tile) = Some (pos_x s0, pos_y s0)) /\
     (forall kp des, detectAndCompute tile = Some (kp, des) ->
        pos_last (stitch_one s0 tile) = Some (pos_x s0, pos_y s0))).
Proof.
  split.
  - intros Htracking.
    destruct (stitch_one_steady s tile Htracking)
      as [H | (kp & dc & dl & ms & offs & dx & dy & lx & ly & H)];
      [now left | right].
    destruct H as (_ & _ & _ & _ & _ & _ & _ & H).
    eexists. split; [exact H |]. unfold on_canvas. cbn [fst snd].
    split; apply clamp_bounds; lia.
  - intros k Htop Hbottom Hcw Hh Hw s0.
    assert (Hx : 0 <= pos_x s0 <= canvas_width s - width tile).
    { subst s0. cbn [pos_x reset_canvas].
      assert (0 <= (canvas_width s - (crop_right k - crop_left k)) / 2
              <= canvas_width s - (crop_right k - crop_left k)).
      { split; [apply Z.div_pos; lia |].
        apply Z.div_le_upper_bound; lia. }
      lia. }
    assert (Hy : 0 <= pos_y s0 <= canvas_height s - height tile).
    { subst s0. cbn [pos_y reset_canvas].
      assert (0 <= canvas_height s / 2 <= canvas_height s).
      { split; [apply Z.div_pos; lia |].
        apply Z.div_le_upper_bound; lia. }
      lia. }
    assert (Hon : on_canvas s0 (height tile) (width tile) (pos_x s0, pos_y s0)).
    { unfold on_canvas. cbn [fst snd]. subst s0. cbn [canvas_width canvas_height
        reset_canvas] in *. split; assumption. }
    assert (Hplace : forall kp des, detectAndCompute tile = Some (kp, des) ->
              pos_last (stitch_one s0 tile) = Some (pos_x s0, pos_y s0)).
    { intros kp des Hdet. unfold Mosaic.stitch_one, Mosaic.stitch_try.
      rewrite Hdet. cbn [Py.bind].
      replace (first_frame_init s0) with false by (subst s0; reflexivity).
      cbn [negb].
      destruct (assign_in_bounds (canvas s0) tile (pos_y s0) (pos_x s0))
        as [cv Hcv]; try lia;
        try (subst s0; cbn [canvas reset_canvas zeros Img.height Img.width
                              pos_x pos_y] in *; lia).
      rewrite Hcv. reflexivity. }
    split; [exact Hon |]. split; [| exact Hplace].
    destruct (detectAndCompute tile) as [[kp des] |] eqn:Hdet.
    + right. apply (Hplace kp des eq_refl).
    + left. unfold Mosaic.stitch_one, Mosaic.stitch_try. rewrite Hdet.
      reflexivity.
Qed.

End Stitching.

(** *** Concrete runs *)

(** A detector that finds three keypoints on every tile, and a matcher
    that pairs them up in order. *)
Definition three_keypoints : list KeyPoint :=
  [ {| pt := (10, 10)%Q |}; {| pt := (20, 35 # 2)%Q |}; {| pt := (30, 5)%Q |} ].

Definition detect_three (_ : Image) : option (list KeyPoint * option nat) :=
  Some (three_keypoints, Some 3%nat).

Definition match_three (_ _ : nat) : option (list DMatch) :=
  Some [ {| queryIdx := 0; trainIdx := 0; distance := 12 |};
         {| queryIdx := 1; trainIdx := 1; distance := 7 |};
         {| queryIdx := 2; trainIdx := 2; distance := 30 |} ].

(** A uniformly grey camera frame of the given shape. *)
Definition grey_frame (h w : Z) : Image :=
  {| height := h; width := w; px := fun _ _ => (90%N, 90%N, 90%N) |}.

(** The builder after its first tile, with the default crop on a
    640 by 480 camera. *)
Definition after_first_tile : Stitcher nat :=
  stitch_one nat detect_three match_three (init nat)
    (crop_frame init_crop (grey_frame 480 640)).

Example first_tile_placed :
  first_frame_init after_first_tile = true /\
  pos_last after_first_tile = Some (650, 285) /\
  des_last after_first_tile = Some 3%nat /\
  px (canvas after_first_tile) 285 650 = (90%N, 90%N, 90%N) /\
  px (canvas after_first_tile) 284 650 = black.
Proof. cbv. repeat split. Qed.

Lemma freeze_on_few_matches_witness :
  stitch_one nat detect_three match_three after_first_tile
    (crop_frame init_crop (grey_frame 480 640))
  = after_first_tile.
Proof.
  refine (proj1 (proj2 (freeze_on_few_matches nat detect_three match_three
                          after_first_tile
                          (crop_frame init_crop (grey_frame 480 640)) _ _))).
  - reflexivity.
  - exists three_keypoints, (Some 3%nat). split; [reflexivity |].
    right. right. eexists. eexists. eexists.
    repeat split; try reflexivity. cbn. lia.
Defined.

Lemma placement_on_canvas_witness :
  on_canvas (init nat) 225 200 (650, 285) /\
  pos_last after_first_tile = Some (650, 285).
Proof.
  destruct (placement_on_canvas nat detect_three match_three (init nat)
              (crop_frame init_crop (grey_frame 480 640))
              ltac:(cbn; lia) ltac:(cbn; lia)) as [_ Hfirst].
  destruct (Hfirst init_crop) as (Hon & _ & Hplaced);
    [cbn; lia | cbn; lia | cbn; lia | cbn; lia | cbn; lia |].
  split; [exact Hon |].
  exact (Hplaced three_keypoints (Some 3%nat) eq_refl).
Defined.

(** A 1920 by 1080 camera: the operator grabs the crop rectangle at
    [(200, 300)] and drags it down to [(200, 900)]. *)
Definition dragged_crop : Crop :=
  on_crop_canvas_drag
    (on_crop_canvas_click (start_camera init_crop 1920 1080) 200 300)
    200 900.

Example dragged_crop_rectangle :
  crop_top dragged_crop = 840 /\ crop_bottom dragged_crop = 1065 /\
  crop_left dragged_crop = 180 /\ crop_right dragged_crop = 380.
Proof. cbv. repeat split. Qed.

(** C4. The canvas-bounds invariant breaks on the first placement: the
    first-frame branch, commented "put it on canvas center", stores the
    start position as [reset_canvas] computed it, without the clamp of
    the steady-state branch beside it.  With the crop rectangle dragged
    to rows 840..1065 of a 1080-row camera, [reset_canvas] puts [pos_y]
    at [1500 // 2 - 1065 = -315]; the slice [canvas[-315:-90]] is 225
    rows counted from the bottom, so the first tile is written at rows
    1185..1409 and the negative position is stored. *)
Lemma first_placement_off_canvas :
  let s := reset_canvas nat dragged_crop (init nat) in
  let tile := crop_frame dragged_crop (grey_frame 1080 1920) in
  let s' := stitch_one nat detect_three match_three s tile in
  height tile = 225 /\ width tile = 200 /\
  first_frame_init s' = true /\
  pos_last s' = Some (650, -315) /\
  px (canvas s') 1185 650 = (90%N, 90%N, 90%N) /\
  ~ on_canvas s' (height tile) (width tile) (650, -315).
Proof.
  cbv zeta. repeat split; try reflexivity.
  unfold on_canvas. cbn. lia.
Qed.

End MosaicFacts.

(** ** Translation estimate *)

Module MedianFacts.

Import Mosaic MosaicFacts Counting.

(** *** Rounding *)

(** [z] is an integer nearest to [q]. *)
Definition nearest_integer (q : Q) (z : Z) : Prop :=
  (inject_Z z - (1 # 2) <= q /\ q <= inject_Z z + (1 # 2))%Q.

Lemma round_nearest (q : Q) : nearest_integer q (Py.round q).
Proof.
  unfold nearest_integer, Py.round.
  pose proof (Qfloor_le q) as Hlo. pose proof (Qlt_floor q) as Hhi.
  rewrite inject_Z_plus in Hhi. change (inject_Z 1) with 1%Q in Hhi.
  destruct (Qcompare_spec (q - inject_Z (Qfloor q)) (1 # 2)) as [He | Hl | Hg].
  - destruct (Z.even (Qfloor q)); rewrite ?inject_Z_plus;
      change (inject_Z 1) with 1%Q; split; lra.
  - split; lra.
  - rewrite inject_Z_plus. change (inject_Z 1) with 1%Q. split; lra.
Qed.

Lemma round_comp (q q' : Q) : (q == q')%Q -> Py.round q = Py.round q'.
Proof.
  intros H. unfold Py.round. rewrite (Qfloor_comp q q' H).
  assert (E : ((q - inject_Z (Qfloor q') ?= 1 # 2)
               = (q' - inject_Z (Qfloor q') ?= 1 # 2))%Q)
    by (now rewrite H).
  now rewrite E.
Qed.

Lemma round_inject_Z (z : Z) : Py.round (inject_Z z) = z.
Proof.
  unfold Py.round. rewrite Qfloor_Z.
  assert (H : (inject_Z z - inject_Z z == 0)%Q) by ring.
  rewrite H. reflexivity.
Qed.

(** *** Sorting *)

Definition ascending : list Q -> Prop := StronglySorted Qle.

Lemma Forall_insert_by (P : Q -> Prop) (x : Q) (l : list Q) :
  P x -> Forall P l -> Forall P (Py.insert_by (fun q => q) x l).
Proof.
  intros Hx Hl. induction Hl as [| y l Hy Hl IH]; cbn.
  - constructor; [exact Hx | constructor].
  - destruct (Qle_bool x y).
    + constructor; [exact Hx |]. constructor; assumption.
    + constructor; assumption.
Qed.

Lemma insert_by_ascending (x : Q) (l : list Q) :
  ascending l -> ascending (Py.insert_by (fun q => q) x l).
Proof.
  unfold ascending. induction 1 as [| y l Hs IH Hy]; cbn.
  - constructor; constructor.
  - destruct (Qle_bool x y) eqn:E.
    + apply Qle_bool_iff in E. constructor.
      * constructor; assumption.
      * constructor; [exact E |].
        eapply Forall_impl; [| exact Hy]. cbn. intros z Hz. lra.
    + assert (Hyx : (y <= x)%Q).
      { destruct (Qlt_le_dec y x) as [H | H]; [lra |].
        apply Qle_bool_iff in H. congruence. }
      constructor; [exact IH |].
      apply Forall_insert_by; assumption.
Qed.

Lemma sorted_by_ascending (l : list Q) :
  ascending (Py.sorted_by (fun q => q) l).
Proof.
  induction l as [| x l IH]; [constructor |].
  apply insert_by_ascending. exact IH.
Qed.

(** Around any element of an ascending list, what comes before is no
    larger and what comes after is no smaller. *)
Lemma ascending_split (l1 l2 : list Q) (x : Q) :
  ascending (l1 ++ x :: l2) ->
  Forall (fun y => (y <= x)%Q) l1 /\ Forall (fun y => (x <= y)%Q) l2.
Proof.
  unfold ascending. induction l1 as [| a l1 IH]; cbn; intros H.
  - inversion H; subst. split; [constructor | assumption].
  - inversion H as [| ? ? Hs Ha]; subst. destruct (IH Hs) as [H1 H2].
    split; [| exact H2]. constructor; [| exact H1].
    apply Forall_app in Ha. destruct Ha as [_ Ha]. now inversion Ha.
Qed.

(** *** Counting around the middle *)

Definition at_most (m : Q) : Q -> bool := fun x => Qle_bool x m.
Definition at_least (m : Q) : Q -> bool := fun x => Qle_bool m x.
Definition equal_to (t : Q) : Q -> bool := fun x => Qeq_bool x t.

(** [m] is a median of [l]: at least half of the values are at most
    [m], and at least half are at least [m]. *)
Definition is_median (l : list Q) (m : Q) : Prop :=
  (length l <= 2 * count (at_most m) l)%nat /\
  (length l <= 2 * count (at_least m) l)%nat.

Lemma count_below (l1 l2 : list Q) (x m : Q) :
  ascending (l1 ++ x :: l2) -> (x <= m)%Q ->
  (length l1 + 1 <= count (at_most m) (l1 ++ x :: l2))%nat.
Proof.
  intros Hs Hxm. destruct (ascending_split l1 l2 x Hs) as [H1 _].
  rewrite count_app, count_cons.
  rewrite (count_all (at_most m) l1).
  - change (at_most m x) with (Qle_bool x m).
    apply Qle_bool_iff in Hxm. rewrite Hxm. lia.
  - eapply Forall_impl; [| exact H1]. cbn. intros y Hy.
    apply Qle_bool_iff. lra.
Qed.

Lemma count_above (l1 l2 : list Q) (x m : Q) :
  ascending (l1 ++ x :: l2) -> (m <= x)%Q ->
  (length l2 + 1 <= count (at_least m) (l1 ++ x :: l2))%nat.
Proof.
  intros Hs Hxm. destruct (ascending_split l1 l2 x Hs) as [_ H2].
  rewrite count_app, count_cons.
  rewrite (count_all (at_least m) l2).
  - change (at_least m x) with (Qle_bool m x).
    apply Qle_bool_iff in Hxm. rewrite Hxm. lia.
  - eapply Forall_impl; [| exact H2]. cbn. intros y Hy.
    apply Qle_bool_iff. lra.
Qed.

Lemma not_equal (x t : Q) : ~ (x == t)%Q -> equal_to t x = false.
Proof.
  intros H. unfold equal_to. destruct (Qeq_bool x t) eqn:E; [| reflexivity].
  apply Qeq_bool_iff in E. contradiction.
Qed.

Lemma count_equal_low (l1 l2 : list Q) (x t : Q) :
  ascending (l1 ++ x :: l2) -> (x < t)%Q ->
  (count (equal_to t) (l1 ++ x :: l2) <= length l2)%nat.
Proof.
  intros Hs Hxt. destruct (ascending_split l1 l2 x Hs) as [H1 _].
  rewrite count_app, count_cons, (count_none (equal_to t) l1).
  - rewrite (not_equal x t) by lra. cbn. apply count_le_length.
  - eapply Forall_impl; [| exact H1]. cbn. intros y Hy.
    apply not_equal. lra.
Qed.

Lemma count_equal_high (l1 l2 : list Q) (x t : Q) :
  ascending (l1 ++ x :: l2) -> (t < x)%Q ->
  (count (equal_to t) (l1 ++ x :: l2) <= length l1)%nat.
Proof.
  intros Hs Hxt. destruct (ascending_split l1 l2 x Hs) as [_ H2].
  rewrite count_app, count_cons, (count_none (equal_to t) l2).
  - rewrite (not_equal x t) by lra. pose proof (count_le_length (equal_to t) l1).
    lia.
  - eapply Forall_impl; [| exact H2]. cbn. intros y Hy.
    apply not_equal. lra.
Qed.

(** The shape of the sorted values around the middle. *)
Inductive Middle (s : list Q) : option Q -> Prop :=
| middle_odd l1 m l2 :
    s = l1 ++ m :: l2 -> length l1 = length l2 -> Middle s (Some m)
| middle_even l1 a b l2 :
    s = l1 ++ a :: b :: l2 -> length l1 = length l2 ->
    Middle s (Some ((a + b) / 2)%Q).

Lemma median_middle (l : list Q) :
  l <> [] -> Middle (Py.sorted_by (fun q => q) l) (median l).
Proof.
  intros Hne. unfold median.
  set (s := Py.sorted_by (fun q => q) l).
  assert (Hlen : length s = length l) by apply length_sorted_by.
  assert (Hpos : (0 < length l)%nat)
    by (destruct l; [contradiction | cbn; lia]).
  destruct (Nat.eqb_spec (length l) 0) as [H0 | _]; [lia |].
  destruct (Nat.odd (length l)) eqn:Hodd.
  - destruct (nth_error s (length l / 2)) as [m |] eqn:Hm.
    + destruct (nth_error_split s _ Hm) as (l1 & l2 & Hs & Hl1).
      apply (middle_odd s l1 m l2 Hs).
      assert (Hn : length s = (length l1 + S (length l2))%nat)
        by (rewrite Hs, length_app; reflexivity).
      apply Nat.odd_spec in Hodd. destruct Hodd as [k Hk]. 
      assert (length l / 2 = k)%nat by (rewrite Hk; clear; 
        rewrite Nat.add_comm, Nat.mul_comm; rewrite Nat.div_add by lia; reflexivity).
      lia.
    + apply nth_error_None in Hm.
      pose proof (Nat.Div0.div_le_upper_bound (length l) 2 (length l)).
      assert (length l / 2 < length l)%nat by (apply Nat.div_lt; lia). lia.
  - assert (Heven : Nat.even (length l) = true)
      by (rewrite <- Nat.negb_odd, Hodd; reflexivity).
    apply Nat.even_spec in Heven. destruct Heven as [k Hk].
    assert (Hhalf : (length l / 2 = k)%nat)
      by (rewrite Hk, Nat.mul_comm; apply Nat.div_mul; lia).
    rewrite Hhalf.
    destruct (nth_error s (k - 1)) as [a |] eqn:Ha;
      [| apply nth_error_None in Ha; lia].
    destruct (nth_error s k) as [b |] eqn:Hb;
      [| apply nth_error_None in Hb; lia].
    destruct (nth_error_split s _ Ha) as (l1 & l2 & Hs & Hl1).
    assert (Hb' : nth_error (l1 ++ a :: l2) (length l1 + 1) = Some b).
    { rewrite <- Hs. replace (length l1 + 1)%nat with k by lia. exact Hb. }
    rewrite nth_error_app2 in Hb' by lia.
    replace (length l1 + 1 - length l1)%nat with 1%nat in Hb' by lia.
    destruct l2 as [| b' l2]; [discriminate |]. cbn in Hb'. inversion Hb'; subst b'.
    apply (middle_even s l1 a b l2 Hs).
    assert (Hn : length s = (length l1 + S (S (length l2)))%nat)
      by (rewrite Hs, length_app; reflexivity).
    lia.
Qed.

Lemma half_sum_between (a b : Q) :
  (a <= b -> a <= (a + b) / 2 /\ (a + b) / 2 <= b)%Q.
Proof.
  intros H.
  assert (E : ((a + b) / 2 == (1 # 2) * (a + b))%Q) by field.
  rewrite E. split; lra.
Qed.

Lemma ascending_adjacent (l1 l2 : list Q) (a b : Q) :
  ascending (l1 ++ a :: b :: l2) -> (a <= b)%Q.
Proof.
  intros Hs. destruct (ascending_split l1 (b :: l2) a Hs) as [_ H].
  now inversion H.
Qed.

(** [np.median] returns a median. *)
Lemma median_is_median (l : list Q) :
  l <> [] -> exists m, median l = Some m /\ is_median l m.
Proof.
  intros Hne. pose proof (median_middle l Hne) as Hmid.
  pose proof (sorted_by_ascending l) as Hasc.
  pose proof (length_sorted_by (fun q => q) l) as Hlen.
  unfold is_median.
  inversion Hmid as [l1 m l2 Hs Hl Hm | l1 a b l2 Hs Hl Hm].
  - exists m. split; [reflexivity |].
    rewrite <- (count_sorted_by (fun q => q) (at_most m) l),
      <- (count_sorted_by (fun q => q) (at_least m) l).
    rewrite Hs in Hasc, Hlen |- *. rewrite length_app in Hlen. cbn in Hlen.
    pose proof (count_below l1 l2 m m Hasc ltac:(lra)).
    pose proof (count_above l1 l2 m m Hasc ltac:(lra)).
    lia.
  - exists ((a + b) / 2)%Q. split; [reflexivity |].
    rewrite <- (count_sorted_by (fun q => q) (at_most ((a + b) / 2)) l),
      <- (count_sorted_by (fun q => q) (at_least ((a + b) / 2)) l).
    rewrite Hs in Hasc, Hlen |- *. rewrite length_app in Hlen. cbn in Hlen.
    destruct (half_sum_between a b (ascending_adjacent l1 l2 a b Hasc))
      as [Hlo Hhi].
    pose proof (count_below l1 (b :: l2) a _ Hasc Hlo) as Hbelow.
    assert (Hasc' : ascending ((l1 ++ [a]) ++ b :: l2))
      by (now rewrite <- app_assoc).
    pose proof (count_above (l1 ++ [a]) l2 b _ Hasc' Hhi) as Habove.
    rewrite <- app_assoc in Habove. cbn in Habove.
    lia.
Qed.

(** When more than half of the values equal [t], [np.median] is [t]. *)
Lemma median_of_majority (l : list Q) (t : Q) :
  (length l < 2 * count (equal_to t) l)%nat ->
  exists m, median l = Some m /\ (m == t)%Q.
Proof.
  intros Hmaj.
  assert (Hne : l <> []) by (intros ->; cbn in Hmaj; lia).
  pose proof (median_middle l Hne) as Hmid.
  pose proof (sorted_by_ascending l) as Hasc.
  pose proof (length_sorted_by (fun q => q) l) as Hlen.
  rewrite <- (count_sorted_by (fun q => q) (equal_to t) l) in Hmaj.
  inversion Hmid as [l1 m l2 Hs Hl Hm | l1 a b l2 Hs Hl Hm].
  - exists m. split; [reflexivity |].
    rewrite Hs in Hasc, Hlen, Hmaj. rewrite length_app in Hlen. cbn in Hlen.
    destruct (Q_dec m t) as [[Hlt | Hgt] | Heq]; [| | exact Heq].
    + pose proof (count_equal_low l1 l2 m t Hasc Hlt). lia.
    + pose proof (count_equal_high l1 l2 m t Hasc Hgt). lia.
  - exists ((a + b) / 2)%Q. split; [reflexivity |].
    rewrite Hs in Hasc, Hlen, Hmaj. rewrite length_app in Hlen. cbn in Hlen.
    pose proof (ascending_adjacent l1 l2 a b Hasc) as Hab.
    assert (Hta : (t <= a)%Q).
    { destruct (Qlt_le_dec a t) as [Hlt | Hle]; [| exact Hle].
      pose proof (count_equal_low l1 (b :: l2) a t Hasc Hlt) as H.
      cbn in H. lia. }
    assert (Hbt : (b <= t)%Q).
    { destruct (Qlt_le_dec t b) as [Hlt | Hle]; [| exact Hle].
      assert (Hasc' : ascending ((l1 ++ [a]) ++ b :: l2))
        by (now rewrite <- app_assoc).
      pose proof (count_equal_high (l1 ++ [a]) l2 b t Hasc' Hlt) as H.
      rewrite <- app_assoc, length_app in H. cbn in H. lia. }
    assert (E : ((a + b) / 2 == (1 # 2) * (a + b))%Q) by field.
    rewrite E. lra.
Qed.

(** *** The estimated translation *)

(** The displacement of a match: previous keypoint minus current. *)
Definition displacement (kp_curr kp_last : list KeyPoint) (m : DMatch)
    (o : Q * Q) : Prop :=
  exists kc kl,
    Py.index kp_curr (queryIdx m) = Some kc /\
    Py.index kp_last (trainIdx m) = Some kl /\
    o = ((fst (pt kl) - fst (pt kc))%Q, (snd (pt kl) - snd (pt kc))%Q).

(** The displacement is the integer vector [t]. *)
Definition agrees (t : Z * Z) (o : Q * Q) : bool :=
  Qeq_bool (fst o) (inject_Z (fst t)) && Qeq_bool (snd o) (inject_Z (snd t)).

Lemma offsets_of_displacements kp_curr kp_last (matches : list DMatch) :
  forall offsets,
    offsets_of kp_curr (Some kp_last) matches = Some offsets ->
    Forall2 (displacement kp_curr kp_last) matches offsets.
Proof.
  induction matches as [| m matches IH]; cbn; intros offsets H.
  - inversion H. constructor.
  - unfold offset in H. cbn [Py.bind] in H.
    destruct (Py.index kp_curr (queryIdx m)) as [kc |] eqn:Hc;
      cbn [Py.bind] in H; [| discriminate].
    destruct (Py.index kp_last (trainIdx m)) as [kl |] eqn:Hl;
      cbn [Py.bind] in H; [| discriminate].
    destruct (offsets_of kp_curr (Some kp_last) matches) as [os |];
      cbn [Py.bind] in H; [| discriminate].
    inversion H; subst. constructor; [| apply IH; reflexivity].
    exists kc, kl. repeat split; assumption.
Qed.

(** The estimate on its own: for ten or more matches whose keypoints
    are all found, the offsets are the per-match displacements (previous
    keypoint minus current), and [(dx, dy)] is, on each axis, a nearest
    integer (ties to even) to a median of the displacements.
    Consequently, when at least 60% of the displacements equal one
    integer vector, the estimate is that vector. *)
Lemma translation_of_offsets
    (kp_curr kp_last : list KeyPoint) (matches : list DMatch)
    (offsets : list (Q * Q)) (true_offset : Z * Z)
    (Hmatches : (10 <= length matches)%nat)
    (Hoffsets : offsets_of kp_curr (Some kp_last) matches = Some offsets) :
  Forall2 (displacement kp_curr kp_last) matches offsets /\
  (exists mx my,
     median (map fst offsets) = Some mx /\ is_median (map fst offsets) mx /\
     median (map snd offsets) = Some my /\ is_median (map snd offsets) my /\
     translation offsets = Some (Py.round mx, Py.round my) /\
     nearest_integer mx (Py.round mx) /\ nearest_integer my (Py.round my)) /\
  ((6 * length offsets <= 10 * count (agrees true_offset) offsets)%nat ->
   translation offsets = Some true_offset).
Proof.
  pose proof (offsets_of_displacements _ _ _ _ Hoffsets) as Hdisp.
  assert (Hlen : length offsets = length matches)
    by (symmetry; apply (Forall2_length Hdisp)).
  assert (Hx : map fst offsets <> [])
    by (destruct offsets; [cbn in Hlen; lia | discriminate]).
  assert (Hy : map snd offsets <> [])
    by (destruct offsets; [cbn in Hlen; lia | discriminate]).
  split; [exact Hdisp |]. split.
  - destruct (median_is_median _ Hx) as (mx & Emx & Hmx).
    destruct (median_is_median _ Hy) as (my & Emy & Hmy).
    exists mx, my. unfold translation. rewrite Emx, Emy. cbn [Py.bind].
    repeat split; try assumption; try apply round_nearest.
    + apply Hmx.
    + apply Hmx.
    + apply Hmy.
    + apply Hmy.
  - intros Hmost. destruct true_offset as [tx ty].
    assert (Hcx : (count (agrees (tx, ty)) offsets
                   <= count (equal_to (inject_Z tx)) (map fst offsets))%nat).
    { apply count_map_le. intros o Ho. unfold agrees in Ho.
      apply andb_true_iff in Ho. apply Ho. }
    assert (Hcy : (count (agrees (tx, ty)) offsets
                   <= count (equal_to (inject_Z ty)) (map snd offsets))%nat).
    { apply count_map_le. intros o Ho. unfold agrees in Ho.
      apply andb_true_iff in Ho. apply Ho. }
    destruct (median_of_majority (map fst offsets) (inject_Z tx))
      as (mx & Emx & Hmx); [rewrite length_map; lia |].
    destruct (median_of_majority (map snd offsets) (inject_Z ty))
      as (my & Emy & Hmy); [rewrite length_map; lia |].
    unfold translation. rewrite Emx, Emy. cbn [Py.bind].
    rewrite (round_comp _ _ Hmx), (round_comp _ _ Hmy), !round_inject_Z.
    reflexivity.
Qed.

(** Ten matches against a previous tile shifted by [(3, -2)]: six
    agree, four are outliers. *)
Definition current_keypoints : list KeyPoint :=
  map (fun i => {| pt := (inject_Z (Z.of_nat i) * 10 + (1 # 2), 5)%Q |})
    (seq 0 10).

Definition shifts : list (Q * Q) :=
  [ (3, -2); (100, 50); (3, -2); (3, -2); (-40, 7);
    (3, -2); (3, 9); (3, -2); (8, -2); (3, -2) ]%Q.

Definition previous_keypoints : list KeyPoint :=
  map (fun p => {| pt := (fst (pt (fst p)) + fst (snd p),
                         snd (pt (fst p)) + snd (snd p))%Q |})
    (combine current_keypoints shifts).

Definition ten_matches : list DMatch :=
  map (fun i => {| queryIdx := Z.of_nat i; trainIdx := Z.of_nat i;
                   distance := inject_Z (Z.of_nat (7 * i mod 10)) |})
    (seq 0 10).

Definition ten_offsets : list (Q * Q) :=
  Eval vm_compute in
    match offsets_of current_keypoints (Some previous_keypoints)
            (Py.sorted_by distance ten_matches) with
    | Some os => os
    | None => []
    end.

Example translation_of_ten_offsets :
  translation ten_offsets = Some (3, -2).
Proof.
  refine (proj2 (proj2 (translation_of_offsets current_keypoints previous_keypoints
                          (Py.sorted_by distance ten_matches) ten_offsets
                          (3, -2) _ _)) _).
  - vm_compute. lia.
  - vm_compute. reflexivity.
  - vm_compute. lia.
Defined.

End MedianFacts.

(** ** Tracking controller *)

Module ControlFacts.

Import Servo Control.

Local Open Scope string_scope.
Local Open Scope list_scope.
Local Open Scope Z_scope.

Lemma deadzone_is_stop (center_x center_y cx cy : Z) :
  Z.abs (cx - center_x) < DEADZONE -> Z.abs (cy - center_y) < DEADZONE ->
  compute_motor_direction (Some center_x) (Some center_y) cx cy = ("S", "S").
Proof.
  intros Hx Hy. unfold compute_motor_direction.
  apply Z.ltb_lt in Hx, Hy. now rewrite Hx, Hy.
Qed.

(** X1. Inside the global deadzone the command is STOP on both axes,
    and so it is, wherever the target is, whenever either coordinate of
    the frame centre is still [None]. *)
Theorem direction_inside_deadzone (cx cy : Z) :
  (forall center_x center_y,
     Z.abs (cx - center_x) < DEADZONE -> Z.abs (cy - center_y) < DEADZONE ->
     compute_motor_direction (Some center_x) (Some center_y) cx cy
     = ("S", "S")) /\
  (forall frame_center_x frame_center_y,
     frame_center_x = None \/ frame_center_y = None ->
     compute_motor_direction frame_center_x frame_center_y cx cy
     = ("S", "S")).
Proof.
  split.
  - intros center_x center_y Hx Hy. apply deadzone_is_stop; assumption.
  - intros frame_center_x frame_center_y [-> | ->].
    + reflexivity.
    + destruct frame_center_x; reflexivity.
Qed.

Lemma direction_inside_deadzone_witness :
  compute_motor_direction (Some 320) (Some 240) 349 191 = ("S", "S") /\
  compute_motor_direction None None 900 900 = ("S", "S") /\
  compute_motor_direction (Some 320) None 900 900 = ("S", "S").
Proof.
  split; [| split].
  - refine (proj1 (direction_inside_deadzone 349 191) 320 240 _ _);
      reflexivity.
  - exact (proj2 (direction_inside_deadzone 900 900) None None
             (or_introl eq_refl)).
  - exact (proj2 (direction_inside_deadzone 900 900) (Some 320) None
             (or_intror eq_refl)).
Defined.

(** X2. Outside the global deadzone the command is never STOP on both
    axes, each axis moves exactly when its own error exceeds the axis
    threshold, and it moves toward the target: down for a target below
    the centre, up for one above, right and left likewise. *)
Theorem direction_outside_deadzone (center_x center_y cx cy : Z)
    (Hout : DEADZONE <= Z.abs (cx - center_x) \/
            DEADZONE <= Z.abs (cy - center_y)) :
  let cmd := compute_motor_direction (Some center_x) (Some center_y) cx cy in
  cmd <> ("S", "S") /\
  (fst cmd = "D" <-> AXIS_THRESHOLD < cy - center_y) /\
  (fst cmd = "U" <-> cy - center_y < - AXIS_THRESHOLD) /\
  (fst cmd = "S" <-> Z.abs (cy - center_y) <= AXIS_THRESHOLD) /\
  (snd cmd = "R" <-> AXIS_THRESHOLD < cx - center_x) /\
  (snd cmd = "L" <-> cx - center_x < - AXIS_THRESHOLD) /\
  (snd cmd = "S" <-> Z.abs (cx - center_x) <= AXIS_THRESHOLD).
Proof.
  unfold compute_motor_direction, DEADZONE, AXIS_THRESHOLD in *.
  assert (Hdz : (Z.abs (cx - center_x) <? 50) && (Z.abs (cy - center_y) <? 50)
                = false).
  { apply andb_false_iff.
    destruct Hout; [left | right]; apply Z.ltb_ge; assumption. }
  rewrite Hdz. cbv zeta.
  destruct (Z.ltb_spec 30 (Z.abs (cy - center_y)));
    destruct (Z.ltb_spec 0 (cy - center_y));
    destruct (Z.ltb_spec 30 (Z.abs (cx - center_x)));
    destruct (Z.ltb_spec 0 (cx - center_x)); cbn [fst snd];
    repeat split; intros; try discriminate; try congruence; try lia.
Qed.

Lemma direction_outside_deadzone_witness :
  snd (compute_motor_direction (Some 320) (Some 240) 400 250) = "R".
Proof.
  destruct (direction_outside_deadzone 320 240 400 250
              ltac:(left; cbv; discriminate)) as (_ & _ & _ & _ & H & _).
  apply H. reflexivity.
Defined.

Lemma simple_keeps_ledger (s : Stage) (y x : string) (now : Q)
    (io : LinkBehaviour) :
  let r := send_motor_command_simple s y x now io in
  abs_x (fst r) = abs_x s /\ abs_y (fst r) = abs_y s /\ set (fst r) = set s.
Proof.
  unfold send_motor_command_simple.
  destruct (String.eqb y "S" && String.eqb x "S").
  - destruct (arduino_connected s); [| cbn; auto].
    destruct (arduino s); [| cbn; auto].
    destruct io; cbn; auto.
  - destruct (negb _); [cbn; auto |].
    destruct (arduino_connected s); [| cbn; auto].
    destruct (arduino s); [| cbn; auto].
    destruct io; cbn; auto.
Qed.

Lemma center_on_keeps_ledger (auto : bool) (fx fy : option Z) (s : Stage)
    (c : Z * Z) (now : Q) (io : LinkBehaviour) :
  let s' := center_on auto fx fy s c now io in
  abs_x s' = abs_x s /\ abs_y s' = abs_y s /\ set s' = set s.
Proof.
  unfold center_on. destruct (auto && arduino_connected s); [| cbn; auto].
  destruct c as [cx cy].
  destruct (compute_motor_direction fx fy cx cy) as [y x].
  apply simple_keeps_ledger.
Qed.

(** X3. Auto-centering commands bypass the position ledger:
    [send_motor_command_simple] never changes [(abs_x, abs_y)] or the
    home flag, whatever it sends; so a homed stage at the origin is
    driven downward, outside the boundary [send_step] enforces, with the
    ledger still reading [(0, 0)]. *)
Theorem simple_dispatch_bypasses_ledger (s : Stage) (y x : string) (now : Q)
    (io : LinkBehaviour) :
  let r := send_motor_command_simple s y x now io in
  (abs_x (fst r) = abs_x s /\ abs_y (fst r) = abs_y s /\
   set (fst r) = set s) /\
  (forall p,
     arduino_connected s = true -> arduino s = Some p ->
     (MOTOR_COMMAND_INTERVAL <= now - last_motor_command_time s)%Q ->
     io = LinkOk ->
     wire (fst r) = wire s ++ [command_line y x] /\ snd r = true).
Proof.
  split; [apply simple_keeps_ledger |].
  unfold send_motor_command_simple.
  intros p Hc Hp Hdue ->. apply Qle_bool_iff in Hdue.
  unfold wire. rewrite Hc, Hp, Hdue. cbn.
  destruct (String.eqb y "S" && String.eqb x "S"); cbn; auto.
Qed.

(** A homed stage at the origin, well past the rate-limit window. *)
Definition homed_stage : Stage := set_home ServoFacts.connected_stage.

Example simple_dispatch_crosses_boundary :
  let r := send_motor_command_simple homed_stage "D" "S" 10 LinkOk in
  snd r = true /\ wire (fst r) = [command_line "D" "S"] /\
  abs_y (fst r) = 0 /\
  snd (send_step homed_stage "D" "S" LinkOk) = false.
Proof. cbv. repeat split. Qed.

(** X4. While the target sits inside the deadzone, every tracked frame
    puts a STOP on the wire: the direction is STOP, and STOP is exempt
    from rate limiting.  The timer and the ledger are left alone. *)
Theorem centered_target_sends_stop_every_frame
    (s : Stage) (p : Serial) (center_x center_y cx cy : Z) (now : Q)
    (Hconnected : arduino_connected s = true) (Hport : arduino s = Some p)
    (Hx : Z.abs (cx - center_x) < DEADZONE)
    (Hy : Z.abs (cy - center_y) < DEADZONE) :
  let s' := center_on true (Some center_x) (Some center_y) s (cx, cy) now
              LinkOk in
  wire s' = wire s ++ [command_line "S" "S"] /\
  last_motor_command_time s' = last_motor_command_time s /\
  abs_x s' = abs_x s /\ abs_y s' = abs_y s /\
  (forall p', arduino s' = Some p' ->
     wire (center_on true (Some center_x) (Some center_y) s' (cx, cy) now
             LinkOk)
     = wire s ++ [command_line "S" "S"; command_line "S" "S"]).
Proof.
  assert (Hstep : forall (t : Stage) (q : Serial),
            arduino_connected t = true -> arduino t = Some q ->
            let t' := center_on true (Some center_x) (Some center_y) t
                        (cx, cy) now LinkOk in
            wire t' = wire t ++ [command_line "S" "S"] /\
            last_motor_command_time t' = last_motor_command_time t /\
            abs_x t' = abs_x t /\ abs_y t' = abs_y t /\
            arduino_connected t' = true).
  { intros t q Hc Hq. unfold center_on. rewrite Hc. cbn [andb].
    rewrite (deadzone_is_stop center_x center_y cx cy Hx Hy).
    unfold send_motor_command_simple, wire.
    cbn [String.eqb Ascii.eqb Bool.eqb andb]. rewrite Hc, Hq. cbn.
    rewrite Hc. repeat split. }
  intros s'. destruct (Hstep s p Hconnected Hport) as (Hw & Ht & Hax & Hay & Hc').
  fold s' in Hw, Ht, Hax, Hay, Hc'.
  repeat split; try assumption.
  intros p' Hp'. destruct (Hstep s' p' Hc' Hp') as (Hw' & _).
  rewrite Hw', Hw, <- app_assoc. reflexivity.
Qed.

Lemma centered_target_sends_stop_every_frame_witness :
  wire (center_on true (Some 320) (Some 240) ServoFacts.connected_stage
          (330, 235) 1 LinkOk)
  = [command_line "S" "S"].
Proof.
  refine (proj1 (centered_target_sends_stop_every_frame
                   ServoFacts.connected_stage {| written := [] |}
                   320 240 330 235 1 eq_refl eq_refl _ _)); reflexivity.
Defined.

Lemma stop_step_passes (s : Stage) (p : Serial) :
  arduino_connected s = true -> arduino s = Some p ->
  (set s = true -> 0 <= abs_x s /\ 0 <= abs_y s) ->
  let r := send_step s "S" "S" LinkOk in
  snd r = true /\ wire (fst r) = wire s ++ [command_line "S" "S"] /\
  abs_x (fst r) = abs_x s /\ abs_y (fst r) = abs_y s.
Proof.
  intros Hconnected Hport Hledger r.
  destruct (ServoFacts.send_step_cases s "S" "S" LinkOk)
    as [(Hf & _) | (_ & Ht & Hw & Hx & Hy & _)].
  - exfalso. fold r in Hf. subst r. revert Hf.
    unfold send_step. rewrite Hconnected, Hport.
    change (prospective_x (abs_x s) "S") with (abs_x s).
    change (prospective_y (abs_y s) "S") with (abs_y s).
    destruct (set s) eqn:Hs; cbn [andb].
    + destruct (Hledger eq_refl) as [H1 H2].
      destruct (Z.ltb_spec (abs_x s) 0); [lia |].
      destruct (Z.ltb_spec (abs_y s) 0); [lia |]. cbn. discriminate.
    + cbn. discriminate.
  - fold r in Ht, Hw, Hx, Hy. repeat split; assumption.
Qed.

Lemma send_step_keeps_link (s : Stage) (y x : string) (io : LinkBehaviour) :
  arduino_connected (fst (send_step s y x io)) = arduino_connected s /\
  Py.truthy (arduino (fst (send_step s y x io))) = Py.truthy (arduino s).
Proof.
  unfold send_step.
  destruct (arduino_connected s) eqn:Hc; [| cbn; auto].
  destruct (arduino s) as [p |] eqn:Hp; [| cbn; rewrite Hp; auto].
  destruct (set s && _); [cbn; rewrite Hp; auto |].
  destruct (set s && _); [cbn; rewrite Hp; auto |].
  destruct io; cbn; rewrite ?Hc, ?Hp; auto.
Qed.

Lemma run_steps_keeps_link (calls : list StepCall) (s : Stage) :
  arduino_connected (run_steps s calls) = arduino_connected s /\
  Py.truthy (arduino (run_steps s calls)) = Py.truthy (arduino s).
Proof.
  revert s. induction calls as [| c calls IH]; intros s; [split; reflexivity |].
  cbn. destruct (IH (fst (send_step s (step_y c) (step_x c) (step_link c))))
    as [H1 H2].
  destruct (send_step_keeps_link s (step_y c) (step_x c) (step_link c))
    as [H3 H4].
  unfold run_steps in *. split; congruence.
Qed.

(** X5. STOP always gets through [send_step] on a healthy link: for a
    stage that is not homed, or homed with a non-negative ledger, the
    boundary check never blocks [('S', 'S')]; it is written and the
    ledger does not move.  This covers every state reached from
    [set_home] by [send_step] calls. *)
Theorem stop_step_is_never_blocked (s : Stage) (p : Serial)
    (calls : list StepCall)
    (Hconnected : arduino_connected s = true) (Hport : arduino s = Some p) :
  ((set s = true -> 0 <= abs_x s /\ 0 <= abs_y s) ->
   let r := send_step s "S" "S" LinkOk in
   snd r = true /\ wire (fst r) = wire s ++ [command_line "S" "S"] /\
   abs_x (fst r) = abs_x s /\ abs_y (fst r) = abs_y s) /\
  (let s' := run_steps (set_home s) calls in
   let r := send_step s' "S" "S" LinkOk in
   snd r = true /\ wire (fst r) = wire s' ++ [command_line "S" "S"] /\
   abs_x (fst r) = abs_x s' /\ abs_y (fst r) = abs_y s').
Proof.
  split; [apply (stop_step_passes s p Hconnected Hport) |].
  intros s'.
  assert (Hhome : ServoFacts.homed (set_home s)).
  { unfold set_home. rewrite Hconnected, Hport. cbn.
    unfold ServoFacts.homed. cbn. lia. }
  pose proof (ServoFacts.run_steps_keeps_homed calls _ Hhome) as (_ & Hx & Hy).
  destruct (run_steps_keeps_link calls (set_home s)) as [Hc Ht].
  fold s' in Hx, Hy, Hc, Ht.
  assert (Hc' : arduino_connected s' = true).
  { rewrite Hc. unfold set_home. rewrite Hconnected, Hport. exact Hconnected. }
  destruct (arduino s') as [p' |] eqn:Hp'.
  - apply (stop_step_passes s' p' Hc' Hp'). intros _. split; assumption.
  - exfalso. unfold set_home in Ht.
    rewrite Hconnected, Hport in Ht. cbn in Ht. rewrite Hport in Ht.
    discriminate Ht.
Qed.

Lemma stop_step_is_never_blocked_witness :
  wire (fst (send_step homed_stage "S" "S" LinkOk)) = [command_line "S" "S"].
Proof.
  refine (proj1 (proj2 (proj1 (stop_step_is_never_blocked homed_stage
                                 {| written := [] |} [] eq_refl eq_refl) _))).
  intros _. cbv. split; discriminate.
Defined.

(** X6. [stop_stitching] clears the three run flags and never moves the
    ledger; on a healthy link, with the ledger inside the homed
    boundary, it puts exactly one STOP on the wire. *)
Theorem stop_stitching_stops (f : Flags) (s : Stage) (io : LinkBehaviour) :
  let r := stop_stitching f s io in
  (stitching_active (fst r) = false /\ is_stitching (fst r) = false /\
   auto_scan_active (fst r) = false) /\
  (abs_x (snd r) = abs_x s /\ abs_y (snd r) = abs_y s /\
   set (snd r) = set s) /\
  (forall p,
     arduino_connected s = true -> arduino s = Some p -> io = LinkOk ->
     (set s = true -> 0 <= abs_x s /\ 0 <= abs_y s) ->
     wire (snd r) = wire s ++ [command_line "S" "S"]).
Proof.
  unfold stop_stitching. cbn [fst snd]. split; [repeat split |]. split.
  - destruct (arduino_connected s && Py.truthy (arduino s)); cbn;
      [| repeat split].
    destruct (ServoFacts.send_step_cases s "S" "S" io)
      as [(_ & Hx & Hy & Hs & _) | (_ & _ & _ & Hx & Hy & Hs & _)];
      repeat split; assumption.
  - intros p Hc Hp -> Hledger. rewrite Hc, Hp. cbn [andb Py.truthy].
    destruct (stop_step_passes s p Hc Hp Hledger) as (_ & Hw & _).
    unfold wire in *. cbn [arduino with_status]. exact Hw.
Qed.

(** X7. A legacy command name moves the ledger by at most one step on
    one axis; a name outside the table returns [False] and touches
    nothing, not even the status line. *)
Theorem legacy_command_moves_one_step (s : Stage) (command : string)
    (io : LinkBehaviour) :
  let r := send_arduino_command s command io in
  Z.abs (abs_x (fst r) - abs_x s) + Z.abs (abs_y (fst r) - abs_y s) <= 1 /\
  (command_map command = None -> r = (s, false)).
Proof.
  unfold send_arduino_command, command_map. split.
  - repeat match goal with
           | |- context [String.eqb command ?c] =>
               destruct (String.eqb command c)
           end;
      try (cbn [fst snd]; lia);
      match goal with
      | |- context [send_step s ?y ?x io] =>
          destruct (ServoFacts.send_step_cases s y x io)
            as [(_ & Hx & Hy & _) | (_ & _ & _ & Hx & Hy & _)];
            rewrite Hx, Hy; cbn; lia
      end.
  - repeat match goal with
           | |- context [String.eqb command ?c] =>
               destruct (String.eqb command c)
           end; try discriminate. reflexivity.
Qed.

End ControlFacts.

(** ** Motor control of the tracker *)

Module ServoTrackerFacts.

Import ServoTracker.

Local Open Scope string_scope.
Local Open Scope list_scope.
Local Open Scope Z_scope.

(** A tracker centred on a 640 by 480 frame, driving a connected stage. *)
Definition tracker_640 : Motor :=
  set_frame_dimensions
    {| motor_controller := Some ServoFacts.connected_stage;
       auto_tracking_enabled := true;
       CENTER_X := None; CENTER_Y := None;
       last_command_time := 0; commands_sent := 0;
       tracking_errors := [] |}
    640 480.

Lemma int_of_half (e : Z) :
  (10 <= e -> 5 <= Py.int_of (inject_Z e / 2)) /\
  (e <= -10 -> Py.int_of (inject_Z e / 2) <= -5) /\
  Py.int_of (inject_Z 0 / 2) = 0.
Proof.
  assert (Hdiv : forall q : Q, (q / 2 == q * (1 # 2))%Q)
    by (intros q; field).
  split; [| split; [| reflexivity]].
  - intros He. unfold Py.int_of.
    assert (Hq : (5 <= inject_Z e / 2)%Q).
    { rewrite Hdiv. rewrite Zle_Qle in He.
      change (inject_Z 10) with 10%Q in He. lra. }
    assert (Hpos : Qle_bool 0 (inject_Z e / 2) = true)
      by (apply Qle_bool_iff; lra).
    rewrite Hpos. apply Qfloor_resp_le in Hq.
    change 5%Q with (inject_Z 5) in Hq. now rewrite Qfloor_Z in Hq.
  - intros He. unfold Py.int_of.
    assert (Hq : (inject_Z e / 2 <= -5)%Q).
    { rewrite Hdiv. rewrite Zle_Qle in He.
      change (inject_Z (-10)) with (-10)%Q in He. lra. }
    assert (Hneg : Qle_bool 0 (inject_Z e / 2) = false).
    { destruct (Qle_bool 0 (inject_Z e / 2)) eqn:E; [| reflexivity].
      apply Qle_bool_iff in E. lra. }
    rewrite Hneg. apply Qceiling_resp_le in Hq.
    change (-5)%Q with (inject_Z (-5)) in Hq. now rewrite Qceiling_Z in Hq.
Qed.

(** The step count on one axis, for the default calibration. *)
Lemma axis_steps (error : Z) :
  let dead := if Z.abs error <? DEADZONE_PIXELS then 0 else error in
  clamp_steps (Py.int_of (inject_Z dead / 2)) MAX_STEPS_PER_COMMAND
  = if Z.abs error <? DEADZONE_PIXELS then 0
    else if 0 <? error then MAX_STEPS_PER_COMMAND
    else - MAX_STEPS_PER_COMMAND.
Proof.
  unfold DEADZONE_PIXELS, MAX_STEPS_PER_COMMAND, clamp_steps. cbv zeta.
  destruct (int_of_half error) as (Hpos & Hneg & Hzero).
  destruct (Z.ltb_spec (Z.abs error) 10) as [Hin | Hout].
  - rewrite Hzero. reflexivity.
  - destruct (Z.ltb_spec 0 error).
    + specialize (Hpos ltac:(lia)). lia.
    + specialize (Hneg ltac:(lia)). lia.
Qed.

Lemma motor_steps_core (m : Motor) (cx cy center_x center_y : Z) :
  CENTER_X m = Some center_x -> CENTER_Y m = Some center_y ->
  fst (snd (compute_motor_steps m cx cy))
  = (if Z.abs (cx - center_x) <? DEADZONE_PIXELS then 0
     else if 0 <? cx - center_x then MAX_STEPS_PER_COMMAND
     else - MAX_STEPS_PER_COMMAND) /\
  snd (snd (compute_motor_steps m cx cy))
  = (if Z.abs (cy - center_y) <? DEADZONE_PIXELS then 0
     else if 0 <? cy - center_y then MAX_STEPS_PER_COMMAND
     else - MAX_STEPS_PER_COMMAND).
Proof.
  intros Hx Hy. unfold compute_motor_steps. rewrite Hx, Hy. cbn [fst snd].
  unfold PIXELS_PER_STEP_X, PIXELS_PER_STEP_Y.
  rewrite <- (axis_steps (cx - center_x)), <- (axis_steps (cy - center_y)).
  split; reflexivity.
Qed.

(** X8. With the default calibration the tracker's step computation is
    bang-bang: on each axis the result is [0] inside the 10 px deadzone
    and otherwise the full [MAX_STEPS_PER_COMMAND], signed like the
    error; with no frame centre it is [(0, 0)] and nothing is logged. *)
Theorem motor_steps_are_bang_bang (m : Motor) (cx cy : Z) :
  (forall center_x center_y,
     CENTER_X m = Some center_x -> CENTER_Y m = Some center_y ->
     snd (compute_motor_steps m cx cy)
     = ((if Z.abs (cx - center_x) <? DEADZONE_PIXELS then 0
         else if 0 <? cx - center_x then MAX_STEPS_PER_COMMAND
         else - MAX_STEPS_PER_COMMAND),
        (if Z.abs (cy - center_y) <? DEADZONE_PIXELS then 0
         else if 0 <? cy - center_y then MAX_STEPS_PER_COMMAND
         else - MAX_STEPS_PER_COMMAND))) /\
  (CENTER_X m = None \/ CENTER_Y m = None ->
   compute_motor_steps m cx cy = (m, (0, 0))).
Proof.
  split.
  - intros X Y HX HY.
    destruct (motor_steps_core m cx cy X Y HX HY) as [Hsx Hsy].
    rewrite <- Hsx, <- Hsy.
    now destruct (snd (compute_motor_steps m cx cy)).
  - unfold compute_motor_steps.
    intros [-> | ->]; [reflexivity |]. now destruct (CENTER_X m).
Qed.

Example steps_for_a_target_right_and_slightly_above :
  snd (compute_motor_steps tracker_640 400 235) = (5, 0).
Proof. reflexivity. Qed.

(** The error log after a sequence of targets. *)
Definition log_targets (m : Motor) (targets : list (Z * Z)) : Motor :=
  fold_left (fun m t => fst (compute_motor_steps m (fst t) (snd t))) targets m.

Lemma compute_motor_steps_log (m : Motor) (cx cy : Z) :
  (length (tracking_errors m) <= 101)%nat ->
  (length (tracking_errors (fst (compute_motor_steps m cx cy))) <= 101)%nat.
Proof.
  intros H. unfold compute_motor_steps.
  destruct (CENTER_X m); [| exact H]. destruct (CENTER_Y m); [| exact H].
  cbn [fst with_errors tracking_errors]. rewrite length_app. cbn [length].
  destruct (Nat.ltb_spec 100 (length (tracking_errors m))).
  - destruct (tracking_errors m); cbn in *; lia.
  - lia.
Qed.

(** X9. The tracker's error log is bounded: however many targets are
    processed, it never holds more than 101 entries, and it changes
    nothing else of the tracker. *)
Theorem error_log_is_bounded (m : Motor) (targets : list (Z * Z))
    (Hlog : (length (tracking_errors m) <= 101)%nat) :
  let m' := log_targets m targets in
  (length (tracking_errors m') <= 101)%nat /\
  motor_controller m' = motor_controller m /\
  last_command_time m' = last_command_time m /\
  commands_sent m' = commands_sent m.
Proof.
  revert m Hlog. induction targets as [| t targets IH]; intros m Hlog.
  - repeat split. exact Hlog.
  - cbn. destruct (IH (fst (compute_motor_steps m (fst t) (snd t))))
      as (H1 & H2 & H3 & H4).
    + apply compute_motor_steps_log. exact Hlog.
    + unfold log_targets in *. split; [exact H1 |].
      rewrite H2, H3, H4. unfold compute_motor_steps.
      destruct (CENTER_X m), (CENTER_Y m); repeat split.
Qed.

Definition three_hundred_frames : list (Z * Z) := repeat (400, 235) 300.

Lemma error_log_is_bounded_witness :
  (length (tracking_errors (log_targets tracker_640 three_hundred_frames))
   <= 101)%nat.
Proof.
  refine (proj1 (error_log_is_bounded tracker_640 three_hundred_frames _)).
  cbn. lia.
Defined.

(** X10. [send_motor_command] uses only the sign of the steps.  With a
    controller attached, a call either fails and leaves the timer, the
    counter and the ledger alone; or has nothing to do (both steps
    zero) and changes nothing; or was due, wrote one direction code,
    moved the ledger by exactly one step against the sign of [steps_x]
    and along the sign of [steps_y], restarted the timer and counted
    the command. *)
Theorem motor_command_uses_sign_only (m : Motor) (stage : Servo.Stage)
    (steps_x steps_y : Z) (now : Q) (io : Servo.LinkBehaviour)
    (Hcontroller : motor_controller m = Some stage) :
  let r := send_motor_command m steps_x steps_y now io in
  (snd r = false /\
   last_command_time (fst r) = last_command_time m /\
   commands_sent (fst r) = commands_sent m /\
   exists stage', motor_controller (fst r) = Some stage' /\
                  Servo.abs_x stage' = Servo.abs_x stage /\
                  Servo.abs_y stage' = Servo.abs_y stage)
  \/
  (steps_x = 0 /\ steps_y = 0 /\ r = (m, true))
  \/
  (snd r = true /\
   (MIN_COMMAND_INTERVAL <= now - last_command_time m)%Q /\
   last_command_time (fst r) = now /\
   commands_sent (fst r) = commands_sent m + 1 /\
   exists stage', motor_controller (fst r) = Some stage' /\
                  Servo.abs_x stage' = Servo.abs_x stage - Z.sgn steps_x /\
                  Servo.abs_y stage' = Servo.abs_y stage + Z.sgn steps_y /\
                  Servo.wire stage'
                  = Servo.wire stage ++
                    [Servo.command_line
                       (fst (direction_of_steps steps_x steps_y))
                       (snd (direction_of_steps steps_x steps_y))]).
Proof.
  unfold send_motor_command. rewrite Hcontroller.
  destruct (Qle_bool MIN_COMMAND_INTERVAL (now - last_command_time m))
    eqn:Hdue; cbn [negb].
  2:{ left. cbn. rewrite Hcontroller. repeat split. exists stage. auto. }
  apply Qle_bool_iff in Hdue.
  assert (Hmove : forall y x,
    let r := let '(stage', success) := Servo.send_step stage y x io in
             if success then (with_command m stage' now, true)
             else (with_controller m stage', false) in
    (snd r = false /\
     last_command_time (fst r) = last_command_time m /\
     commands_sent (fst r) = commands_sent m /\
     exists stage', motor_controller (fst r) = Some stage' /\
                    Servo.abs_x stage' = Servo.abs_x stage /\
                    Servo.abs_y stage' = Servo.abs_y stage)
    \/
    (snd r = true /\
     last_command_time (fst r) = now /\
     commands_sent (fst r) = commands_sent m + 1 /\
     exists stage', motor_controller (fst r) = Some stage' /\
                    Servo.abs_x stage'
                    = Servo.prospective_x (Servo.abs_x stage) x /\
                    Servo.abs_y stage'
                    = Servo.prospective_y (Servo.abs_y stage) y /\
                    Servo.wire stage'
                    = Servo.wire stage ++ [Servo.command_line y x])).
  { intros y x.
    pose proof (ServoFacts.send_step_cases stage y x io) as Hcases.
    destruct (Servo.send_step stage y x io) as [stage' success].
    cbn [fst snd] in Hcases.
    destruct Hcases as [(-> & Hx & Hy & _) | (_ & -> & Hw & Hx & Hy & _)].
    - left. cbn. repeat split. exists stage'. auto.
    - right. cbn. repeat split. exists stage'. auto. }
  destruct steps_x as [| px | px], steps_y as [| py | py];
    cbn [direction_of_steps Z.ltb Z.compare String.eqb Ascii.eqb Bool.eqb
         negb orb andb fst snd Z.sgn];
    try (right; left; repeat split; reflexivity);
    match goal with
    | |- context [Servo.send_step stage ?y ?x io] =>
        destruct (Hmove y x) as [H | (H1 & H2 & H3 & st & H4 & H5 & H6 & H7)];
          [left; exact H |
           right; right; repeat split; try assumption;
           exists st; repeat split; try assumption;
           rewrite ?H5, ?H6; cbn; lia]
    end.
Qed.

Example right_five_steps_moves_the_ledger_once :
  let r := send_motor_command tracker_640 5 0 1 Servo.LinkOk in
  snd r = true /\ commands_sent (fst r) = 1 /\
  option_map Servo.abs_x (motor_controller (fst r)) = Some (-1) /\
  option_map Servo.wire (motor_controller (fst r))
  = Some [Servo.command_line "S" "R"].
Proof. cbv. repeat split. Qed.

Lemma motor_command_uses_sign_only_witness :
  snd (send_motor_command tracker_640 0 0 1 Servo.LinkOk) = true.
Proof.
  destruct (motor_command_uses_sign_only tracker_640
              ServoFacts.connected_stage 0 0 1 Servo.LinkOk eq_refl)
    as [(H & _) | [(_ & _ & H) | (H & _)]].
  - discriminate H.
  - rewrite H. reflexivity.
  - exact H.
Defined.

(** X11. While the target is within the tracker's deadzone on both
    axes, a pass of the motor loop sends nothing: the controller, the
    timer and the counter are untouched and only the error log gains
    one [(0, 0)] entry. *)
Theorem motor_pass_idle_in_deadzone (m : Motor) (center_x center_y cx cy : Z)
    (now : Q) (io : Servo.LinkBehaviour) (tracking_active : bool)
    (Hcx : CENTER_X m = Some center_x) (Hcy : CENTER_Y m = Some center_y)
    (Hx : Z.abs (cx - center_x) < DEADZONE_PIXELS)
    (Hy : Z.abs (cy - center_y) < DEADZONE_PIXELS) :
  let m' := motor_control_pass tracking_active (Some (cx, cy)) m now io in
  motor_controller m' = motor_controller m /\
  last_command_time m' = last_command_time m /\
  commands_sent m' = commands_sent m /\
  (tracking_active && auto_tracking_enabled m = true ->
   tracking_errors m'
   = (if (100 <? length (tracking_errors m))%nat
      then tl (tracking_errors m) else tracking_errors m) ++ [(0, 0)]).
Proof.
  unfold motor_control_pass.
  destruct (tracking_active && auto_tracking_enabled m);
    [| repeat split; discriminate].
  unfold compute_motor_steps. rewrite Hcx, Hcy.
  apply Z.ltb_lt in Hx, Hy. rewrite Hx, Hy.
  change (clamp_steps (Py.int_of (inject_Z 0 / PIXELS_PER_STEP_X))
            MAX_STEPS_PER_COMMAND) with 0.
  change (clamp_steps (Py.int_of (inject_Z 0 / PIXELS_PER_STEP_Y))
            MAX_STEPS_PER_COMMAND) with 0.
  cbn. repeat split.
Qed.

Lemma motor_pass_idle_in_deadzone_witness :
  commands_sent
    (motor_control_pass true (Some (325, 236)) tracker_640 1 Servo.LinkOk)
  = 0.
Proof.
  refine (proj1 (proj2 (proj2 (motor_pass_idle_in_deadzone tracker_640
                                 320 240 325 236 1 Servo.LinkOk true
                                 eq_refl eq_refl _ _)))); reflexivity.
Defined.

(** X12. The two controllers disagree on the vertical direction.  For a
    target at least 50 px above or below the centre (outside both
    deadzones), wherever it is horizontally,
    [compute_motor_direction] commands down for a target below the
    centre and up for one above, while the direction
    [send_motor_command] derives from [compute_motor_steps] is the
    opposite.  For a target at least 50 px to the left or right of the
    centre, wherever it is vertically, the two agree on the horizontal
    direction. *)
Theorem controllers_disagree_on_vertical (m : Motor)
    (center_x center_y cx cy : Z)
    (Hcx : CENTER_X m = Some center_x) (Hcy : CENTER_Y m = Some center_y) :
  let steps := snd (compute_motor_steps m cx cy) in
  let tracker := direction_of_steps (fst steps) (snd steps) in
  let main :=
    Control.compute_motor_direction (Some center_x) (Some center_y) cx cy in
  (Control.DEADZONE <= Z.abs (cy - center_y) ->
   fst main = (if 0 <? cy - center_y then "D" else "U") /\
   fst tracker = (if 0 <? cy - center_y then "U" else "D")) /\
  (Control.DEADZONE <= Z.abs (cx - center_x) ->
   snd main = (if 0 <? cx - center_x then "R" else "L") /\
   snd tracker = snd main).
Proof.
  destruct (motor_steps_core m cx cy center_x center_y Hcx Hcy) as [Hsx Hsy].
  cbv zeta. rewrite Hsx, Hsy.
  unfold Control.compute_motor_direction, Control.DEADZONE,
    Control.AXIS_THRESHOLD, DEADZONE_PIXELS, MAX_STEPS_PER_COMMAND,
    direction_of_steps in *.
  split.
  - intros Hy.
    assert (Hdz : (Z.abs (cx - center_x) <? 50)
                  && (Z.abs (cy - center_y) <? 50) = false).
    { apply andb_false_iff. right. apply Z.ltb_ge. exact Hy. }
    rewrite Hdz. cbv zeta. cbn [fst snd].
    destruct (Z.ltb_spec (Z.abs (cy - center_y)) 10); [lia |].
    destruct (Z.ltb_spec 30 (Z.abs (cy - center_y))); [| lia].
    split; [reflexivity |].
    destruct (Z.ltb_spec 0 (cy - center_y)); reflexivity.
  - intros Hx.
    assert (Hdz : (Z.abs (cx - center_x) <? 50)
                  && (Z.abs (cy - center_y) <? 50) = false).
    { apply andb_false_iff. left. apply Z.ltb_ge. exact Hx. }
    rewrite Hdz. cbv zeta. cbn [fst snd].
    destruct (Z.ltb_spec (Z.abs (cx - center_x)) 10); [lia |].
    destruct (Z.ltb_spec 30 (Z.abs (cx - center_x))); [| lia].
    split; [reflexivity |].
    destruct (Z.ltb_spec 0 (cx - center_x)); reflexivity.
Qed.

Lemma controllers_disagree_on_vertical_witness :
  fst (Control.compute_motor_direction (Some 320) (Some 240) 320 340) = "D" /\
  fst (direction_of_steps
         (fst (snd (compute_motor_steps tracker_640 320 340)))
         (snd (snd (compute_motor_steps tracker_640 320 340)))) = "U".
Proof.
  destruct (controllers_disagree_on_vertical tracker_640 320 240 320 340
              eq_refl eq_refl) as [Hvertical _].
  destruct (Hvertical ltac:(cbv; discriminate)) as [H1 H2].
  split; [exact H1 | exact H2].
Defined.

End ServoTrackerFacts.

(** ** Per-frame tracking update *)

Module TrackingFacts.

Import Tracker Tracking TrackerFacts.

Local Open Scope Z_scope.

Lemma squared_distance_zero (p q : Point) :
  squared_distance p q = 0 -> p = q.
Proof.
  destruct p as [a b], q as [c d]. unfold squared_distance. cbn.
  intros H.
  pose proof (Z.square_nonneg (a - c)) as Ha.
  pose proof (Z.square_nonneg (b - d)) as Hb.
  assert (Ha0 : (a - c) * (a - c) = 0) by lia.
  assert (Hb0 : (b - d) * (b - d) = 0) by lia.
  apply Z.mul_eq_0 in Ha0, Hb0. f_equal; lia.
Qed.

Lemma length_deque_append (maxlen : nat) (d : list Point) (p : Point) :
  (length (deque_append maxlen d p) <= maxlen)%nat.
Proof. unfold deque_append. rewrite length_skipn. lia. Qed.

Lemma length_append_and_trim (history : list Point) (c : Point) :
  (length history <= 50)%nat ->
  (length (append_and_trim history c) <= 50)%nat.
Proof.
  intros H. unfold append_and_trim.
  destruct (Nat.ltb_spec 50 (length (history ++ [c]))) as [Hlong | Hshort].
  - rewrite length_app in Hlong. cbn in Hlong.
    destruct history; cbn in *; [lia |]. rewrite length_app. cbn. lia.
  - exact Hshort.
Qed.

Section Selection.

Variable Contour : Type.
Variable moments : Contour -> Moments.

Local Abbreviation centroid := (centroid Contour moments).
Local Abbreviation degenerate := (degenerate Contour moments).
Local Abbreviation find_nearest_contour := (find_nearest_contour Contour moments).
Local Abbreviation near_target := (near_target Contour moments).
Local Abbreviation filter_contours_near_target :=
  (filter_contours_near_target Contour moments).
Local Abbreviation update_tracking := (update_tracking Contour moments).
Local Abbreviation update_block := (update_block Contour moments).
Local Abbreviation lose_track := (lose_track Contour).
Local Abbreviation handle_click_selection :=
  (handle_click_selection Contour moments).
Local Abbreviation reach := (reach Contour moments).
Local Abbreviation found := (found Contour moments).

Lemma fold_append_filter (f : Contour -> bool) (l acc : list Contour) :
  fold_left (fun filtered cnt => if f cnt then filtered ++ [cnt] else filtered)
    l acc
  = acc ++ filter f l.
Proof.
  revert acc. induction l as [| x l IH]; intros acc; cbn.
  - now rewrite app_nil_r.
  - rewrite IH. destruct (f x); [| reflexivity].
    now rewrite <- app_assoc.
Qed.

(** The filter keeps exactly the contours with a centroid within the
    search radius, in their order. *)
Lemma filter_near_spec (contours : list Contour) (target : Point) :
  filter_contours_near_target contours (Some target)
  = filter (near_target target) contours.
Proof. unfold Tracking.filter_contours_near_target. apply fold_append_filter. Qed.

Lemma near_target_spec (target : Point) (cnt : Contour) :
  near_target target cnt = true <->
  degenerate cnt = false /\ reach target cnt <= SEARCH_RADIUS * SEARCH_RADIUS.
Proof.
  unfold Tracking.near_target, TrackerFacts.reach.
  destruct (degenerate cnt); cbn.
  - split; [discriminate | intros [H _]; discriminate].
  - rewrite Z.leb_le. tauto.
Qed.

(** With some contour within the search radius, the update accepts a
    contour nearest to the target among all candidates. *)
Lemma update_tracking_accepts (t : Track Contour) (contours : list Contour)
    (target : Point) (cnt : Contour) :
  tracking_active t = true -> target_position t = Some target ->
  In cnt contours -> degenerate cnt = false ->
  reach target cnt <= SEARCH_RADIUS * SEARCH_RADIUS ->
  exists best,
    In best contours /\ degenerate best = false /\
    reach target best <= reach target cnt /\
    (forall other, In other contours -> degenerate other = false ->
                   reach target best <= reach target other) /\
    update_tracking t contours
    = ({| tracking_active := true;
          target_position := Some (centroid best);
          target_history := deque_append 50 (target_history t) (centroid best);
          selected_contour := Some best;
          click_position := click_position t;
          awaiting_selection := awaiting_selection t |},
       Some best).
Proof.
  intros Hactive Htarget Hin Hnd Hnear.
  unfold Tracking.update_tracking. rewrite Hactive, Htarget, filter_near_spec.
  assert (Hcnt : In cnt (filter (near_target target) contours)).
  { apply filter_In. split; [exact Hin |]. apply near_target_spec. auto. }
  destruct (find_nearest_contour_searched Contour moments
              (filter (near_target target) contours) target)
    as [(_ & Hall) | (best & Hbin & Hbnd & Hst & Hmin)].
  { rewrite (Hall cnt Hcnt) in Hnd. discriminate. }
  apply filter_In in Hbin. destruct Hbin as [Hbin Hbnear].
  apply near_target_spec in Hbnear. destruct Hbnear as [_ Hbnear].
  exists best. split; [exact Hbin |]. split; [exact Hbnd |].
  split; [apply (Hmin cnt Hcnt Hnd) |]. split.
  - intros other Ho Hond.
    destruct (Z.le_gt_cases (reach target other)
                (SEARCH_RADIUS * SEARCH_RADIUS)) as [Hle | Hgt].
    + apply Hmin; [| exact Hond]. apply filter_In. split; [exact Ho |].
      apply near_target_spec. auto.
    + lia.
  - destruct (filter (near_target target) contours) as [| c0 rest] eqn:Hf;
      [destruct Hcnt |].
    rewrite Hst. cbn [nearest_contour nearest_centroid]. reflexivity.
Qed.

(** X13. [update_tracking] does nothing unless the tracker is locked,
    and when no candidate has a non-degenerate centroid within the 150
    px search radius of the target it returns [None] and leaves the
    tracker as it was: still locked on the old position. *)
Theorem update_tracking_without_candidates (t : Track Contour)
    (contours : list Contour) :
  (tracking_active t = false \/ target_position t = None ->
   update_tracking t contours = (t, None)) /\
  (forall target,
     target_position t = Some target ->
     (forall cnt, In cnt contours -> degenerate cnt = false ->
                  SEARCH_RADIUS * SEARCH_RADIUS < reach target cnt) ->
     update_tracking t contours = (t, None)).
Proof.
  unfold Tracking.update_tracking. split.
  - intros [-> | ->]; [reflexivity |]. now destruct (tracking_active t).
  - intros target Htarget Hfar. rewrite Htarget.
    destruct (tracking_active t); [| reflexivity].
    rewrite filter_near_spec.
    assert (Hnil : filter (near_target target) contours = []).
    { clear Htarget. induction contours as [| c l IH]; [reflexivity |].
      cbn [filter]. destruct (near_target target c) eqn:E.
      - apply near_target_spec in E. destruct E as [Hnd Hle].
        specialize (Hfar c (or_introl eq_refl) Hnd). lia.
      - apply IH. intros cnt Hin. apply Hfar. right. exact Hin. }
    rewrite Hnil. reflexivity.
Qed.

(** X14. With a lock and some candidate within the 150 px search
    radius, [update_tracking] moves the target to the centroid of a
    candidate nearest to the old target (even when that is a jump of
    more than 100 px), stays locked, returns that candidate, and keeps
    at most 50 positions of history. *)
Theorem update_tracking_follows_nearest (t : Track Contour)
    (contours : list Contour) (target : Point) (cnt : Contour)
    (Hactive : tracking_active t = true)
    (Htarget : target_position t = Some target)
    (Hin : In cnt contours) (Hnd : degenerate cnt = false)
    (Hnear : reach target cnt <= SEARCH_RADIUS * SEARCH_RADIUS) :
  let r := update_tracking t contours in
  exists best,
    snd r = Some best /\ selected_contour (fst r) = Some best /\
    In best contours /\ degenerate best = false /\
    reach target best <= SEARCH_RADIUS * SEARCH_RADIUS /\
    (forall other, In other contours -> degenerate other = false ->
                   reach target best <= reach target other) /\
    tracking_active (fst r) = true /\
    target_position (fst r) = Some (centroid best) /\
    target_history (fst r)
    = deque_append 50 (target_history t) (centroid best) /\
    (length (target_history (fst r)) <= 50)%nat.
Proof.
  destruct (update_tracking_accepts t contours target cnt Hactive Htarget
              Hin Hnd Hnear) as (best & Hbin & Hbnd & Hble & Hmin & Hupd).
  intros r. subst r. rewrite Hupd. cbn [fst snd].
  exists best. repeat split; try assumption; try lia.
  apply length_deque_append.
Qed.

(** X15. Selection followed by an update on the same contours holds
    the position: after a successful click selection, [update_tracking]
    with the same candidates stays locked on the selected centroid, and
    the history holds it twice. *)
Theorem selection_then_update_holds_position (t : Track Contour)
    (contours : list Contour) (click : Point) (cnt : Contour)
    (Hawait : awaiting_selection t = true)
    (Hclick : click_position t = Some click)
    (Hin : In cnt contours) (Hnd : degenerate cnt = false)
    (Hnear : reach click cnt < 100 * 100) :
  let t1 := handle_click_selection t contours in
  let r := update_tracking t1 contours in
  exists c,
    target_position t1 = Some c /\
    tracking_active (fst r) = true /\
    target_position (fst r) = Some c /\
    target_history (fst r) = [c; c] /\
    snd r <> None.
Proof.
  destruct (near_search_succeeds Contour moments contours click cnt Hin Hnd
              Hnear) as (best & (Hbin & Hbnd & Hst & _) & Hbnear).
  intros t1.
  assert (Ht1 : t1 = {| tracking_active := true;
                        target_position := Some (centroid best);
                        target_history := [centroid best];
                        selected_contour := Some best;
                        click_position := None;
                        awaiting_selection := false |}).
  { subst t1. unfold Tracker.handle_click_selection.
    rewrite Hawait, Hclick, Hst.
    cbn [nearest_contour nearest_centroid min_distance].
    assert (Hpass : dist_lt_const (Sqrt (reach click best)) 100 = true)
      by (cbn; apply Z.ltb_lt; exact Hbnear).
    rewrite Hpass. reflexivity. }
  assert (Hzero : reach (centroid best) best = 0).
  { unfold TrackerFacts.reach, squared_distance. lia. }
  destruct (update_tracking_accepts t1 contours (centroid best) best)
    as (best' & _ & _ & Hle & _ & Hupd);
    try (rewrite Ht1; reflexivity); try assumption.
  { rewrite Hzero. unfold SEARCH_RADIUS. lia. }
  assert (Hsame : centroid best' = centroid best).
  { apply squared_distance_zero.
    pose proof (Z.square_nonneg (fst (centroid best') - fst (centroid best))).
    pose proof (Z.square_nonneg (snd (centroid best') - snd (centroid best))).
    unfold TrackerFacts.reach, squared_distance in *. lia. }
  intros r. subst r. rewrite Hupd. cbn [fst snd].
  exists (centroid best). rewrite Hsame, Ht1. cbn.
  repeat split. discriminate.
Qed.

(** The STOP of a lost track reaches the wire: there is a port object
    and its [write] does not raise. *)
Definition stop_goes_out (s : Servo.Stage) (io : Servo.LinkBehaviour) : bool :=
  match Servo.arduino s, io with
  | Some _, Servo.WriteRaises _ => false
  | Some _, _ => true
  | None, _ => false
  end.

Lemma stop_simple_wire (s : Servo.Stage) (now : Q) (io : Servo.LinkBehaviour) :
  Servo.arduino_connected s = true ->
  let s' := fst (Servo.send_motor_command_simple s "S" "S" now io) in
  Servo.wire s'
  = Servo.wire s ++
    (if stop_goes_out s io then [Servo.command_line "S" "S"] else []) /\
  Servo.last_motor_command_time s' = Servo.last_motor_command_time s.
Proof.
  intros Hc. unfold Servo.send_motor_command_simple, Servo.wire, stop_goes_out.
  cbn [String.eqb Ascii.eqb Bool.eqb andb]. rewrite Hc.
  destruct (Servo.arduino s) as [p |] eqn:Hp.
  - destruct io; cbn; rewrite ?Hp, ?app_nil_r; split; reflexivity.
  - cbn. rewrite Hp. split; reflexivity.
Qed.

(** What the update block of the main loop leaves of a lost track. *)
Lemma lose_track_spec (l : Loop Contour) (now : Q) (io : Servo.LinkBehaviour) :
  let l1 := lose_track l now io in
  tracking_active (trk l1) = false /\
  target_position (trk l1) = target_position (trk l) /\
  target_history (trk l1) = target_history (trk l) /\
  Servo.abs_x (stage l1) = Servo.abs_x (stage l) /\
  Servo.abs_y (stage l1) = Servo.abs_y (stage l) /\
  (auto_centering_enabled l && Servo.arduino_connected (stage l)
   && negb (motor_stop_sent l) = true ->
   motor_stop_sent l1 = true /\
   Servo.wire (stage l1)
   = Servo.wire (stage l) ++
     (if stop_goes_out (stage l) io then [Servo.command_line "S" "S"]
      else []) /\
   Servo.last_motor_command_time (stage l1)
   = Servo.last_motor_command_time (stage l)) /\
  (auto_centering_enabled l && Servo.arduino_connected (stage l)
   && negb (motor_stop_sent l) = false ->
   stage l1 = stage l /\ motor_stop_sent l1 = motor_stop_sent l).
Proof.
  unfold Tracking.lose_track. cbv zeta.
  destruct (auto_centering_enabled l && Servo.arduino_connected (stage l)
            && negb (motor_stop_sent l)) eqn:Hstop; cbn [trk stage
      motor_stop_sent tracking_active target_position target_history].
  - destruct (ControlFacts.simple_keeps_ledger (stage l) "S" "S" now io)
      as (Hx & Hy & _).
    apply andb_true_iff in Hstop. destruct Hstop as [Hstop _].
    apply andb_true_iff in Hstop. destruct Hstop as [_ Hc].
    destruct (stop_simple_wire (stage l) now io Hc) as [Hw Ht].
    repeat split; try assumption; try discriminate.
  - repeat split; discriminate.
Qed.

(** X16. In the main loop a lost track is final until the next click:
    when no candidate has a non-degenerate centroid less than 100 px
    from the target, the update block unlocks, keeps the last position
    and history and never moves the ledger.  Exactly when
    auto-centering is on, the Arduino is connected and no STOP has gone
    out yet, it attempts one STOP and sets [motor_stop_sent], whether
    or not the attempt succeeds: the STOP line is on the wire unless
    there is no port object or the write raises, and the command timer
    is not restarted.  Otherwise the stage and [motor_stop_sent] stay
    as they were.  Every later frame leaves the state exactly as it
    is. *)
Theorem lost_track_is_final (l : Loop Contour) (contours : list Contour)
    (target : Point) (now : Q) (io : Servo.LinkBehaviour)
    (Hactive : tracking_active (trk l) = true)
    (Htarget : target_position (trk l) = Some target)
    (Hfar : none_within_100 Contour moments contours target) :
  let l1 := update_block l contours now io in
  tracking_active (trk l1) = false /\
  target_position (trk l1) = Some target /\
  target_history (trk l1) = target_history (trk l) /\
  Servo.abs_x (stage l1) = Servo.abs_x (stage l) /\
  Servo.abs_y (stage l1) = Servo.abs_y (stage l) /\
  (auto_centering_enabled l && Servo.arduino_connected (stage l)
   && negb (motor_stop_sent l) = true ->
   motor_stop_sent l1 = true /\
   Servo.wire (stage l1)
   = Servo.wire (stage l) ++
     (if stop_goes_out (stage l) io then [Servo.command_line "S" "S"]
      else []) /\
   Servo.last_motor_command_time (stage l1)
   = Servo.last_motor_command_time (stage l)) /\
  (auto_centering_enabled l && Servo.arduino_connected (stage l)
   && negb (motor_stop_sent l) = false ->
   stage l1 = stage l /\ motor_stop_sent l1 = motor_stop_sent l) /\
  (forall later now' io', update_block l1 later now' io' = l1).
Proof.
  intros l1.
  assert (Hl1 : l1 = lose_track l now io).
  { subst l1. unfold Tracking.update_block. cbv zeta.
    rewrite Hactive, Htarget.
    destruct (far_search_fails Contour moments contours target Hfar)
      as [Hnone | Hfail].
    - rewrite Hnone. reflexivity.
    - unfold MAX_JUMP_DISTANCE. rewrite Hfail.
      destruct (nearest_contour (find_nearest_contour contours target)),
        (nearest_centroid (find_nearest_contour contours target));
        reflexivity. }
  destruct (lose_track_spec l now io)
    as (H1 & H2 & H3 & H4 & H5 & H6 & H7).
  rewrite <- Hl1 in H1, H2, H3, H4, H5, H6, H7.
  split; [exact H1 |]. split; [rewrite H2; exact Htarget |].
  split; [exact H3 |]. split; [exact H4 |]. split; [exact H5 |].
  split; [exact H6 |]. split; [exact H7 |].
  intros later now' io'. unfold Tracking.update_block. cbv zeta.
  rewrite H1. reflexivity.
Qed.

(** X17. In the main loop, with a lock and some candidate less than 100
    px from the target, the update block moves the target to the
    centroid of a nearest candidate, stays locked, keeps the history
    within 50 positions, clears the STOP flag and leaves the ledger
    alone. *)
Theorem update_block_follows_nearest (l : Loop Contour)
    (contours : list Contour) (target : Point) (cnt : Contour) (now : Q)
    (io : Servo.LinkBehaviour)
    (Hactive : tracking_active (trk l) = true)
    (Htarget : target_position (trk l) = Some target)
    (Hin : In cnt contours) (Hnd : degenerate cnt = false)
    (Hnear : reach target cnt < MAX_JUMP_DISTANCE * MAX_JUMP_DISTANCE)
    (Hhistory : (length (target_history (trk l)) <= 50)%nat) :
  let l1 := update_block l contours now io in
  exists best,
    In best contours /\ degenerate best = false /\
    reach target best < MAX_JUMP_DISTANCE * MAX_JUMP_DISTANCE /\
    (forall other, In other contours -> degenerate other = false ->
                   reach target best <= reach target other) /\
    tracking_active (trk l1) = true /\
    target_position (trk l1) = Some (centroid best) /\
    selected_contour (trk l1) = Some best /\
    target_history (trk l1)
    = append_and_trim (target_history (trk l)) (centroid best) /\
    (length (target_history (trk l1)) <= 50)%nat /\
    motor_stop_sent l1 = false /\
    Servo.abs_x (stage l1) = Servo.abs_x (stage l) /\
    Servo.abs_y (stage l1) = Servo.abs_y (stage l).
Proof.
  destruct (near_search_succeeds Contour moments contours target cnt Hin Hnd
              Hnear) as (best & (Hbin & Hbnd & Hst & Hmin) & Hbnear).
  intros l1. subst l1. unfold Tracking.update_block. cbv zeta.
  rewrite Hactive, Htarget, Hst.
  cbn [nearest_contour nearest_centroid min_distance].
  assert (Hpass : dist_lt_const (Sqrt (reach target best)) MAX_JUMP_DISTANCE
                  = true) by (cbn; apply Z.ltb_lt; exact Hbnear).
  rewrite Hpass.
  cbn [trk stage motor_stop_sent tracking_active target_position
       target_history selected_contour].
  destruct (ControlFacts.center_on_keeps_ledger (auto_centering_enabled l)
              (frame_center_x l) (frame_center_y l) (stage l) (centroid best)
              now io) as (Hx & Hy & _).
  exists best. repeat split; try assumption.
  apply length_append_and_trim. exact Hhistory.
Qed.

End Selection.

(** A locked main loop with auto-centering on, target at [(170, 40)]. *)
Definition locked_loop : Loop Moments :=
  {| trk := {| tracking_active := true; target_position := Some (170, 40);
               target_history := [(170, 40)]; selected_contour := None;
               click_position := None; awaiting_selection := false |};
     stage := ServoFacts.connected_stage;
     auto_centering_enabled := true;
     frame_center_x := Some 320; frame_center_y := Some 240;
     motor_stop_sent := false |}.

Lemma selection_then_update_holds_position_witness :
  target_position
    (fst (update_tracking Moments (fun m => m)
            (handle_click_selection Moments (fun m => m)
               (track (clicked (60, 45))) [sliver; blob_b; blob_a])
            [sliver; blob_b; blob_a]))
  = Some (50, 40).
Proof.
  destruct (selection_then_update_holds_position Moments (fun m => m)
              (track (clicked (60, 45))) [sliver; blob_b; blob_a] (60, 45)
              blob_a eq_refl eq_refl)
    as (c & H1 & _ & H3 & _).
  - right. right. left. reflexivity.
  - reflexivity.
  - reflexivity.
  - rewrite H3, <- H1. reflexivity.
Defined.

Lemma lost_track_is_final_witness :
  Servo.wire
    (stage (update_block Moments (fun m => m) locked_loop
              [sliver; blob_b; blob_a] 1 Servo.LinkOk))
  = [Servo.command_line "S" "S"] /\
  (let l1 :=
     update_block Moments (fun m => m) locked_loop [sliver; blob_b; blob_a] 1
       (Servo.WriteRaises "port closed") in
   motor_stop_sent l1 = true /\ Servo.wire (stage l1) = []).
Proof.
  assert (Hfar : none_within_100 Moments (fun m => m)
                   [sliver; blob_b; blob_a] (170, 40)).
  { intros cnt [<- | [<- | [<- | []]]] Hnd; cbv in Hnd |- *; congruence. }
  split.
  - destruct (lost_track_is_final Moments (fun m => m) locked_loop
                [sliver; blob_b; blob_a] (170, 40) 1 Servo.LinkOk
                eq_refl eq_refl Hfar) as (_ & _ & _ & _ & _ & H & _).
    destruct (H eq_refl) as (_ & Hw & _). exact Hw.
  - destruct (lost_track_is_final Moments (fun m => m) locked_loop
                [sliver; blob_b; blob_a] (170, 40) 1
                (Servo.WriteRaises "port closed")
                eq_refl eq_refl Hfar) as (_ & _ & _ & _ & _ & H & _).
    destruct (H eq_refl) as (Hsent & Hw & _). split; [exact Hsent | exact Hw].
Defined.

(** The same loop with the target at [(100, 40)], 50 px from a blob. *)
Definition following_loop : Loop Moments :=
  {| trk := {| tracking_active := true; target_position := Some (100, 40);
               target_history := [(100, 40)]; selected_contour := None;
               click_position := None; awaiting_selection := false |};
     stage := ServoFacts.connected_stage;
     auto_centering_enabled := true;
     frame_center_x := Some 320; frame_center_y := Some 240;
     motor_stop_sent := true |}.

Lemma update_block_follows_nearest_witness :
  motor_stop_sent
    (update_block Moments (fun m => m) following_loop
       [sliver; blob_b; blob_a] 1 Servo.LinkOk) = false.
Proof.
  destruct (update_block_follows_nearest Moments (fun m => m) following_loop
              [sliver; blob_b; blob_a] (100, 40) blob_a 1 Servo.LinkOk
              eq_refl eq_refl)
    as (best & _ & _ & _ & _ & _ & _ & _ & _ & _ & H & _).
  - right. right. left. reflexivity.
  - reflexivity.
  - reflexivity.
  - cbn. lia.
  - exact H.
Defined.

Lemma update_tracking_follows_nearest_witness :
  target_position
    (fst (update_tracking Moments (fun m => m)
            {| tracking_active := true; target_position := Some (170, 40);
               target_history := [(170, 40)]; selected_contour := None;
               click_position := None; awaiting_selection := false |}
            [sliver; blob_b; blob_a]))
  = Some (50, 40).
Proof.
  destruct (update_tracking_follows_nearest Moments (fun m => m)
              {| tracking_active := true; target_position := Some (170, 40);
                 target_history := [(170, 40)]; selected_contour := None;
                 click_position := None; awaiting_selection := false |}
              [sliver; blob_b; blob_a] (170, 40) blob_a eq_refl eq_refl)
    as (best & _ & _ & _ & _ & _ & _ & _ & H & _).
  - right. right. left. reflexivity.
  - reflexivity.
  - cbv. discriminate.
  - reflexivity.
Defined.

End TrackingFacts.

(** ** Canvas contents *)

Module CanvasFacts.

Import Img Mosaic.

Local Open Scope Z_scope.

(** [(r, c)] lies in the window with top-left corner [(y, x)] and shape
    [(h, w)]. *)
Definition inside (y x h w r c : Z) : Prop :=
  y <= r < y + h /\ x <= c < x + w.

Lemma slice_in_bounds (len start n : Z) :
  0 <= start -> 0 <= n -> start + n <= len ->
  Py.slice len start (start + n) = (start, n).
Proof.
  intros H1 H2 H3. unfold Py.slice, Py.slice_bound.
  destruct (Z.ltb_spec start 0); [lia |].
  destruct (Z.ltb_spec (start + n) 0); [lia |].
  f_equal; lia.
Qed.

Lemma inside_test (y x h w r c : Z) :
  (y <=? r) && (r <? y + h) && (x <=? c) && (c <? x + w) = true
  <-> inside y x h w r c.
Proof.
  unfold inside. rewrite !andb_true_iff, !Z.leb_le, !Z.ltb_lt. tauto.
Qed.

(** Writing a window that lies on the array. *)
Lemma assign_window (a v : Image) (y x : Z) :
  0 <= y -> 0 <= height v -> y + height v <= height a ->
  0 <= x -> 0 <= width v -> x + width v <= width a ->
  exists a',
    assign a y (y + height v) x (x + width v) v = Some a' /\
    height a' = height a /\ width a' = width a /\
    (forall r c, inside y x (height v) (width v) r c ->
                 px a' r c = px v (r - y) (c - x)) /\
    (forall r c, ~ inside y x (height v) (width v) r c ->
                 px a' r c = px a r c).
Proof.
  intros Hy Hh Hyh Hx Hw Hxw. unfold assign.
  rewrite (slice_in_bounds (height a) y (height v)) by assumption.
  rewrite (slice_in_bounds (width a) x (width v)) by assumption.
  unfold broadcastable. rewrite !Z.eqb_refl. cbn [orb andb].
  eexists. split; [reflexivity |]. cbn [Img.height Img.width px].
  split; [reflexivity |]. split; [reflexivity |]. split.
  - intros r c Hin. apply inside_test in Hin. rewrite Hin. reflexivity.
  - intros r c Hout.
    destruct ((y <=? r) && (r <? y + height v) && (x <=? c)
              && (c <? x + width v)) eqn:E; [| reflexivity].
    apply inside_test in E. contradiction.
Qed.

(** X18. Writing a window of an array and reading it back: when the
    window [a[y:y+h, x:x+w]] lies on the array, assigning an [h] by [w]
    array to it succeeds, keeps the array's shape, reads back as the
    assigned array, and changes no pixel outside the window. *)
Theorem assign_then_region (a v : Image) (y x : Z)
    (Hy : 0 <= y) (Hh : 0 <= height v) (Hyh : y + height v <= height a)
    (Hx : 0 <= x) (Hw : 0 <= width v) (Hxw : x + width v <= width a) :
  exists a',
    assign a y (y + height v) x (x + width v) v = Some a' /\
    height a' = height a /\ width a' = width a /\
    same (region a' y (y + height v) x (x + width v)) v /\
    (forall r c, ~ inside y x (height v) (width v) r c ->
                 px a' r c = px a r c).
Proof.
  destruct (assign_window a v y x Hy Hh Hyh Hx Hw Hxw)
    as (a' & Ha & Hha & Hwa & Hin & Hout).
  exists a'. split; [exact Ha |]. split; [exact Hha |]. split; [exact Hwa |].
  split; [| exact Hout].
  unfold region, same.
  rewrite Hha, Hwa, (slice_in_bounds (height a) y (height v)),
    (slice_in_bounds (width a) x (width v)) by assumption.
  cbn [Img.height Img.width px].
  split; [reflexivity |]. split; [reflexivity |].
  intros r c Hr Hc. rewrite Hin by (unfold inside; lia).
  f_equal; lia.
Qed.

Lemma assign_then_region_witness :
  exists a',
    assign (zeros 4 4) 1 (1 + 2) 2 (2 + 2) BlendFacts.sample_tile = Some a' /\
    px a' 2 3 = (10%N, 201%N, 255%N) /\ px a' 0 0 = black.
Proof.
  destruct (assign_then_region (zeros 4 4) BlendFacts.sample_tile 1 2)
    as (a' & Ha & Hha & Hwa & Hsame & Hout); try (cbn; lia).
  exists a'. split; [exact Ha |]. split.
  - destruct Hsame as (Hh & Hw & Hpx). specialize (Hpx 1 1).
    rewrite Hh, Hw in Hpx. unfold region in Hpx. rewrite Hha, Hwa in Hpx.
    cbn in Hpx. apply Hpx; lia.
  - rewrite Hout; [reflexivity |]. unfold inside. cbn. lia.
Defined.

Section Stitching.

Variable Descriptors : Type.
Variable detectAndCompute : Image -> option (list KeyPoint * option Descriptors).
Variable bf_match : Descriptors -> Descriptors -> option (list DMatch).

Local Abbreviation stitch_try := (stitch_try Descriptors detectAndCompute bf_match).
Local Abbreviation stitch_one := (stitch_one Descriptors detectAndCompute bf_match).
Local Abbreviation Stitcher := (Stitcher Descriptors).

(** X19. The first tile after a reset is copied verbatim onto an empty
    canvas: with the crop above the middle row of the canvas, a tile no
    larger than the crop and features extracted, the canvas holds the
    tile's pixels on its footprint at the start position and zeros
    everywhere else, and the tile's features become the previous
    ones. *)
Theorem first_tile_is_copied (s : Stitcher) (k : Crop) (tile : Image)
    (kp : list KeyPoint) (des : option Descriptors)
    (Hdet : detectAndCompute tile = Some (kp, des))
    (Hcanvas : 0 <= canvas_width s /\ 0 <= canvas_height s)
    (Htop : 0 <= crop_top k)
    (Hbottom : crop_bottom k <= canvas_height s / 2)
    (Hcrop : crop_right k - crop_left k <= canvas_width s)
    (Hheight : 0 <= height tile <= crop_bottom k - crop_top k)
    (Hwidth : 0 <= width tile <= crop_right k - crop_left k) :
  let s0 := reset_canvas Descriptors k s in
  let s1 := stitch_one s0 tile in
  first_frame_init s1 = true /\
  kp_last s1 = Some kp /\ des_last s1 = des /\
  pos_last s1 = Some (pos_x s0, pos_y s0) /\
  (forall r c,
     inside (pos_y s0) (pos_x s0) (height tile) (width tile) r c ->
     px (canvas s1) r c = px tile (r - pos_y s0) (c - pos_x s0)) /\
  (forall r c,
     ~ inside (pos_y s0) (pos_x s0) (height tile) (width tile) r c ->
     px (canvas s1) r c = black).
Proof.
  intros s0 s1.
  assert (Hx : 0 <= pos_x s0 /\ pos_x s0 + width tile <= canvas_width s).
  { subst s0. cbn [pos_x reset_canvas].
    assert (0 <= (canvas_width s - (crop_right k - crop_left k)) / 2
            <= canvas_width s - (crop_right k - crop_left k)).
    { split; [apply Z.div_pos; lia |].
      apply Z.div_le_upper_bound; lia. }
    lia. }
  assert (Hy : 0 <= pos_y s0 /\ pos_y s0 + height tile <= canvas_height s).
  { subst s0. cbn [pos_y reset_canvas].
    assert (0 <= canvas_height s / 2 <= canvas_height s).
    { split; [apply Z.div_pos; lia |].
      apply Z.div_le_upper_bound; lia. }
    lia. }
  destruct (assign_window (canvas s0) tile (pos_y s0) (pos_x s0))
    as (cv & Hcv & _ & _ & Hin & Hout);
    try (subst s0; cbn [canvas reset_canvas zeros Img.height Img.width] in *;
         lia).
  assert (Hs1 : s1 = {| canvas_height := canvas_height s0;
                        canvas_width := canvas_width s0;
                        canvas := cv;
                        pos_x := pos_x s0; pos_y := pos_y s0;
                        first_frame_init := true;
                        kp_last := Some kp; des_last := des;
                        pos_last := Some (pos_x s0, pos_y s0) |}).
  { subst s1. unfold Mosaic.stitch_one, Mosaic.stitch_try.
    rewrite Hdet. cbn [Py.bind].
    replace (first_frame_init s0) with false by (subst s0; reflexivity).
    cbn [negb]. rewrite Hcv. reflexivity. }
  rewrite Hs1. cbn [first_frame_init kp_last des_last pos_last canvas].
  repeat split.
  - apply Hin.
  - intros r c Hnot. rewrite (Hout r c Hnot). subst s0. reflexivity.
Qed.

(** A steady-state step that places the tile blends it into the clamped
    footprint and nowhere else. *)
Lemma steady_canvas (s : Stitcher) (tile : Image) :
  first_frame_init s = true ->
  0 <= width tile <= canvas_width s -> 0 <= height tile <= canvas_height s ->
  height (canvas s) = canvas_height s -> width (canvas s) = canvas_width s ->
  stitch_one s tile = s \/
  exists x y,
    pos_last (stitch_one s tile) = Some (x, y) /\
    on_canvas s (height tile) (width tile) (x, y) /\
    height (canvas (stitch_one s tile)) = height (canvas s) /\
    width (canvas (stitch_one s tile)) = width (canvas s) /\
    (forall r c,
       inside y x (height tile) (width tile) r c ->
       px (canvas (stitch_one s tile)) r c
       = Blend.blend_pixel (px (canvas s) r c) (px tile (r - y) (c - x))) /\
    (forall r c,
       ~ inside y x (height tile) (width tile) r c ->
       px (canvas (stitch_one s tile)) r c = px (canvas s) r c).
Proof.
  intros Htracking Hw Hh Hch Hcw.
  unfold Mosaic.stitch_one, Mosaic.stitch_try.
  destruct (detectAndCompute tile) as [[kp des] |]; cbn [Py.bind];
    [| now left].
  rewrite Htracking. cbn [negb].
  destruct (des_last s) as [dl |]; [| now left].
  destruct des as [dc |]; [| now left].
  destruct (bf_match dc dl) as [ms |]; cbn [Py.bind]; [| now left].
  destruct (10 <=? length (Py.sorted_by distance ms))%nat; [| now left].
  destruct (offsets_of kp (kp_last s) (Py.sorted_by distance ms))
    as [offs |]; cbn [Py.bind]; [| now left].
  destruct (translation offs) as [[dx dy] |]; cbn [Py.bind]; [| now left].
  destruct (pos_last s) as [[lx ly] |]; cbn [Py.bind]; [| now left].
  set (x := clamp (lx + dx) (canvas_width s - width tile)).
  set (y := clamp (ly + dy) (canvas_height s - height tile)).
  assert (Hx : 0 <= x <= canvas_width s - width tile)
    by (apply MosaicFacts.clamp_bounds; lia).
  assert (Hy : 0 <= y <= canvas_height s - height tile)
    by (apply MosaicFacts.clamp_bounds; lia).
  unfold region, Blend.blend_regions.
  rewrite (slice_in_bounds (height (canvas s)) y (height tile)) by lia.
  rewrite (slice_in_bounds (width (canvas s)) x (width tile)) by lia.
  cbn [Img.height Img.width px]. rewrite !Z.eqb_refl. cbn [andb Py.bind].
  match goal with
  | |- context [assign (canvas s) y (y + height tile) x (x + width tile) ?v] =>
      destruct (assign_window (canvas s) v y x)
        as (cv & Hcv & Hhc & Hwc & Hin & Hout);
        cbn [Img.height Img.width]; try lia
  end.
  cbn [Img.height Img.width px] in Hcv, Hin, Hout.
  rewrite Hcv. cbn [Py.bind]. right. exists x, y.
  cbn [pos_last canvas]. split; [reflexivity |].
  split; [unfold on_canvas; cbn [fst snd canvas_width canvas_height]; lia |].
  split; [exact Hhc |]. split; [exact Hwc |]. split.
  - intros r c Hrc. rewrite (Hin r c Hrc). f_equal. f_equal; lia.
  - exact Hout.
Qed.

(** X20. A steady-state step touches the canvas only under the tile:
    for a tile that fits the canvas, either the step changes nothing at
    all, or it stores an on-canvas position, keeps the canvas shape,
    leaves every pixel outside the tile's footprint as it was, and
    under the footprint leaves the blend of the old pixel with the
    tile's. *)
Theorem steady_step_blends_under_the_tile (s : Stitcher) (tile : Image)
    (Htracking : first_frame_init s = true)
    (Hwidth : 0 <= width tile <= canvas_width s)
    (Hheight : 0 <= height tile <= canvas_height s)
    (Hrows : height (canvas s) = canvas_height s)
    (Hcols : width (canvas s) = canvas_width s) :
  let s' := stitch_one s tile in
  s' = s \/
  exists x y,
    pos_last s' = Some (x, y) /\
    on_canvas s (height tile) (width tile) (x, y) /\
    height (canvas s') = height (canvas s) /\
    width (canvas s') = width (canvas s) /\
    (forall r c,
       inside y x (height tile) (width tile) r c ->
       px (canvas s') r c
       = Blend.blend_pixel (px (canvas s) r c) (px tile (r - y) (c - x))) /\
    (forall r c,
       ~ inside y x (height tile) (width tile) r c ->
       px (canvas s') r c = px (canvas s) r c) /\
    (forall r c,
       Blend.channel_sum (px tile (r - y) (c - x)) = 0%N ->
       px (canvas s') r c = px (canvas s) r c).
Proof.
  intros s'.
  destruct (steady_canvas s tile Htracking Hwidth Hheight Hrows Hcols)
    as [Hsame | (x & y & Hpos & Hon & Hh & Hw & Hin & Hout)];
    [now left | right].
  exists x, y. repeat split; try assumption; try apply Hon.
  intros r c Hblack.
  assert (Hdec : inside y x (height tile) (width tile) r c \/
                 ~ inside y x (height tile) (width tile) r c)
    by (unfold inside; lia).
  destruct Hdec as [Hrc | Hrc]; [| apply Hout; exact Hrc].
  fold s' in Hin. rewrite (Hin r c Hrc).
  destruct (BlendFacts.blend_pixel_cases (px (canvas s) r c)
              (px tile (r - y) (c - x))) as (_ & _ & H).
  apply H. exact Hblack.
Qed.

Lemma assign_shape (a a' v : Image) (y0 y1 x0 x1 : Z) :
  assign a y0 y1 x0 x1 v = Some a' ->
  height a' = height a /\ width a' = width a.
Proof.
  unfold assign.
  destruct (Py.slice (height a) y0 y1) as [r0 nr].
  destruct (Py.slice (width a) x0 x1) as [c0 nc].
  destruct (broadcastable (height v) nr && broadcastable (width v) nc);
    [| discriminate].
  intros H. inversion H. split; reflexivity.
Qed.

Lemma stitch_one_keeps (s : Stitcher) (tile : Image) :
  let s' := stitch_one s tile in
  canvas_height s' = canvas_height s /\ canvas_width s' = canvas_width s /\
  pos_x s' = pos_x s /\ pos_y s' = pos_y s /\
  height (canvas s') = height (canvas s) /\
  width (canvas s') = width (canvas s) /\
  (first_frame_init s = true ->
   first_frame_init s' = true /\ (pos_last s <> None -> pos_last s' <> None)) /\
  (first_frame_init s' = true -> pos_last s <> None \/ first_frame_init s = false ->
   pos_last s' <> None).
Proof.
  unfold Mosaic.stitch_one, Mosaic.stitch_try.
  destruct (detectAndCompute tile) as [[kp des] |]; cbn [Py.bind].
  2:{ repeat split; auto. intros Hi [H | H]; [exact H | congruence]. }
  destruct (first_frame_init s) eqn:Hinit; cbn [negb].
  - destruct (des_last s) as [dl |];
      [| repeat split; auto; intros _ [H | H]; [exact H | discriminate]].
    destruct des as [dc |];
      [| repeat split; auto; intros _ [H | H]; [exact H | discriminate]].
    destruct (bf_match dc dl) as [ms |]; cbn [Py.bind];
      [| repeat split; auto; intros _ [H | H]; [exact H | discriminate]].
    destruct (10 <=? length (Py.sorted_by distance ms))%nat;
      [| repeat split; auto; intros _ [H | H]; [exact H | discriminate]].
    destruct (offsets_of kp (kp_last s) (Py.sorted_by distance ms));
      cbn [Py.bind];
      [| repeat split; auto; intros _ [H | H]; [exact H | discriminate]].
    destruct (translation l) as [[dx dy] |]; cbn [Py.bind];
      [| repeat split; auto; intros _ [H | H]; [exact H | discriminate]].
    destruct (pos_last s) as [[lx ly] |] eqn:Hlast; cbn [Py.bind];
      [| rewrite Hlast; repeat split; auto;
         intros _ [H | H]; [exact H | discriminate]].
    destruct (Blend.blend_regions _ tile) as [blended |]; cbn [Py.bind];
      [| rewrite Hlast; repeat split; auto; discriminate].
    destruct (assign _ _ _ _ _ blended) as [cv |] eqn:Hcv; cbn [Py.bind];
      [| rewrite Hlast; repeat split; auto; discriminate].
    apply assign_shape in Hcv. destruct Hcv as [Hh Hw].
    cbn. repeat split; auto; discriminate.
  - destruct (assign _ _ _ _ _ tile) as [cv |] eqn:Hcv; cbn [Py.bind].
    + apply assign_shape in Hcv. destruct Hcv as [Hh Hw].
      cbn. repeat split; auto; discriminate.
    + rewrite Hinit. repeat split; auto; discriminate.
Qed.

(** X21. Stitching never resets the builder and never resizes the
    canvas: over any run of tiles the canvas dimensions, the canvas
    array's shape and the start position stay as they were, an
    initialised builder stays initialised, and an initialised builder
    always has a stored position. *)
Theorem stitching_keeps_the_builder (s : Stitcher) (tiles : list Image) :
  let s' := Session.stitch_all detectAndCompute bf_match s tiles in
  canvas_height s' = canvas_height s /\ canvas_width s' = canvas_width s /\
  pos_x s' = pos_x s /\ pos_y s' = pos_y s /\
  height (canvas s') = height (canvas s) /\
  width (canvas s') = width (canvas s) /\
  (first_frame_init s = true -> first_frame_init s' = true) /\
  (first_frame_init s = false \/ pos_last s <> None ->
   first_frame_init s' = true -> pos_last s' <> None).
Proof.
  revert s. induction tiles as [| tile tiles IH]; intros s.
  - cbn. repeat split; auto. intros [H | H] Hi; [congruence | exact H].
  - cbn [Session.stitch_all fold_left].
    destruct (stitch_one_keeps s tile)
      as (H1 & H2 & H3 & H4 & H5 & H6 & H7 & H8).
    destruct (IH (stitch_one s tile))
      as (I1 & I2 & I3 & I4 & I5 & I6 & I7 & I8).
    unfold Session.stitch_all in *.
    split; [congruence |]. split; [congruence |]. split; [congruence |].
    split; [congruence |]. split; [congruence |]. split; [congruence |].
    split.
    + intros Hi. apply I7. apply H7. exact Hi.
    + intros Hs Hi. apply I8; [| exact Hi].
      destruct (first_frame_init (stitch_one s tile)) eqn:Hmid;
        [right | left; reflexivity].
      apply H8; [reflexivity |].
      destruct Hs as [Hs | Hs]; [right | left]; assumption.
Qed.

End Stitching.

(** *** Crop adjustment *)

(** The crop rectangle has its fixed size and lies on the camera frame. *)
Definition crop_on_frame (k : Crop) : Prop :=
  crop_right k - crop_left k = crop_width k /\
  crop_bottom k - crop_top k = crop_height k /\
  0 <= crop_left k /\ crop_right k <= getattr (cam_width k) 1280 /\
  0 <= crop_top k /\ crop_bottom k <= getattr (cam_height k) 720.

Lemma on_mouse_keeps_crop (k : Crop) (e : Session.MouseEvent) :
  0 <= crop_width k <= getattr (cam_width k) 1280 ->
  0 <= crop_height k <= getattr (cam_height k) 720 ->
  crop_on_frame k ->
  crop_on_frame (Session.on_mouse k e) /\
  crop_width (Session.on_mouse k e) = crop_width k /\
  crop_height (Session.on_mouse k e) = crop_height k /\
  cam_width (Session.on_mouse k e) = cam_width k /\
  cam_height (Session.on_mouse k e) = cam_height k.
Proof.
  intros Hw Hh Hk. unfold crop_on_frame in *.
  destruct e as [x y | x y |]; cbn [Session.on_mouse].
  - unfold on_crop_canvas_click.
    destruct (negb (adjusting_crop k)); [repeat split; apply Hk |].
    destruct (_ && _); cbn; repeat split; apply Hk.
  - unfold on_crop_canvas_drag.
    destruct (negb (adjusting_crop k) || negb (dragging_rect k));
      [repeat split; apply Hk |].
    cbn. repeat split; lia.
  - cbn. repeat split; apply Hk.
Qed.

(** X22. Dragging keeps the crop rectangle's size and keeps it on the
    camera frame, so every tile cut from a camera frame has exactly the
    crop's height and width. *)
Theorem tiles_have_the_crop_size (k : Crop) (events : list Session.MouseEvent)
    (frame : Image)
    (Hwidth : 0 <= crop_width k <= getattr (cam_width k) 1280)
    (Hheight : 0 <= crop_height k <= getattr (cam_height k) 720)
    (Hcrop : crop_on_frame k)
    (Hrows : height frame = getattr (cam_height k) 720)
    (Hcols : width frame = getattr (cam_width k) 1280) :
  let k' := Session.adjust k events in
  crop_on_frame k' /\
  crop_width k' = crop_width k /\ crop_height k' = crop_height k /\
  height (crop_frame k' frame) = crop_height k /\
  width (crop_frame k' frame) = crop_width k.
Proof.
  revert k Hwidth Hheight Hcrop Hrows Hcols.
  induction events as [| e events IH]; intros k Hwidth Hheight Hcrop Hrows Hcols.
  - cbn [Session.adjust fold_left]. split; [exact Hcrop |].
    split; [reflexivity |]. split; [reflexivity |].
    destruct Hcrop as (H1 & H2 & H3 & H4 & H5 & H6).
    unfold crop_frame, region.
    replace (crop_bottom k) with (crop_top k + crop_height k) by lia.
    replace (crop_right k) with (crop_left k + crop_width k) by lia.
    rewrite !slice_in_bounds by lia. split; reflexivity.
  - cbn [Session.adjust fold_left].
    destruct (on_mouse_keeps_crop k e Hwidth Hheight Hcrop)
      as (Hk & Hw & Hh & Hcw & Hch).
    destruct (IH (Session.on_mouse k e)) as (I1 & I2 & I3 & I4 & I5);
      try (rewrite ?Hw, ?Hh, ?Hcw, ?Hch; assumption).
    unfold Session.adjust in *.
    split; [exact I1 |]. split; [congruence |]. split; [congruence |].
    split; congruence.
Qed.

(** *** Concrete runs *)

Lemma tiles_have_the_crop_size_witness :
  height (crop_frame MosaicFacts.dragged_crop
            (MosaicFacts.grey_frame 1080 1920)) = 225 /\
  width (crop_frame MosaicFacts.dragged_crop
           (MosaicFacts.grey_frame 1080 1920)) = 200.
Proof.
  destruct (tiles_have_the_crop_size (start_camera init_crop 1920 1080)
              [Session.ButtonPress 200 300; Session.Motion 200 900]
              (MosaicFacts.grey_frame 1080 1920)
              ltac:(cbn; lia) ltac:(cbn; lia)
              ltac:(unfold crop_on_frame; cbn; lia) eq_refl eq_refl)
    as (_ & _ & _ & H1 & H2).
  split; [exact H1 | exact H2].
Defined.

Lemma first_tile_is_copied_witness :
  px (canvas (stitch_one nat MosaicFacts.detect_three MosaicFacts.match_three
                (reset_canvas nat init_crop (init nat))
                (crop_frame init_crop (MosaicFacts.grey_frame 480 640))))
    1499 1499 = black.
Proof.
  destruct (first_tile_is_copied nat MosaicFacts.detect_three
              MosaicFacts.match_three (init nat) init_crop
              (crop_frame init_crop (MosaicFacts.grey_frame 480 640))
              MosaicFacts.three_keypoints (Some 3%nat) eq_refl
              ltac:(cbn; lia) ltac:(cbn; lia) ltac:(cbn; lia)
              ltac:(cbn; lia) ltac:(cbn; lia) ltac:(cbn; lia))
    as (_ & _ & _ & _ & _ & Hout).
  apply Hout. unfold inside. cbn. lia.
Defined.

(** A detector and a matcher that pair ten keypoints with the previous
    tile's, shifted by [(3, -2)] for six of them. *)
Definition detect_ten (_ : Image) : option (list KeyPoint * option nat) :=
  Some (MedianFacts.current_keypoints, Some 10%nat).

Definition match_ten (_ _ : nat) : option (list DMatch) :=
  Some MedianFacts.ten_matches.

Definition tracking_builder : Stitcher nat :=
  {| canvas_height := 1500; canvas_width := 1500;
     canvas := canvas MosaicFacts.after_first_tile;
     pos_x := 650; pos_y := 285;
     first_frame_init := true;
     kp_last := Some MedianFacts.previous_keypoints;
     des_last := Some 10%nat;
     pos_last := Some (650, 285) |}.

Example second_tile_moves_by_the_median :
  pos_last (stitch_one nat detect_ten match_ten tracking_builder
              (crop_frame init_crop (MosaicFacts.grey_frame 480 640)))
  = Some (653, 283).
Proof. vm_compute. reflexivity. Qed.

Lemma steady_step_blends_under_the_tile_witness :
  px (canvas (stitch_one nat detect_ten match_ten tracking_builder
                (crop_frame init_crop (MosaicFacts.grey_frame 480 640))))
    0 0 = black.
Proof.
  destruct (steady_step_blends_under_the_tile nat detect_ten match_ten
              tracking_builder
              (crop_frame init_crop (MosaicFacts.grey_frame 480 640))
              eq_refl ltac:(cbn; lia) ltac:(cbn; lia) eq_refl eq_refl)
    as [Hsame | (x & y & Hpos & _ & _ & _ & _ & Hout & _)].
  - rewrite Hsame. reflexivity.
  - rewrite Hout; [reflexivity |].
    rewrite second_tile_moves_by_the_median in Hpos.
    inversion Hpos; subst. unfold inside. cbn. lia.
Defined.

End CanvasFacts.

(** ** The translation estimate in the stitching step *)

Module EstimateFacts.

Import Img Mosaic Counting MedianFacts.

Local Open Scope Z_scope.

Lemma Forall_insert_by_key {A} (P : A -> Prop) (key : A -> Q) (x : A)
    (l : list A) :
  P x -> Forall P l -> Forall P (Py.insert_by key x l).
Proof.
  intros Hx Hl. induction Hl as [| y l Hy Hl IH]; cbn.
  - constructor; [exact Hx | constructor].
  - destruct (Qle_bool (key x) (key y)).
    + constructor; [exact Hx |]. constructor; assumption.
    + constructor; assumption.
Qed.

Lemma Forall_sorted_by {A} (P : A -> Prop) (key : A -> Q) (l : list A) :
  Forall P l -> Forall P (Py.sorted_by key l).
Proof.
  induction 1 as [| x l Hx Hl IH]; cbn; [constructor |].
  apply Forall_insert_by_key; assumption.
Qed.

(** The keypoints a match refers to exist. *)
Definition indexed (kp_curr kp_prev : list KeyPoint) (m : DMatch) : Prop :=
  Py.index kp_curr (queryIdx m) <> None /\
  Py.index kp_prev (trainIdx m) <> None.

Lemma offsets_found (kp_curr kp_prev : list KeyPoint) (matches : list DMatch) :
  Forall (indexed kp_curr kp_prev) matches ->
  exists offsets, offsets_of kp_curr (Some kp_prev) matches = Some offsets.
Proof.
  induction 1 as [| m matches [Hq Ht] _ [offsets IH]]; cbn.
  - exists []. reflexivity.
  - unfold offset. cbn [Py.bind].
    destruct (Py.index kp_curr (queryIdx m)) as [kc |]; [| contradiction].
    destruct (Py.index kp_prev (trainIdx m)) as [kl |]; [| contradiction].
    cbn [Py.bind]. rewrite IH. cbn [Py.bind]. eexists. reflexivity.
Qed.

Lemma clamp_inside (p limit : Z) : 0 <= p <= limit -> clamp p limit = p.
Proof. unfold clamp. lia. Qed.

Section Stitching.

Variable Descriptors : Type.
Variable detectAndCompute : Image -> option (list KeyPoint * option Descriptors).
Variable bf_match : Descriptors -> Descriptors -> option (list DMatch).

Local Abbreviation stitch_try := (stitch_try Descriptors detectAndCompute bf_match).
Local Abbreviation stitch_one := (stitch_one Descriptors detectAndCompute bf_match).
Local Abbreviation Stitcher := (Stitcher Descriptors).

(** A steady-state step with ten or more matches places the tile at the
    stored position moved by the translation, clamped per axis. *)
Lemma steady_step_places (s : Stitcher) (tile : Image)
    (kp_curr : list KeyPoint) (dc dl : Descriptors) (found : list DMatch)
    (offsets : list (Q * Q)) (dx dy last_x last_y : Z) :
  first_frame_init s = true ->
  detectAndCompute tile = Some (kp_curr, Some dc) ->
  des_last s = Some dl ->
  bf_match dc dl = Some found ->
  (10 <= length found)%nat ->
  offsets_of kp_curr (kp_last s) (Py.sorted_by distance found) = Some offsets ->
  translation offsets = Some (dx, dy) ->
  pos_last s = Some (last_x, last_y) ->
  0 <= width tile <= canvas_width s -> 0 <= height tile <= canvas_height s ->
  height (canvas s) = canvas_height s -> width (canvas s) = canvas_width s ->
  exists s',
    stitch_try s tile = Some s' /\
    pos_last s'
    = Some (clamp (last_x + dx) (canvas_width s - width tile),
            clamp (last_y + dy) (canvas_height s - height tile)) /\
    kp_last s' = Some kp_curr /\ des_last s' = Some dc.
Proof.
  intros Htracking Hdet Hdes Hfound Hten Hoffsets Htranslation Hpos
    Hw Hh Hch Hcw.
  unfold Mosaic.stitch_try. rewrite Hdet. cbn [Py.bind].
  rewrite Htracking. cbn [negb]. rewrite Hdes, Hfound. cbn [Py.bind].
  rewrite MosaicFacts.length_sorted_by.
  destruct (Nat.leb_spec 10 (length found)) as [_ | Hlt]; [| lia].
  rewrite Hoffsets. cbn [Py.bind]. rewrite Htranslation. cbn [Py.bind].
  rewrite Hpos. cbn [Py.bind].
  set (x := clamp (last_x + dx) (canvas_width s - width tile)).
  set (y := clamp (last_y + dy) (canvas_height s - height tile)).
  assert (Hx : 0 <= x <= canvas_width s - width tile)
    by (apply MosaicFacts.clamp_bounds; lia).
  assert (Hy : 0 <= y <= canvas_height s - height tile)
    by (apply MosaicFacts.clamp_bounds; lia).
  unfold region, Blend.blend_regions.
  rewrite (CanvasFacts.slice_in_bounds (height (canvas s)) y (height tile))
    by lia.
  rewrite (CanvasFacts.slice_in_bounds (width (canvas s)) x (width tile))
    by lia.
  cbn [Img.height Img.width px]. rewrite !Z.eqb_refl. cbn [andb Py.bind].
  match goal with
  | |- context [assign (canvas s) y (y + height tile) x (x + width tile) ?v] =>
      destruct (CanvasFacts.assign_window (canvas s) v y x)
        as (cv & Hcv & _); cbn [Img.height Img.width]; try lia
  end.
  cbn [Img.height Img.width px] in Hcv.
  rewrite Hcv. cbn [Py.bind]. eexists. split; [reflexivity |].
  cbn [pos_last kp_last des_last]. repeat split.
Qed.

(** C3. Median translation estimation: for every pair of consecutive
    tiles that yields at least ten matches (whose keypoints exist), the
    stitching step computes the per-match displacements, previous
    keypoint minus current, and estimates [(dx, dy)] as, on each axis,
    [np.median] of the displacements, which is a median of them, rounded
    to a nearest integer (ties to even); the step places the tile at the
    previous position moved by that estimate, clamped to the canvas, and
    takes the tile's features as the previous ones.  Consequently, when
    at least 60% of the displacements equal one integer vector, the
    estimate is that vector, and the stored position moves by exactly
    it when that stays on the canvas. *)
Theorem median_translation (s : Stitcher) (tile : Image)
    (kp_curr kp_prev : list KeyPoint) (dc dl : Descriptors)
    (found : list DMatch) (last_x last_y : Z)
    (Htracking : first_frame_init s = true)
    (Hdet : detectAndCompute tile = Some (kp_curr, Some dc))
    (Hdes : des_last s = Some dl) (Hkp : kp_last s = Some kp_prev)
    (Hpos : pos_last s = Some (last_x, last_y))
    (Hfound : bf_match dc dl = Some found)
    (Hten : (10 <= length found)%nat)
    (Hindexed : Forall (indexed kp_curr kp_prev) found)
    (Hwidth : 0 <= width tile <= canvas_width s)
    (Hheight : 0 <= height tile <= canvas_height s)
    (Hrows : height (canvas s) = canvas_height s)
    (Hcols : width (canvas s) = canvas_width s) :
  let matches := Py.sorted_by distance found in
  exists offsets mx my s',
    offsets_of kp_curr (Some kp_prev) matches = Some offsets /\
    Forall2 (displacement kp_curr kp_prev) matches offsets /\
    median (map fst offsets) = Some mx /\ is_median (map fst offsets) mx /\
    median (map snd offsets) = Some my /\ is_median (map snd offsets) my /\
    nearest_integer mx (Py.round mx) /\ nearest_integer my (Py.round my) /\
    translation offsets = Some (Py.round mx, Py.round my) /\
    stitch_try s tile = Some s' /\ stitch_one s tile = s' /\
    pos_last s'
    = Some (clamp (last_x + Py.round mx) (canvas_width s - width tile),
            clamp (last_y + Py.round my) (canvas_height s - height tile)) /\
    kp_last s' = Some kp_curr /\ des_last s' = Some dc /\
    (forall true_offset : Z * Z,
       (6 * length offsets <= 10 * count (agrees true_offset) offsets)%nat ->
       (Py.round mx, Py.round my) = true_offset /\
       (0 <= last_x + fst true_offset <= canvas_width s - width tile ->
        0 <= last_y + snd true_offset <= canvas_height s - height tile ->
        pos_last s'
        = Some (last_x + fst true_offset, last_y + snd true_offset))).
Proof.
  intros matches.
  assert (Hlen : (10 <= length matches)%nat)
    by (subst matches; rewrite MosaicFacts.length_sorted_by; exact Hten).
  destruct (offsets_found kp_curr kp_prev matches) as [offsets Hoffsets];
    [subst matches; apply Forall_sorted_by; exact Hindexed |].
  destruct (translation_of_offsets kp_curr kp_prev matches offsets (0, 0)
              Hlen Hoffsets)
    as (Hdisp & (mx & my & Emx & Hmx & Emy & Hmy & Ht & Hrx & Hry) & _).
  assert (Hoffsets' : offsets_of kp_curr (kp_last s) matches = Some offsets)
    by (rewrite Hkp; exact Hoffsets).
  destruct (steady_step_places s tile kp_curr dc dl found offsets
              (Py.round mx) (Py.round my) last_x last_y
              Htracking Hdet Hdes Hfound Hten Hoffsets' Ht Hpos
              Hwidth Hheight Hrows Hcols)
    as (s' & Hs' & Hp' & Hk' & Hd').
  exists offsets, mx, my, s'.
  split; [exact Hoffsets |]. split; [exact Hdisp |].
  split; [exact Emx |]. split; [exact Hmx |].
  split; [exact Emy |]. split; [exact Hmy |].
  split; [exact Hrx |]. split; [exact Hry |]. split; [exact Ht |].
  split; [exact Hs' |].
  split; [unfold Mosaic.stitch_one; rewrite Hs'; reflexivity |].
  split; [exact Hp' |]. split; [exact Hk' |]. split; [exact Hd' |].
  intros [tx ty] Hmost.
  destruct (translation_of_offsets kp_curr kp_prev matches offsets (tx, ty)
              Hlen Hoffsets) as (_ & _ & Hmaj).
  specialize (Hmaj Hmost). rewrite Ht in Hmaj.
  injection Hmaj as Hx Hy. cbn [fst snd].
  split; [rewrite Hx, Hy; reflexivity |].
  intros Hinx Hiny. rewrite Hp', Hx, Hy, !clamp_inside by assumption.
  reflexivity.
Qed.

End Stitching.

(** The second tile of a mosaic: ten matches against the first tile,
    six of them displaced by [(3, -2)], four outliers.  The step moves
    the stored position from [(650, 285)] to [(653, 283)]. *)
Lemma median_translation_witness :
  exists s',
    Mosaic.stitch_try nat CanvasFacts.detect_ten CanvasFacts.match_ten
      CanvasFacts.tracking_builder
      (crop_frame init_crop (MosaicFacts.grey_frame 480 640))
    = Some s' /\
    pos_last s' = Some (653, 283) /\
    kp_last s' = Some current_keypoints.
Proof.
  destruct (median_translation nat CanvasFacts.detect_ten CanvasFacts.match_ten
              CanvasFacts.tracking_builder
              (crop_frame init_crop (MosaicFacts.grey_frame 480 640))
              current_keypoints previous_keypoints 10%nat 10%nat
              ten_matches 650 285
              eq_refl eq_refl eq_refl eq_refl eq_refl eq_refl
              ltac:(vm_compute; lia)
              ltac:(repeat constructor; vm_compute; discriminate)
              ltac:(cbn; lia) ltac:(cbn; lia) eq_refl eq_refl)
    as (offsets & mx & my & s' & Hoffsets & _ & _ & _ & _ & _ & _ & _ & _
        & Hs' & _ & _ & Hk' & _ & Hmaj).
  assert (Eoffsets : offsets = ten_offsets).
  { vm_compute in Hoffsets. injection Hoffsets as <-. reflexivity. }
  destruct (Hmaj (3, -2)) as [_ Hmove].
  { rewrite Eoffsets. vm_compute. lia. }
  exists s'. split; [exact Hs' |]. split; [| exact Hk'].
  apply Hmove; cbn; lia.
Defined.

End EstimateFacts.

(** ** Scan execution *)


Module ExecutorFacts.

Import Img Servo Scan Executor.

Local Open Scope string_scope.
Local Open Scope list_scope.
Local Open Scope Z_scope.

(** *** The first move of a plan *)

Lemma plan_starts_right_or_down (rows steps : Z) :
  match generate_lawnmower_pattern rows steps with
  | [] => True
  | m :: _ => m = ("S", "R") \/ m = ("D", "S")
  end.
Proof.
  rewrite ScanFacts.generate_is_boustrophedon. unfold boustrophedon.
  destruct (Z.to_nat rows) as [| n]; [exact I |].
  cbn [seq map concat]. unfold boustrophedon_row at 1.
  destruct (Z.to_nat steps - 1)%nat as [| w]; cbn [repeat app].
  - destruct n as [| n]; [exact I |]. right. reflexivity.
  - left. reflexivity.
Qed.

Lemma send_step_refused_at_origin (s : Stage) (y x : string)
    (io : LinkBehaviour) :
  set s = true -> abs_x s = 0 -> abs_y s = 0 ->
  (y, x) = ("S", "R") \/ (y, x) = ("D", "S") ->
  exists msg, send_step s y x io = (with_status s msg, false).
Proof.
  intros Hset Hx Hy Hm. unfold send_step.
  destruct (arduino_connected s); [| eexists; reflexivity].
  destruct (arduino s) as [p |]; [| eexists; reflexivity].
  rewrite Hset, Hx, Hy.
  destruct Hm as [Hm | Hm]; injection Hm as -> ->; cbn; eexists; reflexivity.
Qed.

(** What a scan that moved nothing leaves behind. *)
Definition unmoved (st st' : Scanner) : Prop :=
  ledger st' = ledger st /\ wire (stage st') = wire (stage st) /\
  current_step st' = current_step st /\
  image_counter st' = image_counter st.

Lemma first_move_refused (env : Env) (total : Z) (moves : list Move)
    (st : Scanner) :
  match moves with
  | [] => True
  | m :: _ => m = ("S", "R") \/ m = ("D", "S")
  end ->
  set (stage st) = true -> ledger st = (0, 0) ->
  exists st',
    scan_loop env total moves 0 st = Returned st' /\ unmoved st st'.
Proof.
  intros Hm Hset Hp. injection Hp as Hx Hy.
  destruct moves as [| [y x] rest]; cbn [scan_loop].
  - exists st. split; [reflexivity |]. repeat split.
  - destruct (active_at env 0); cbn [negb].
    + destruct (send_step_refused_at_origin (stage st) y x (link_at env 0)
                  Hset Hx Hy Hm) as [msg ->].
      eexists. split; [reflexivity |]. repeat split.
    + exists st. split; [reflexivity |]. repeat split.
Qed.

(** X23. A scan started from the home origin makes no move: the plan
    only ever goes right or down, which the boundary check of a homed
    stage at [(0, 0)] refuses, so whatever the camera, the link and the
    cancel flag do, nothing is written to the wire, the ledger stays at
    the origin and [current_step] stays 0.  When the method returns with
    the flag still set, the status line nevertheless reads
    "Auto scan complete - stopping stitching" and the stop is
    scheduled.  [start_auto_scan] lets such a stage, once connected,
    start without asking. *)
Theorem scan_from_home_origin_makes_no_move (env : Env) (st : Scanner)
    (Hset : set (stage st) = true) (Hx : abs_x (stage st) = 0)
    (Hy : abs_y (stage st) = 0) :
  let o := lawnmower_scan env st in
  ledger (state_of o) = (0, 0) /\
  wire (stage (state_of o)) = wire (stage st) /\
  current_step (state_of o) = 0 /\
  image_counter (state_of o) <= image_counter st + 1 /\
  (arduino_connected (stage st) = true ->
   forall proceed, start_auto_scan (stage st) proceed = Started) /\
  ((forall name frame, imwrite_raises env name frame = false) ->
   active_at_end env = true ->
   exists st',
     o = Returned st' /\
     status_var (stage st') = "Auto scan complete - stopping stitching" /\
     stop_scheduled st' = true).
Proof.
  intros o. subst o. unfold lawnmower_scan.
  set (st0 := prepare st).
  assert (H0 : ledger st0 = (0, 0) /\ wire (stage st0) = wire (stage st) /\
               current_step st0 = 0 /\ image_counter st0 = image_counter st /\
               set (stage st0) = true).
  { unfold ledger. cbn. rewrite Hx, Hy. repeat split. exact Hset. }
  assert (Hplan : match scan_pattern st0 with
                  | [] => True
                  | m :: _ => m = ("S", "R") \/ m = ("D", "S")
                  end)
    by apply plan_starts_right_or_down.
  destruct H0 as (Hp0 & Hw0 & Hc0 & Hi0 & Hs0).
  assert (Hcap : capture env 0 st0 = Raised st0 \/
                 exists st1, capture env 0 st0 = Returned st1 /\
                   ledger st1 = ledger st0 /\
                   wire (stage st1) = wire (stage st0) /\
                   current_step st1 = 0 /\
                   image_counter st0 <= image_counter st1
                     <= image_counter st0 + 1 /\
                   set (stage st1) = true /\
                   scan_pattern st1 = scan_pattern st0).
  { unfold capture, save_current_frame.
    destruct (camera_read env 0) as [f |].
    - destruct (imwrite_raises env _ _); [left; reflexivity |].
      right. eexists. split; [reflexivity |].
      unfold ledger. cbn.
      repeat split; try reflexivity; try lia; assumption.
    - right. exists st0. split; [reflexivity |].
      repeat split; try reflexivity; try lia; assumption. }
  split; [| split; [| split; [| split; [| split]]]].
  5: { intros Hconn proceed. unfold start_auto_scan.
       rewrite Hconn, Hset, Hx, Hy. reflexivity. }
  1-4: destruct Hcap as [-> | (st1 & -> & Hp1 & Hw1 & Hc1 & Hi1 & Hs1 & Hpat)];
    cbn [and_then state_of]; try congruence; try lia.
  1-4: rewrite <- Hpat in Hplan;
    destruct (first_move_refused env (Z.of_nat (length (scan_pattern st0)))
                (scan_pattern st1) st1 Hplan Hs1 (eq_trans Hp1 Hp0))
      as (st2 & -> & Hq & Hw2 & Hc2 & Hi2);
    cbn [and_then state_of]; unfold finish, ledger, wire in *;
    destruct (active_at_end env); cbn; try congruence; try lia.
  intros Hwrite Hend.
  destruct Hcap as [Hr | (st1 & -> & Hp1 & Hw1 & Hc1 & Hi1 & Hs1 & Hpat)].
  - exfalso. revert Hr. unfold capture, save_current_frame.
    destruct (camera_read env 0); [rewrite Hwrite |]; discriminate.
  - cbn [and_then]. rewrite <- Hpat in Hplan.
    destruct (first_move_refused env (Z.of_nat (length (scan_pattern st0)))
                (scan_pattern st1) st1 Hplan Hs1 (eq_trans Hp1 Hp0))
      as (st2 & -> & _).
    cbn [and_then]. eexists. split; [reflexivity |].
    unfold finish. rewrite Hend. cbn. split; reflexivity.
Qed.

(** A camera that always delivers, a link that always answers, nobody
    cancelling. *)
Definition healthy (frames : nat -> Image) : Env :=
  {| camera_read := fun n => Some (frames n);
     imwrite_raises := fun _ _ => false;
     link_at := fun _ => LinkOk;
     active_at := fun _ => true;
     active_at_end := true |}.

Definition scanner (s : Stage) (rows steps : Z) : Scanner :=
  {| stage := s; crop := Mosaic.init_crop;
     rows_to_scan := rows; steps_per_row := steps;
     scan_pattern := []; current_step := 0;
     auto_scan_active := true;
     save_directory := "captured_frames";
     image_counter := 0; saved := [];
     stop_scheduled := false |}.

Lemma scan_from_home_origin_makes_no_move_witness :
  let o :=
    lawnmower_scan (healthy (fun _ => MosaicFacts.grey_frame 480 640))
      (scanner ControlFacts.homed_stage 3 4) in
  current_step (state_of o) = 0 /\
  wire (stage (state_of o)) = [] /\
  status_var (stage (state_of o)) = "Auto scan complete - stopping stitching".
Proof.
  intros o.
  destruct (scan_from_home_origin_makes_no_move
              (healthy (fun _ => MosaicFacts.grey_frame 480 640))
              (scanner ControlFacts.homed_stage 3 4)
              eq_refl eq_refl eq_refl)
    as (_ & Hw & Hc & _ & _ & Hs).
  destruct (Hs (fun _ _ => eq_refl) eq_refl) as (st' & Ho & Hst & _).
  fold o in Hw, Hc, Ho. rewrite Ho in *.
  split; [exact Hc | split; [exact Hw | exact Hst]].
Defined.

(** *** Progress of the loop, whatever happens *)

Lemma wire_with_status (s : Stage) (msg : string) :
  wire (with_status s msg) = wire s.
Proof. reflexivity. Qed.

Lemma send_step_wire_grows (s : Stage) (y x : string) (io : LinkBehaviour) :
  (length (wire (fst (send_step s y x io))) <= length (wire s) + 1)%nat.
Proof.
  unfold send_step, wire.
  destruct (arduino_connected s); [| cbn; lia].
  destruct (arduino s) as [p |] eqn:Hp; [| cbn; rewrite Hp; cbn; lia].
  destruct (set s && _); [cbn; rewrite Hp; lia |].
  destruct (set s && _); [cbn; rewrite Hp; lia |].
  destruct io; cbn; rewrite ?Hp, ?length_app; cbn; lia.
Qed.

Lemma capture_cases (env : Env) (n : nat) (st : Scanner) :
  let st' := state_of (capture env n st) in
  stage st' = stage st /\ current_step st' = current_step st /\
  scan_pattern st' = scan_pattern st /\
  image_counter st <= image_counter st' <= image_counter st + 1.
Proof.
  unfold capture, save_current_frame.
  destruct (camera_read env n); [destruct (imwrite_raises env _ _) |];
    cbn; repeat split; lia.
Qed.

Lemma scan_loop_progress (env : Env) (total : Z) (moves : list Move) :
  forall (i : nat) (st : Scanner),
    let st' := state_of (scan_loop env total moves i st) in
    exists k : nat,
      (k <= length moves)%nat /\
      ledger st' = displaced (ledger st) (firstn k moves) /\
      current_step st'
      = (if (k =? 0)%nat then current_step st else Z.of_nat (i + k)) /\
      image_counter st <= image_counter st'
        <= image_counter st + Z.of_nat k /\
      (length (wire (stage st')) <= length (wire (stage st)) + k + 1)%nat /\
      scan_pattern st' = scan_pattern st.
Proof.
  induction moves as [| [y x] rest IH]; intros i st; cbn [scan_loop].
  - exists 0%nat. cbn. repeat split; lia.
  - destruct (active_at env i); cbn [negb];
      [| exists 0%nat; cbn; repeat split; lia].
    pose proof (ServoFacts.send_step_cases (stage st) y x (link_at env i))
      as Hcases.
    pose proof (send_step_wire_grows (stage st) y x (link_at env i)) as Hgrow.
    destruct (send_step (stage st) y x (link_at env i)) as [s' sent].
    cbn [fst snd] in Hcases, Hgrow.
    destruct Hcases as [(-> & Hx & Hy & _) | (_ & -> & Hw & Hx & Hy & _)].
    + exists 0%nat. unfold ledger, wire in *. cbn.
      rewrite Hx, Hy. repeat split; lia.
    + set (st1 := set_status _ _).
      destruct (capture_cases env (S i) st1) as (Hs & Hc & Hp & Hi).
      destruct (capture env (S i) st1) as [st2 | st2]; cbn [state_of] in *;
        cbn [and_then state_of].
      * destruct (IH (S i) st2) as (k & Hk & Hl & Hcs & Hic & Hwl & Hpat).
        exists (S k). cbn [firstn length displaced fold_left Nat.eqb].
        unfold ledger in *. rewrite Hs in Hl, Hwl.
        cbn [st1 stage set_status with_stage with_current_step] in Hl, Hwl.
        rewrite wire_with_status in Hwl.
        cbn [abs_x abs_y with_status] in Hl.
        rewrite Hx, Hy in Hl. rewrite Hw, length_app in Hwl.
        cbn [length] in Hwl.
        repeat split; try lia; try congruence.
        -- exact Hl.
        -- rewrite Hcs, Hc. cbn. destruct (k =? 0)%nat eqn:Hk0; [| lia].
           apply Nat.eqb_eq in Hk0. lia.
        -- cbn in Hi. lia.
        -- cbn in Hi. lia.
        -- rewrite Hpat, Hp. reflexivity.
      * exists 1%nat. cbn [firstn length displaced fold_left Nat.eqb].
        unfold ledger. rewrite Hs, Hc, Hp.
        cbn [st1 stage set_status with_stage with_current_step current_step
             scan_pattern image_counter] in Hi |- *.
        rewrite wire_with_status. cbn [abs_x abs_y with_status].
        rewrite Hx, Hy, Hw, length_app. cbn [length fst snd].
        repeat split; lia.
Qed.

(** X24. The ledger always matches the progress counter: whatever the
    camera, the link and the cancel flag do, and whether the scan
    returns or an exception ends it, [current_step] lies between 0 and
    the length of the plan, the ledger is the starting position moved
    by exactly the first [current_step] moves of the plan, at most
    [current_step + 1] frames have been saved, and at most
    [current_step + 1] lines have gone onto the wire. *)
Theorem scan_ledger_matches_progress (env : Env) (st : Scanner) :
  let st' := state_of (lawnmower_scan env st) in
  let plan := generate_lawnmower_pattern (rows_to_scan st) (steps_per_row st) in
  scan_pattern st' = plan /\
  0 <= current_step st' <= Z.of_nat (length plan) /\
  ledger st'
  = displaced (ledger st) (firstn (Z.to_nat (current_step st')) plan) /\
  image_counter st <= image_counter st'
    <= image_counter st + current_step st' + 1 /\
  (length (wire (stage st'))
   <= length (wire (stage st)) + Z.to_nat (current_step st') + 1)%nat.
Proof.
  intros st' plan. subst st'. unfold lawnmower_scan.
  set (st0 := prepare st).
  destruct (capture_cases env 0 st0) as (Hs & Hc & Hp & Hi).
  change (scan_pattern st0) with plan in *.
  change (image_counter st0) with (image_counter st) in Hi.
  change (current_step st0) with 0 in Hc.
  assert (Hl0 : forall s, stage s = stage st0 -> ledger s = ledger st /\
                  length (wire (stage s)) = length (wire (stage st))).
  { intros s E. unfold ledger. rewrite E. split; reflexivity. }
  destruct (capture env 0 st0) as [st1 | st1]; cbn [state_of] in *;
    cbn [and_then state_of].
  - destruct (Hl0 st1 Hs) as [Hl1 Hw1].
    destruct (scan_loop_progress env (Z.of_nat (length plan)) plan 0 st1)
      as (k & Hk & Hl & Hcs & Hic & Hwl & Hpat).
    rewrite Hp.
    assert (Hfin : forall s, ledger (finish env s) = ledger s /\
               current_step (finish env s) = current_step s /\
               image_counter (finish env s) = image_counter s /\
               scan_pattern (finish env s) = scan_pattern s /\
               wire (stage (finish env s)) = wire (stage s)).
    { intros s. unfold finish, ledger, wire.
      destruct (active_at_end env); cbn; repeat split. }
    assert (Hcur : forall s, current_step s = Z.of_nat k ->
               ledger s = displaced (ledger st1) (firstn k plan) ->
               image_counter st1 <= image_counter s
                 <= image_counter st1 + Z.of_nat k ->
               (length (wire (stage s))
                <= length (wire (stage st1)) + k + 1)%nat ->
               scan_pattern s = plan ->
               scan_pattern (finish env s) = plan /\
               0 <= current_step (finish env s) <= Z.of_nat (length plan) /\
               ledger (finish env s)
               = displaced (ledger st)
                   (firstn (Z.to_nat (current_step (finish env s))) plan) /\
               image_counter st <= image_counter (finish env s)
                 <= image_counter st + current_step (finish env s) + 1 /\
               (length (wire (stage (finish env s)))
                <= length (wire (stage st))
                   + Z.to_nat (current_step (finish env s)) + 1)%nat).
    { intros s E1 E2 E3 E4 E5.
      destruct (Hfin s) as (-> & -> & -> & -> & ->).
      rewrite E1, Nat2Z.id, E2, Hl1. repeat split; try lia; assumption. }
    assert (Hk' : current_step
                    (state_of (scan_loop env (Z.of_nat (length plan)) plan 0 st1))
                  = Z.of_nat k).
    { rewrite Hcs, Hc. destruct (k =? 0)%nat eqn:E;
        [apply Nat.eqb_eq in E; lia | reflexivity]. }
    rewrite Hp in Hpat.
    destruct (scan_loop env (Z.of_nat (length plan)) plan 0 st1) as [st2 | st2];
      cbn [state_of and_then] in *.
    + apply Hcur; assumption.
    + rewrite Hk', Nat2Z.id, Hl, Hl1. repeat split; try lia; assumption.
  - destruct (Hl0 st1 Hs) as [Hl1 Hw1].
    rewrite Hp, Hc, Hl1, Hw1. cbn. repeat split; lia.
Qed.

(** *** A scan on which nothing goes wrong *)

Definition line_of (m : Move) : string := command_line (fst m) (snd m).

Lemma send_step_passes_in_bounds (s : Stage) (p : Serial) (y x : string) :
  arduino_connected s = true -> arduino s = Some p ->
  (set s = true ->
   0 <= prospective_x (abs_x s) x /\ 0 <= prospective_y (abs_y s) y) ->
  send_step s y x LinkOk
  = (with_position (with_port s (write p (command_line y x)))
       (prospective_x (abs_x s) x) (prospective_y (abs_y s) y)
       (position_text (prospective_x (abs_x s) x)
          (prospective_y (abs_y s) y)),
     true).
Proof.
  intros Hc Hp Hb. unfold send_step. rewrite Hc, Hp.
  destruct (set s); cbn [andb]; [| reflexivity].
  destruct (Hb eq_refl) as [Hx Hy].
  destruct (Z.ltb_spec (prospective_x (abs_x s) x) 0); [lia |].
  destruct (Z.ltb_spec (prospective_y (abs_y s) y) 0); [lia |].
  reflexivity.
Qed.

Section Healthy.

Variable env : Env.
Variable frames : nat -> Image.
Hypothesis Hcamera : forall n, camera_read env n = Some (frames n).
Hypothesis Hwrite : forall name frame, imwrite_raises env name frame = false.
Hypothesis Hlink : forall n, link_at env n = LinkOk.
Hypothesis Hactive : forall n, active_at env n = true.

(** The file the [j]-th capture from frame number [n] on writes. *)
Definition shot (st : Scanner) (n j : nat) : string * Image :=
  (frame_name (save_directory st) (image_counter st + Z.of_nat j),
   Mosaic.crop_frame (crop st) (frames (n + j))).

Lemma capture_saves (n : nat) (st : Scanner) :
  capture env n st
  = Returned
      {| stage := stage st; crop := crop st;
         rows_to_scan := rows_to_scan st; steps_per_row := steps_per_row st;
         scan_pattern := scan_pattern st; current_step := current_step st;
         auto_scan_active := auto_scan_active st;
         save_directory := save_directory st;
         image_counter := image_counter st + 1;
         saved := saved st ++ [shot st n 0];
         stop_scheduled := stop_scheduled st |}.
Proof.
  unfold capture, save_current_frame, shot.
  rewrite Hcamera, Hwrite, Nat.add_0_r, Z.add_0_r. reflexivity.
Qed.

Lemma scan_loop_completes (total : Z) (moves : list Move) :
  forall (i : nat) (st : Scanner) (p : Serial),
    arduino_connected (stage st) = true -> arduino (stage st) = Some p ->
    within_bounds (set (stage st)) (ledger st) moves ->
    exists st',
      scan_loop env total moves i st = Returned st' /\
      ledger st' = displaced (ledger st) moves /\
      arduino (stage st')
      = Some {| written := written p ++ map line_of moves |} /\
      current_step st'
      = match moves with
        | [] => current_step st
        | _ => Z.of_nat (i + length moves)
        end /\
      image_counter st' = image_counter st + Z.of_nat (length moves) /\
      saved st'
      = saved st ++ map (shot st (S i)) (seq 0 (length moves)).
Proof.
  induction moves as [| [y x] rest IH]; intros i st p Hc Hp Hb;
    cbn [scan_loop].
  - exists st. cbn. rewrite !app_nil_r, Z.add_0_r.
    repeat split. rewrite Hp. destruct p. reflexivity.
  - destruct Hb as [Hb Hrest]. unfold moved, ledger in Hb, Hrest.
    cbn [fst snd] in Hb, Hrest.
    rewrite Hactive, Hlink. cbn [negb].
    rewrite (send_step_passes_in_bounds (stage st) p y x Hc Hp Hb).
    rewrite capture_saves. cbn [and_then].
    match goal with
    | |- exists st', scan_loop _ _ _ _ ?s = _ /\ _ => set (st2 := s)
    end.
    destruct (IH (S i) st2 (write p (command_line y x)))
      as (st' & Hrun & Hl & Hport & Hcs & Hic & Hsv).
    + cbn. exact Hc.
    + reflexivity.
    + exact Hrest.
    + exists st'. split; [exact Hrun |].
      split; [exact Hl |].
      split; [rewrite Hport; cbn; rewrite <- app_assoc; reflexivity |].
      split.
      { rewrite Hcs. destruct rest; cbn [length];
          [cbn; lia | f_equal; lia]. }
      split; [rewrite Hic; cbn; lia |].
      rewrite Hsv. cbn [saved st2 length seq map].
      rewrite <- app_assoc. cbn [app]. f_equal. f_equal.
      rewrite <- seq_shift, map_map. apply map_ext. intros j.
      unfold shot.
      change (save_directory st2) with (save_directory st).
      change (crop st2) with (crop st).
      change (image_counter st2) with (image_counter st + 1).
      replace (image_counter st + 1 + Z.of_nat j)
        with (image_counter st + Z.of_nat (S j)) by lia.
      replace (S (S i) + j)%nat with (S i + S j)%nat by lia.
      reflexivity.
Qed.

End Healthy.

(** *** The boustrophedon plan on the ledger *)

Lemma displaced_app (p : Z * Z) (l1 l2 : list Move) :
  displaced p (l1 ++ l2) = displaced (displaced p l1) l2.
Proof. apply fold_left_app. Qed.

Lemma within_bounds_app (h : bool) (l1 l2 : list Move) :
  forall p, within_bounds h p l1 ->
    within_bounds h (displaced p l1) l2 ->
    within_bounds h p (l1 ++ l2).
Proof.
  induction l1 as [| m l1 IH]; intros p H1 H2; [exact H2 |].
  destruct H1 as [Hm H1]. split; [exact Hm |]. apply IH; assumption.
Qed.

Lemma moved_down (x y : Z) : moved (x, y) ("D", "S") = (x, y - 1).
Proof. reflexivity. Qed.

Lemma sweep_right (h : bool) (n : nat) :
  forall x y, (h = true -> Z.of_nat n <= x /\ 0 <= y) ->
    within_bounds h (x, y) (@repeat Move ("S", "R") n) /\
    displaced (x, y) (@repeat Move ("S", "R") n) = (x - Z.of_nat n, y).
Proof.
  induction n as [| n IH]; intros x y Hb.
  - cbn. split; [exact I | f_equal; lia].
  - cbn [repeat within_bounds displaced fold_left].
    change (moved (x, y) ("S", "R")) with (x - 1, y).
    destruct (IH (x - 1) y) as [H1 H2]; [intros E; specialize (Hb E); lia |].
    split; [split; [intros E; specialize (Hb E); cbn; lia | exact H1] |].
    unfold displaced in H2. rewrite H2. f_equal. lia.
Qed.

Lemma sweep_left (h : bool) (n : nat) :
  forall x y, (h = true -> 0 <= x /\ 0 <= y) ->
    within_bounds h (x, y) (@repeat Move ("S", "L") n) /\
    displaced (x, y) (@repeat Move ("S", "L") n) = (x + Z.of_nat n, y).
Proof.
  induction n as [| n IH]; intros x y Hb.
  - cbn. split; [exact I | f_equal; lia].
  - cbn [repeat within_bounds displaced fold_left].
    change (moved (x, y) ("S", "L")) with (x + 1, y).
    destruct (IH (x + 1) y) as [H1 H2]; [intros E; specialize (Hb E); lia |].
    split; [split; [intros E; specialize (Hb E); cbn; lia | exact H1] |].
    unfold displaced in H2. rewrite H2. f_equal. lia.
Qed.

(** Where row [a] of the plan starts on the x axis, for a scan that
    starts at [x0]. *)
Definition row_start (x0 : Z) (steps : nat) (a : nat) : Z :=
  if Nat.even a then x0 else x0 - Z.of_nat (steps - 1).

Section Plan.

Variables (h : bool) (rows steps : nat) (x0 y0 : Z).
Hypothesis Hroom :
  h = true -> Z.of_nat (steps - 1) <= x0 /\ Z.of_nat rows - 1 <= y0.

Lemma plan_row (a : nat) :
  (a < rows)%nat ->
  let l := boustrophedon_row rows steps a in
  within_bounds h (row_start x0 steps a, y0 - Z.of_nat a) l /\
  displaced (row_start x0 steps a, y0 - Z.of_nat a) l
  = (row_start x0 steps (S a),
     y0 - Z.of_nat a - (if (S a <? rows)%nat then 1 else 0)) /\
  length l = ((steps - 1) + (if (S a <? rows)%nat then 1 else 0))%nat.
Proof.
  intros Ha l. subst l. unfold boustrophedon_row, horizontal, row_start.
  rewrite Nat.even_succ, <- Nat.negb_even.
  rewrite displaced_app, length_app, repeat_length.
  destruct (Nat.even a); cbn [negb]; cbv beta iota.
  - destruct (sweep_right h (steps - 1) x0 (y0 - Z.of_nat a)) as [H1 H2];
      [intros E; specialize (Hroom E); lia |].
    rewrite H2. split; [| split].
    + apply within_bounds_app; [exact H1 |]. rewrite H2.
      destruct (Nat.ltb_spec (S a) rows); [| exact I].
      split; [| exact I]. rewrite moved_down. cbn [fst snd].
      intros E; specialize (Hroom E); lia.
    + destruct (S a <? rows)%nat; cbn [displaced fold_left];
        rewrite ?moved_down; f_equal; lia.
    + destruct (S a <? rows)%nat; reflexivity.
  - destruct (sweep_left h (steps - 1) (x0 - Z.of_nat (steps - 1))
                (y0 - Z.of_nat a)) as [H1 H2];
      [intros E; specialize (Hroom E); lia |].
    rewrite H2. split; [| split].
    + apply within_bounds_app; [exact H1 |]. rewrite H2.
      destruct (Nat.ltb_spec (S a) rows); [| exact I].
      split; [| exact I]. rewrite moved_down. cbn [fst snd].
      intros E; specialize (Hroom E); lia.
    + destruct (S a <? rows)%nat; cbn [displaced fold_left];
        rewrite ?moved_down; f_equal; lia.
    + destruct (S a <? rows)%nat; reflexivity.
Qed.

Lemma plan_rows (n : nat) :
  forall a, (a + n <= rows)%nat ->
    let l := concat (map (boustrophedon_row rows steps) (seq a n)) in
    let last := if ((a + n =? rows) && (0 <? n))%nat then 1 else 0 in
    within_bounds h (row_start x0 steps a, y0 - Z.of_nat a) l /\
    displaced (row_start x0 steps a, y0 - Z.of_nat a) l
    = (row_start x0 steps (a + n), y0 - Z.of_nat (a + n) + last) /\
    Z.of_nat (length l) = Z.of_nat n * Z.of_nat (steps - 1) + Z.of_nat n - last.
Proof.
  induction n as [| n IH]; intros a Hle; cbn [seq map concat].
  - rewrite Nat.add_0_r, andb_false_r. cbn.
    split; [exact I | split; [f_equal; lia | reflexivity]].
  - cbv zeta. destruct (plan_row a) as (H1 & H2 & H3); [lia |].
    rewrite displaced_app, length_app, H2, H3.
    destruct (Nat.ltb_spec (S a) rows) as [Hlt | Hge].
    + destruct (IH (S a)) as (K1 & K2 & K3); [lia |].
      replace (y0 - Z.of_nat a - 1) with (y0 - Z.of_nat (S a)) by lia.
      split; [apply within_bounds_app; [exact H1 |]; rewrite H2;
              destruct (Nat.ltb_spec (S a) rows); [| lia];
              replace (y0 - Z.of_nat a - 1) with (y0 - Z.of_nat (S a)) by lia;
              exact K1 |].
      rewrite K2. replace (S a + n)%nat with (a + S n)%nat by lia.
      split.
      * f_equal. f_equal.
        destruct (Nat.eqb_spec (a + S n) rows), (Nat.ltb_spec 0 n);
          cbn [andb Nat.ltb Nat.leb]; try reflexivity; lia.
      * rewrite Nat2Z.inj_add, K3.
        replace (S a + n)%nat with (a + S n)%nat by lia.
        destruct (Nat.eqb_spec (a + S n) rows), (Nat.ltb_spec 0 n);
          cbn [andb Nat.ltb Nat.leb]; lia.
    + assert (n = 0)%nat by lia. subst n. cbn [seq map concat].
      rewrite app_nil_r. cbn [displaced fold_left length].
      replace (a + 1)%nat with (S a) by lia.
      assert (E : (S a =? rows)%nat = true) by (apply Nat.eqb_eq; lia).
      rewrite E. cbn [andb Nat.ltb Nat.leb].
      split; [exact H1 |].
      split; [f_equal; lia | lia].
Qed.

End Plan.

Lemma parity_of_nat (n : nat) :
  Z.even (Z.of_nat n) = Nat.even n /\ Z.odd (Z.of_nat n) = Nat.odd n.
Proof.
  induction n as [| n [IHe IHo]]; [split; reflexivity |].
  rewrite Nat2Z.inj_succ, Z.even_succ, Z.odd_succ, Nat.even_succ, Nat.odd_succ.
  split; assumption.
Qed.

(** X25. A scan on which nothing goes wrong runs the whole plan: with
    an open link that answers every command, a camera that delivers
    every frame, nobody cancelling, and a stage that is either not
    homed or homed with at least [steps_per_row - 1] columns and
    [rows_to_scan - 1] rows of room below it, [lawnmower_scan] returns
    with [current_step] equal to the [rows * (steps_per_row - 1) +
    (rows - 1)] moves of the plan, their command lines on the wire in
    plan order, the ledger [rows - 1] lower and, for an odd number of
    rows, [steps_per_row - 1] further right (back at the starting column
    for an even number), one frame saved before the first move and one
    after every move under consecutive file names, the status line
    "Auto scan complete - stopping stitching", the stop scheduled and the
    scan flag cleared. *)
Theorem healthy_scan_runs_the_whole_plan (env : Env) (frames : nat -> Image)
    (st : Scanner) (p : Serial)
    (Hcamera : forall n, camera_read env n = Some (frames n))
    (Hwrite : forall name frame, imwrite_raises env name frame = false)
    (Hlink : forall n, link_at env n = LinkOk)
    (Hactive : forall n, active_at env n = true)
    (Hend : active_at_end env = true)
    (Hconnected : arduino_connected (stage st) = true)
    (Hport : arduino (stage st) = Some p)
    (Hrows : 1 <= rows_to_scan st) (Hsteps : 1 <= steps_per_row st)
    (Hroom : set (stage st) = true ->
             steps_per_row st - 1 <= abs_x (stage st) /\
             rows_to_scan st - 1 <= abs_y (stage st)) :
  let rows := rows_to_scan st in
  let steps := steps_per_row st in
  let plan := generate_lawnmower_pattern rows steps in
  let total := rows * (steps - 1) + (rows - 1) in
  exists st',
    lawnmower_scan env st = Returned st' /\
    current_step st' = total /\
    wire (stage st') = wire (stage st) ++ map line_of plan /\
    abs_x (stage st')
    = abs_x (stage st) - (if Z.odd rows then steps - 1 else 0) /\
    abs_y (stage st') = abs_y (stage st) - (rows - 1) /\
    image_counter st' = image_counter st + total + 1 /\
    saved st' = saved st ++ map (shot frames st 0) (seq 0 (S (length plan))) /\
    status_var (stage st') = "Auto scan complete - stopping stitching" /\
    stop_scheduled st' = true /\ auto_scan_active st' = false.
Proof.
  intros rows steps plan total.
  unfold lawnmower_scan. set (st0 := prepare st).
  rewrite (capture_saves env frames Hcamera Hwrite 0 st0). cbn [and_then].
  match goal with
  | |- exists st', and_then (scan_loop _ _ _ _ ?s) _ = _ /\ _ => set (st1 := s)
  end.
  change (scan_pattern st1) with plan. change (scan_pattern st0) with plan.
  assert (Hplan : plan = boustrophedon (Z.to_nat rows) (Z.to_nat steps))
    by apply ScanFacts.generate_is_boustrophedon.
  assert (Hroom' : set (stage st) = true ->
            Z.of_nat (Z.to_nat steps - 1) <= abs_x (stage st) /\
            Z.of_nat (Z.to_nat rows) - 1 <= abs_y (stage st)).
  { intros E. specialize (Hroom E). subst rows steps. lia. }
  destruct (plan_rows (set (stage st)) (Z.to_nat rows) (Z.to_nat steps)
              (abs_x (stage st)) (abs_y (stage st)) Hroom'
              (Z.to_nat rows) 0%nat (Nat.le_refl _))
    as (Hin & Hout & Hlen).
  fold (boustrophedon (Z.to_nat rows) (Z.to_nat steps)) in Hin, Hout, Hlen.
  rewrite <- Hplan in Hin, Hout, Hlen.
  assert (Hlast : (((0 + Z.to_nat rows =? Z.to_nat rows) &&
                    (0 <? Z.to_nat rows))%nat) = true).
  { apply andb_true_iff. split; [apply Nat.eqb_eq | apply Nat.ltb_lt];
      subst rows; lia. }
  rewrite Hlast in Hout, Hlen.
  change (row_start (abs_x (stage st)) (Z.to_nat steps) 0)
    with (abs_x (stage st)) in Hin, Hout.
  change (Z.of_nat 0) with 0 in Hin, Hout. rewrite Z.sub_0_r in Hin, Hout.
  assert (Htotal : Z.of_nat (length plan) = total).
  { rewrite Hlen. subst total rows steps. nia. }
  destruct (scan_loop_completes env frames Hcamera Hwrite Hlink Hactive
              (Z.of_nat (length plan)) plan 0 st1 p Hconnected Hport Hin)
    as (st2 & -> & Hl & Hw & Hcs & Hic & Hsv).
  cbn [and_then]. eexists. split; [reflexivity |].
  unfold ledger in Hl. change (abs_x (stage st1)) with (abs_x (stage st)) in Hl.
  change (abs_y (stage st1)) with (abs_y (stage st)) in Hl.
  rewrite Hout in Hl. injection Hl as Hx Hy.
  unfold finish. rewrite Hend. cbn.
  split.
  { rewrite Hcs. destruct plan as [| m plan'] eqn:Eplan.
    - cbn in Htotal. rewrite <- Htotal. reflexivity.
    - rewrite <- Htotal. reflexivity. }
  split.
  { rewrite wire_with_status. unfold wire. rewrite Hw, Hport. reflexivity. }
  split.
  { rewrite Hx. unfold row_start. cbn [Nat.add].
    destruct (parity_of_nat (Z.to_nat rows)) as [_ Ho].
    rewrite Z2Nat.id in Ho by (subst rows; lia).
    rewrite <- Nat.negb_odd, <- Ho.
    destruct (Z.odd rows); cbn [negb]; subst steps; lia. }
  split.
  { rewrite Hy. subst rows. lia. }
  split.
  { rewrite Hic. cbn. lia. }
  split.
  { rewrite Hsv. cbn [saved st1 seq map]. rewrite <- app_assoc. cbn [app].
    f_equal. f_equal.
    rewrite <- seq_shift, map_map. apply map_ext. intros j. unfold shot.
    change (save_directory st1) with (save_directory st).
    change (save_directory st0) with (save_directory st).
    change (crop st1) with (crop st).
    change (image_counter st1) with (image_counter st + 1).
    replace (image_counter st + 1 + Z.of_nat j)
      with (image_counter st + Z.of_nat (S j)) by lia.
    replace (1 + j)%nat with (0 + S j)%nat by lia.
    reflexivity. }
  repeat split.
Qed.

(** A stage homed at the far corner of a three by four field. *)
Definition far_corner : Stage :=
  with_position (set_home ServoFacts.connected_stage) 3 2 (position_text 3 2).

Lemma healthy_scan_runs_the_whole_plan_witness :
  exists st',
    lawnmower_scan (healthy (fun _ => MosaicFacts.grey_frame 480 640))
      (scanner far_corner 3 4)
    = Returned st' /\
    current_step st' = 11 /\ ledger st' = (0, 0) /\ image_counter st' = 12 /\
    wire (stage st')
    = map line_of
        [("S", "R"); ("S", "R"); ("S", "R"); ("D", "S");
         ("S", "L"); ("S", "L"); ("S", "L"); ("D", "S");
         ("S", "R"); ("S", "R"); ("S", "R")].
Proof.
  destruct (healthy_scan_runs_the_whole_plan
              (healthy (fun _ => MosaicFacts.grey_frame 480 640))
              (fun _ => MosaicFacts.grey_frame 480 640)
              (scanner far_corner 3 4) {| written := [] |}
              (fun _ => eq_refl) (fun _ _ => eq_refl) (fun _ => eq_refl)
              (fun _ => eq_refl) eq_refl eq_refl eq_refl
              ltac:(cbn; lia) ltac:(cbn; lia)
              ltac:(intros _; split; cbn; lia))
    as (st' & Hrun & Hc & Hw & Hx & Hy & Hi & _).
  exists st'. split; [exact Hrun |].
  split; [exact Hc |].
  split; [unfold ledger; rewrite Hx, Hy; reflexivity |].
  split; [exact Hi | exact Hw].
Defined.

End ExecutorFacts.

(** ** Keyboard control *)

Module KeysFacts.

Import Servo Keys.

Local Open Scope string_scope.
Local Open Scope list_scope.
Local Open Scope Z_scope.

Lemma arrow_key_steps (active : bool) (s : Stage) (p : Serial)
    (keysym y x : string) :
  (keysym, (y, x)) = ("Up", ("U", "S")) \/
  (keysym, (y, x)) = ("Down", ("D", "S")) \/
  (keysym, (y, x)) = ("Right", ("S", "R")) \/
  (keysym, (y, x)) = ("Left", ("S", "L")) ->
  arduino_connected s = true -> arduino s = Some p ->
  (set s = true ->
   0 <= prospective_x (abs_x s) x /\ 0 <= prospective_y (abs_y s) y) ->
  on_key_press active s keysym LinkOk
  = Handled
      (with_status
         (with_position (with_port s (write p (command_line y x)))
            (prospective_x (abs_x s) x) (prospective_y (abs_y s) y)
            (position_text (prospective_x (abs_x s) x)
               (prospective_y (abs_y s) y)))
         ("Sent step command: " ++ y ++ x)).
Proof.
  intros Hk Hc Hp Hb. unfold on_key_press.
  pose proof (ExecutorFacts.send_step_passes_in_bounds s p y x Hc Hp Hb) as E.
  rewrite Hc. cbn [negb].
  destruct Hk as [Hk | [Hk | [Hk | Hk]]]; injection Hk as -> -> ->;
    cbn [String.eqb Ascii.eqb Bool.eqb orb]; cbv beta iota;
    rewrite E; reflexivity.
Qed.

(** X26. An arrow key and its opposite cancel: on a connected stage
    with a healthy link that is not homed, or homed with the ledger
    inside the positive quadrant, pressing Up then Down, or Left then
    Right, writes the two commands ["US\n"; "DS\n"] (["SL\n"; "SR\n"])
    to the wire and brings the ledger back to where it started; a
    homed stage at the origin that presses Down or Right first is
    refused with nothing written. *)
Theorem opposite_arrow_keys_cancel (active : bool) (s : Stage) (p : Serial)
    (Hconnected : arduino_connected s = true) (Hport : arduino s = Some p)
    (Hledger : set s = true -> 0 <= abs_x s /\ 0 <= abs_y s) :
  (forall vertical : bool,
     let s' :=
       press_all active s
         (if vertical then [("Up", LinkOk); ("Down", LinkOk)]
          else [("Left", LinkOk); ("Right", LinkOk)]) in
     abs_x s' = abs_x s /\ abs_y s' = abs_y s /\
     wire s'
     = wire s ++
       (if vertical then [command_line "U" "S"; command_line "D" "S"]
        else [command_line "S" "L"; command_line "S" "R"]) /\
     status_var s'
     = if vertical then "Sent step command: DS"
       else "Sent step command: SR") /\
  (set s = true -> abs_x s = 0 -> abs_y s = 0 ->
   forall key, key = "Down" \/ key = "Right" ->
     let s' := press_all active s [(key, LinkOk)] in
     wire s' = wire s /\ abs_x s' = 0 /\ abs_y s' = 0).
Proof.
  split.
  - intros vertical s'. subst s'.
    set (first := if vertical then "Up" else "Left").
    set (second := if vertical then "Down" else "Right").
    set (y1 := if vertical then "U" else "S").
    set (x1 := if vertical then "S" else "L").
    set (y2 := if vertical then "D" else "S").
    set (x2 := if vertical then "S" else "R").
    assert (E : press_all active s
                  (if vertical then [("Up", LinkOk); ("Down", LinkOk)]
                   else [("Left", LinkOk); ("Right", LinkOk)])
                = press_all active s [(first, LinkOk); (second, LinkOk)])
      by (destruct vertical; reflexivity).
    rewrite E. clear E. cbn [press_all].
    assert (H1 : (first, (y1, x1)) = ("Up", ("U", "S")) \/
                 (first, (y1, x1)) = ("Down", ("D", "S")) \/
                 (first, (y1, x1)) = ("Right", ("S", "R")) \/
                 (first, (y1, x1)) = ("Left", ("S", "L")))
      by (destruct vertical; auto).
    assert (H2 : (second, (y2, x2)) = ("Up", ("U", "S")) \/
                 (second, (y2, x2)) = ("Down", ("D", "S")) \/
                 (second, (y2, x2)) = ("Right", ("S", "R")) \/
                 (second, (y2, x2)) = ("Left", ("S", "L")))
      by (destruct vertical; auto).
    assert (Hb1 : set s = true ->
              0 <= prospective_x (abs_x s) x1 /\
              0 <= prospective_y (abs_y s) y1).
    { intros Es. specialize (Hledger Es).
      destruct vertical; cbn; lia. }
    rewrite (arrow_key_steps active s p first y1 x1 H1 Hconnected Hport Hb1).
    match goal with
    | |- context [on_key_press _ ?t _ _] => set (s1 := t)
    end.
    assert (Hb2 : set s1 = true ->
              0 <= prospective_x (abs_x s1) x2 /\
              0 <= prospective_y (abs_y s1) y2).
    { intros Es. specialize (Hledger Es). subst s1.
      cbn [abs_x abs_y with_status with_position].
      destruct vertical; cbn; lia. }
    rewrite (arrow_key_steps active s1 (write p (command_line y1 x1))
               second y2 x2 H2 Hconnected eq_refl Hb2).
    unfold wire. rewrite Hport.
    destruct vertical; cbn; rewrite <- app_assoc; cbn [app];
      repeat split; lia.
  - intros Hset Hx Hy key Hk s'. subst s'. cbn [press_all].
    unfold on_key_press, send_step, wire.
    rewrite Hconnected, Hport, Hset, Hx, Hy.
    destruct Hk as [-> | ->]; cbn; rewrite ?Hport, ?Hx, ?Hy; repeat split.
Qed.

Lemma opposite_arrow_keys_cancel_witness :
  let s' :=
    press_all false ControlFacts.homed_stage [("Up", LinkOk); ("Down", LinkOk)] in
  abs_y s' = 0 /\ wire s' = [command_line "U" "S"; command_line "D" "S"].
Proof.
  intros s'.
  destruct (opposite_arrow_keys_cancel false ControlFacts.homed_stage
              {| written := [] |} eq_refl eq_refl
              ltac:(intros _; cbn; lia)) as [H _].
  destruct (H true) as (_ & Hy & Hw & _).
  split; [exact Hy | exact Hw].
Defined.

End KeysFacts.
